(** * time-trigger-task: the task evaluation and dispatch engine

    A shallow embedding of [process_tasks] as it is written twice in the
    repository:

    - [src/main.py], the stand-alone script (zoneinfo + requests), and
    - [src/python/time_trigger_task/__init__.py], the packaged variant
      (pytz + the native [task_io] extension).

    Python objects live in a heap of lists and dicts addressed by
    location, so that aliasing ([payload] versus [data["body"]]) is a
    property of the model and not of its typing.  Exceptions are values
    of [exn]; an exception no handler catches ends the run. *)

From Stdlib Require Import ZArith String Ascii List QArith Lia Bool Sorted.
From stdpp Require Import base option list strings gmap.

#[local] Set Warnings "-register-all".
Local Open Scope string_scope.
Local Open Scope list_scope.
Local Open Scope Z_scope.

(** ** JSON documents and Python values *)

(** The text of a configuration file or of the credential variable, once
    parsed.  Numbers are the integers; objects keep their members in
    document order. *)
Inductive json : Type :=
| JNull
| JBool (b : bool)
| JInt (n : Z)
| JStr (s : string)
| JArr (xs : list json)
| JObj (kvs : list (string * json)).

Abbreviation loc := nat (only parsing).

(** A Python value: an immutable scalar, or a reference to a mutable
    list or dict on the heap. *)
Inductive val : Type :=
| VNone
| VBool (b : bool)
| VInt (n : Z)
| VStr (s : string)
| VRef (l : loc).

Inductive obj : Type :=
| OList (xs : list val)
| ODict (kvs : list (string * val)).

(** The heap: objects by location; allocation appends. *)
Abbreviation heap := (list obj) (only parsing).

Global Instance val_eq_dec : EqDecision val.
Proof. solve_decision. Defined.

(** Exception classes, as far as the handlers of the program tell them
    apart. *)
Inductive exn : Type :=
| ValueError
| KeyError
| TypeError
| AttributeError
| OSError.

Inductive result (A : Type) : Type :=
| Ok (a : A)
| Raise (e : exn).
Arguments Ok {A} a.
Arguments Raise {A} e.

(** *** Dicts as ordered association lists *)

Fixpoint dict_get {A} (k : string) (kvs : list (string * A)) : option A :=
  match kvs with
  | [] => None
  | (k', v) :: r => if String.eqb k k' then Some v else dict_get k r
  end.

(** [d[k] = v]: replaces the value of an existing key in place, appends a
    new key at the end. *)
Fixpoint dict_set {A} (k : string) (v : A) (kvs : list (string * A))
  : list (string * A) :=
  match kvs with
  | [] => [(k, v)]
  | (k', v') :: r =>
      if String.eqb k k' then (k', v) :: r else (k', v') :: dict_set k v r
  end.

Definition dict_values {A} (kvs : list (string * A)) : list A := map snd kvs.

(** *** json.load: building the object graph of a document *)

Definition alloc (o : obj) (h : heap) : heap * val :=
  (h ++ [o], VRef (length h)).

Fixpoint build (j : json) (h : heap) : heap * val :=
  match j with
  | JNull => (h, VNone)
  | JBool b => (h, VBool b)
  | JInt n => (h, VInt n)
  | JStr s => (h, VStr s)
  | JArr xs =>
      let fix items (xs : list json) (h : heap) : heap * list val :=
        match xs with
        | [] => (h, [])
        | x :: r =>
            let '(h1, v) := build x h in
            let '(h2, vs) := items r h1 in
            (h2, v :: vs)
        end in
      let '(h', vs) := items xs h in
      alloc (OList vs) h'
  | JObj kvs =>
      let fix members (kvs : list (string * json)) (h : heap)
        : heap * list (string * val) :=
        match kvs with
        | [] => (h, [])
        | (k, x) :: r =>
            let '(h1, v) := build x h in
            let '(h2, vs) := members r h1 in
            (h2, (k, v) :: vs)
        end in
      let '(h', vs) := members kvs h in
      alloc (ODict vs) h'
  end.

Fixpoint build_items (xs : list json) (h : heap) : heap * list val :=
  match xs with
  | [] => (h, [])
  | x :: r =>
      let '(h1, v) := build x h in
      let '(h2, vs) := build_items r h1 in
      (h2, v :: vs)
  end.

Fixpoint build_members (kvs : list (string * json)) (h : heap)
  : heap * list (string * val) :=
  match kvs with
  | [] => (h, [])
  | (k, x) :: r =>
      let '(h1, v) := build x h in
      let '(h2, vs) := build_members r h1 in
      (h2, (k, v) :: vs)
  end.

(** *** json.dump: reading a document back off the heap

    The fuel bounds the nesting of references that is followed; on a
    heap of [n] objects without cycles [n] is enough.  Running out of
    fuel is the serializer's circular-reference [ValueError]. *)

Fixpoint dump_list {A B} (f : A -> option B) (l : list A) : option (list B) :=
  match l with
  | [] => Some []
  | x :: r =>
      match f x with
      | Some y =>
          match dump_list f r with
          | Some ys => Some (y :: ys)
          | None => None
          end
      | None => None
      end
  end.

Definition dump_member (f : val -> option json) (kv : string * val)
  : option (string * json) :=
  match f (snd kv) with
  | Some j => Some (fst kv, j)
  | None => None
  end.

Fixpoint dump (n : nat) (h : heap) (v : val) {struct n} : option json :=
  match v with
  | VNone => Some JNull
  | VBool b => Some (JBool b)
  | VInt z => Some (JInt z)
  | VStr s => Some (JStr s)
  | VRef l =>
      match n with
      | O => None
      | S n' =>
          match h !! l with
          | Some (OList xs) =>
              match dump_list (dump n' h) xs with
              | Some js => Some (JArr js)
              | None => None
              end
          | Some (ODict kvs) =>
              match dump_list (dump_member (dump n' h)) kvs with
              | Some js => Some (JObj js)
              | None => None
              end
          | None => None
          end
      end
  end.

Definition dumps (h : heap) (v : val) : option json := dump (length h) h v.

(** [copy.deepcopy]: a fresh graph with the same content.  The values
    this program copies come straight from [json.load], so they are
    trees: there is no sharing for the copy to preserve, and no cycle.
    (A cyclic graph, which no statement of the program can build, is
    outside the model: the copy is refused.) *)
Definition deepcopy (v : val) (h : heap) : option (heap * val) :=
  match dumps h v with
  | Some j => Some (build j h)
  | None => None
  end.

(** ** Python operations on values *)

(** [bool(v)]: the empty containers, the empty string, zero, [False] and
    [None] are falsy. *)
Definition truthy (h : heap) (v : val) : bool :=
  match v with
  | VNone => false
  | VBool b => b
  | VInt n => negb (n =? 0)
  | VStr s => negb (String.eqb s "")
  | VRef l =>
      match h !! l with
      | Some (OList []) | Some (ODict []) => false
      | _ => true
      end
  end.

(** Only scalars can be hashed; lists and dicts cannot. *)
Definition hashable (v : val) : bool :=
  match v with VRef _ => false | _ => true end.

(** [a == b] on hashable values: [True] and [False] are the integers 1
    and 0; a string only equals the same string. *)
Definition int_of_bool (b : bool) : Z := if b then 1 else 0.

Definition py_eq (a b : val) : bool :=
  match a, b with
  | VNone, VNone => true
  | VStr s, VStr t => String.eqb s t
  | VBool x, VBool y => Bool.eqb x y
  | VInt x, VInt y => x =? y
  | VBool x, VInt y | VInt y, VBool x => int_of_bool x =? y
  | _, _ => false
  end.

Definition upper_char (c : ascii) : ascii :=
  let n := nat_of_ascii c in
  if (97 <=? n)%nat && (n <=? 122)%nat then ascii_of_nat (n - 32) else c.

(** [str.upper()], on the ASCII letters. *)
Fixpoint upper (s : string) : string :=
  match s with
  | EmptyString => EmptyString
  | String c r => String (upper_char c) (upper r)
  end.

(** [p in s] on strings. *)
Fixpoint is_substring (p s : string) : bool :=
  String.prefix p s ||
  match s with
  | EmptyString => false
  | String _ r => is_substring p r
  end.

Fixpoint chars (s : string) : list val :=
  match s with
  | EmptyString => []
  | String c r => VStr (String c EmptyString) :: chars r
  end.

(** ** The library the program runs on *)

(** A time zone as the program uses it: conversion of an instant (UTC
    microseconds) to the wall clock of the zone, and of a wall-clock
    reading to the instant it denotes. *)
Record tzinfo : Type := {
  tz_key : string;
  tz_fromutc : Z -> Z;
  tz_toutc : Z -> Z
}.

Inductive tz_answer : Type :=
| TzFound (z : tzinfo)
| TzUnknown
| TzBadKey.

(** No two elements equal in the sense of [==]. *)
Inductive distinct : list val -> Prop :=
| distinct_nil : distinct []
| distinct_cons x l :
    (forall y, y ∈ l -> py_eq x y = false) -> distinct l ->
    distinct (x :: l).

(** The parts of the Python runtime the source calls and that are not
    its own code.  [strptime s] is
    [datetime.strptime(s, "%Y-%m-%d %H:%M:%S")] as wall-clock
    microseconds, [None] standing for its [ValueError]; [list_of_set l]
    is [list(set(l))] on hashable elements, whose order the language
    leaves open. *)
Class Runtime : Type := {
  strptime : string -> option Z;
  strptime_empty : strptime "" = None;
  strftime : Z -> string;
  tzdata : string -> tz_answer;
  list_of_set : list val -> list val;
  list_of_set_sound : forall l x, x ∈ list_of_set l -> x ∈ l;
  list_of_set_complete :
    forall l x, x ∈ l -> hashable x = true ->
      exists y, y ∈ list_of_set l /\ py_eq x y = true;
  list_of_set_distinct : forall l, distinct (list_of_set l)
}.

(** A [datetime]: naive, or aware with its wall clock, the instant it
    denotes and the identity of its [tzinfo] object. *)
Inductive datetime : Type :=
| Naive (wall : Z)
| Aware (wall : Z) (instant : Z) (tzobj : string * option Z).

Definition dt_wall (d : datetime) : Z :=
  match d with Naive w => w | Aware w _ _ => w end.

Definition tzobj_eqb (a b : string * option Z) : bool :=
  String.eqb (fst a) (fst b) &&
  match snd a, snd b with
  | None, None => true
  | Some x, Some y => x =? y
  | _, _ => false
  end.

(** [a - b] as a [timedelta] in microseconds.  Two aware datetimes that
    share their [tzinfo] object are subtracted on the wall clock, others
    as instants; a naive and an aware one cannot be subtracted. *)
Definition dt_sub (a b : datetime) : result Z :=
  match a, b with
  | Naive x, Naive y => Ok (x - y)
  | Aware x xi ta, Aware y yi tb =>
      if tzobj_eqb ta tb then Ok (x - y) else Ok (xi - yi)
  | _, _ => Raise TypeError
  end.

(** ** Configuration (the constants at the top of both files) *)

Definition TOLERANCE_MINUTES : Z := 30.
Definition MAX_RETRIES : Z := 3.
Definition RETRY_DELAY : Z := 2.
Definition REQUEST_TIMEOUT : Z := 20.
Definition DEFAULT_TIMEZONE : string := "Asia/Shanghai".

(** [diff.total_seconds() / 60] for a [timedelta] of [diff_us]
    microseconds, in exact arithmetic.  (A [timedelta] counts whole
    microseconds, and the two float divisions are monotone and exact at
    0 and at 30 minutes, so the comparisons below come out the same.) *)
Definition diff_minutes (diff_us : Z) : Q := Qmake diff_us 60000000.

(** [0 <= diff_minutes <= TOLERANCE_MINUTES] *)
Definition in_window (m : Q) : bool :=
  Qle_bool (inject_Z 0) m && Qle_bool m (inject_Z TOLERANCE_MINUTES).

(** ** The world of a run, and its observable trace *)

(** What one HTTP exchange comes to: a response with its status code, or
    a transport-level fault (connection error, timeout, DNS failure),
    which [requests] raises as a [RequestException] and the native
    sender as a Python exception. *)
Inductive response : Type :=
| Status (code : Z)
| TransportFault.

Record world : Type := {
  clock : nat -> Z;
  local_utcoffset : Z;
  transport : nat -> response
}.

(** A file of the configuration store: the document its text parses to
    (if it does), and whether it can be written. *)
Record file : Type := {
  f_doc : option json;
  f_writable : bool
}.

Inductive message : Type :=
| MsgKeysLoaded
| MsgKeysMalformed
| MsgNoConfigs
| MsgChecking (path : string)
| MsgReadFailed
| MsgSkipExecuted
| MsgBadTimeFormat
| MsgTzFallback
| MsgTimes (trigger_time current_time : datetime)
| MsgDelay (diff_us : Z)
| MsgPreparing
| MsgAppendKeys
| MsgInjectAll
| MsgAliasReplaced (alias : val)
| MsgSending (attempt : Z)
| MsgSuccess (code : Z)
| MsgRejected (code : Z)
| MsgNetworkError
| MsgWaiting
| MsgSaved
| MsgSaveFailed
| MsgGaveUp
| MsgNotYetDue
| MsgExpired
| MsgSummaryChanged
| MsgSummaryUnchanged.

(** The calls that leave the process, with the arguments as they are
    serialized ([None] for a payload that cannot be). *)
Inductive event : Type :=
| Print (m : message)
| RequestsGet (url : val) (params : option json) (timeout : Z)
| RequestsPost (url : val) (body : option json) (timeout : Z)
| SendRequest (method : string) (url : val) (payload : option json)
    (timeout : Z)
| Sleep (seconds : Z)
| WriteFile (path : string) (doc : json).

Record state : Type := {
  st_heap : heap;
  st_fs : gmap string file;
  st_trace : list event;
  st_ticks : nat;
  st_sent : nat
}.

Definition with_heap (h : heap) (s : state) : state :=
  {| st_heap := h; st_fs := st_fs s; st_trace := st_trace s;
     st_ticks := st_ticks s; st_sent := st_sent s |}.

Definition with_fs (fs : gmap string file) (s : state) : state :=
  {| st_heap := st_heap s; st_fs := fs; st_trace := st_trace s;
     st_ticks := st_ticks s; st_sent := st_sent s |}.

Definition with_trace (t : list event) (s : state) : state :=
  {| st_heap := st_heap s; st_fs := st_fs s; st_trace := t;
     st_ticks := st_ticks s; st_sent := st_sent s |}.

Definition with_ticks (n : nat) (s : state) : state :=
  {| st_heap := st_heap s; st_fs := st_fs s; st_trace := st_trace s;
     st_ticks := n; st_sent := st_sent s |}.

Definition with_sent (n : nat) (s : state) : state :=
  {| st_heap := st_heap s; st_fs := st_fs s; st_trace := st_trace s;
     st_ticks := st_ticks s; st_sent := n |}.

(** ** A state-and-exception monad for the statements of the program *)

Definition M (A : Type) : Type := state -> result A * state.

Definition ret {A} (a : A) : M A := fun s => (Ok a, s).

Definition raise {A} (e : exn) : M A := fun s => (Raise e, s).

Definition bind {A B} (m : M A) (k : A -> M B) : M B :=
  fun s =>
    match m s with
    | (Ok a, s') => k a s'
    | (Raise e, s') => (Raise e, s')
    end.

Declare Scope py_scope.
Delimit Scope py_scope with py.
Notation "x <- m ;; k" := (bind m (fun x => k))
  (at level 100, m at next level, right associativity) : py_scope.
Notation "m ;; k" := (bind m (fun _ => k))
  (at level 100, right associativity) : py_scope.
Local Open Scope py_scope.

(** [try: m  except E: ...] where [catches] tells the classes [E]
    covers: the outcome of [m], or the exception it was left with. *)
Definition try_except {A} (catches : exn -> bool) (m : M A) : M (A + exn) :=
  fun s =>
    match m s with
    | (Ok a, s') => (Ok (inl a), s')
    | (Raise e, s') =>
        if catches e then (Ok (inr e), s') else (Raise e, s')
    end.

Definition any_Exception (e : exn) : bool := true.

Definition only_ValueError (e : exn) : bool :=
  match e with ValueError => true | _ => false end.

Definition lift {A} (r : result A) : M A := fun s => (r, s).

Definition emit (e : event) : M unit :=
  fun s => (Ok tt, with_trace (st_trace s ++ [e]) s).

Definition print (m : message) : M unit := emit (Print m).

Definition read_heap : M heap := fun s => (Ok (st_heap s), s).

Definition new_object (o : obj) : M val :=
  fun s => let '(h, v) := alloc o (st_heap s) in (Ok v, with_heap h s).

(** [v.get(k, dflt)]: only a dict has the method. *)
Definition py_get (v : val) (k : string) (dflt : val) : M val :=
  h <- read_heap ;;
  match v with
  | VRef l =>
      match h !! l with
      | Some (ODict kvs) => ret (default dflt (dict_get k kvs))
      | _ => raise AttributeError
      end
  | _ => raise AttributeError
  end.

Definition py_truthy (v : val) : M bool :=
  h <- read_heap ;; ret (truthy h v).

(** [k in c] for a string [k]: a key of a dict, an element of a list, a
    substring of a string; the other values are not containers. *)
Definition py_contains (k : string) (c : val) : M bool :=
  h <- read_heap ;;
  match c with
  | VStr s => ret (is_substring k s)
  | VRef l =>
      match h !! l with
      | Some (ODict kvs) => ret (bool_decide (is_Some (dict_get k kvs)))
      | Some (OList xs) => ret (existsb (py_eq (VStr k)) xs)
      | None => raise TypeError
      end
  | _ => raise TypeError
  end.

(** [c[k] = v] for a string [k]: only a dict takes it. *)
Definition py_setitem (c : val) (k : string) (v : val) : M unit :=
  fun s =>
    match c with
    | VRef l =>
        match st_heap s !! l with
        | Some (ODict kvs) =>
            (Ok tt, with_heap (<[l := ODict (dict_set k v kvs)]> (st_heap s)) s)
        | _ => (Raise TypeError, s)
        end
    | _ => (Raise TypeError, s)
    end.

(** [c[k]] for a string [k]. *)
Definition py_getitem (c : val) (k : string) : M val :=
  h <- read_heap ;;
  match c with
  | VRef l =>
      match h !! l with
      | Some (ODict kvs) =>
          match dict_get k kvs with
          | Some v => ret v
          | None => raise KeyError
          end
      | _ => raise TypeError
      end
  | _ => raise TypeError
  end.

(** The list behind a value, if it is one ([isinstance(v, list)]). *)
Definition as_list (h : heap) (v : val) : option (list val) :=
  match v with
  | VRef l => match h !! l with Some (OList xs) => Some xs | _ => None end
  | _ => None
  end.

(** The dict behind a value, if it is one ([isinstance(v, dict)]). *)
Definition as_dict (h : heap) (v : val) : option (list (string * val)) :=
  match v with
  | VRef l => match h !! l with Some (ODict kvs) => Some kvs | _ => None end
  | _ => None
  end.

(** [for item in v]: the elements of a list, the characters of a string,
    the keys of a dict. *)
Definition py_iter (v : val) : M (list val) :=
  h <- read_heap ;;
  match v with
  | VStr s => ret (chars s)
  | VRef l =>
      match h !! l with
      | Some (OList xs) => ret xs
      | Some (ODict kvs) => ret (map (fun kv => VStr (fst kv)) kvs)
      | None => raise TypeError
      end
  | _ => raise TypeError
  end.

(** [copy.deepcopy(v)] *)
Definition py_deepcopy (v : val) : M val :=
  fun s =>
    match deepcopy v (st_heap s) with
    | Some (h, v') => (Ok v', with_heap h s)
    | None => (Raise ValueError, s)
    end.

(** ** Time *)

(** One reading of the system clock (UTC microseconds). *)
Definition read_clock (w : world) : M Z :=
  fun s => (Ok (clock w (st_ticks s)), with_ticks (S (st_ticks s)) s).

(** One HTTP exchange: the transport answers the requests of a run in
    the order they are sent. *)
Definition exchange (w : world) : M response :=
  fun s => (Ok (transport w (st_sent s)), with_sent (S (st_sent s)) s).

Section Library.
Context {RT : Runtime}.

(** [datetime.strptime(v, TIME_FORMAT)] *)
Definition datetime_strptime (v : val) : M Z :=
  match v with
  | VStr s =>
      match strptime s with
      | Some wall => ret wall
      | None => raise ValueError
      end
  | _ => raise TypeError
  end.

(** [zoneinfo.ZoneInfo(v)]: [ZoneInfoNotFoundError] is a [KeyError];
    a key that is no normalized relative path is a [ValueError]. *)
Definition ZoneInfo (v : val) : M tzinfo :=
  match v with
  | VStr key =>
      match tzdata key with
      | TzFound z => ret z
      | TzUnknown => raise KeyError
      | TzBadKey => raise ValueError
      end
  | _ => raise TypeError
  end.

(** [pytz.timezone(v)]: [UnknownTimeZoneError] is a [KeyError]. *)
Definition pytz_timezone (v : val) : M tzinfo :=
  match v with
  | VStr key =>
      match tzdata key with
      | TzFound z => ret z
      | _ => raise KeyError
      end
  | VNone => raise KeyError
  | _ => raise AttributeError
  end.

(** [naive.replace(tzinfo=z)] with a [ZoneInfo]: one object per key. *)
Definition replace_tzinfo (wall : Z) (z : tzinfo) : datetime :=
  Aware wall (tz_toutc z wall) (tz_key z, None).

(** [datetime.now(z)] with a [ZoneInfo]. *)
Definition now_zoneinfo (w : world) (z : tzinfo) : M datetime :=
  t <- read_clock w ;;
  ret (Aware (tz_fromutc z t) t (tz_key z, None)).

(** [z.localize(naive)] with pytz: one [tzinfo] object per offset of
    the zone. *)
Definition pytz_localize (z : tzinfo) (wall : Z) : datetime :=
  Aware wall (tz_toutc z wall) (tz_key z, Some (wall - tz_toutc z wall)).

(** [datetime.now(z)] with a pytz zone. *)
Definition now_pytz (w : world) (z : tzinfo) : M datetime :=
  t <- read_clock w ;;
  ret (Aware (tz_fromutc z t) t (tz_key z, Some (tz_fromutc z t - t))).

(** [datetime.now(pytz.utc)] *)
Definition now_utc (w : world) : M datetime :=
  t <- read_clock w ;;
  ret (Aware t t ("UTC", Some 0)).

(** [datetime.now()]: naive, in the local time of the system. *)
Definition now_local (w : world) : M datetime :=
  t <- read_clock w ;;
  ret (Naive (t + local_utcoffset w)).

(** ** Credentials *)

(** The value of the [DEVICE_KEYS] variable: absent, or a text that
    parses as JSON or does not. *)
Inductive env_var : Type :=
| Unset
| Text (parsed : option json).

Definition json_loads (j : json) : M val :=
  fun s => let '(h, v) := build j (st_heap s) in (Ok v, with_heap h s).

Definition load_secret_keys (e : env_var) : M val :=
  match e with
  | Unset =>
      keys <- json_loads (JArr []) ;; print MsgKeysLoaded ;; ret keys
  | Text (Some j) =>
      keys <- json_loads j ;; print MsgKeysLoaded ;; ret keys
  | Text None =>
      print MsgKeysMalformed ;; new_object (OList [])
  end.

(** [list(set(a + b))] for a list [b]: [a] has to be a list too, and
    every element hashable. *)
Definition merged (h : heap) (a : val) (b : list val)
  : result (list val) :=
  match as_list h a with
  | Some xs =>
      if forallb hashable (xs ++ b) then Ok (list_of_set (xs ++ b))
      else Raise TypeError
  | None => Raise TypeError
  end.

(** Strategy A: [payload["device_keys"] =
    list(set(payload["device_keys"] + secret_keys))] *)
Definition append_mode (payload : val) (secret_keys : list val) : M unit :=
  print MsgAppendKeys ;;
  declared <- py_getitem payload "device_keys" ;;
  h <- read_heap ;;
  keys <- lift (merged h declared secret_keys) ;;
  fresh <- new_object (OList keys) ;;
  py_setitem payload "device_keys" fresh.

(** [secret_keys[item]] when [item in secret_keys]: the keys of a
    dict read from JSON are strings. *)
Definition alias_lookup (secret_keys : list (string * val)) (item : val)
  : option val :=
  match item with
  | VStr alias => dict_get alias secret_keys
  | _ => None
  end.

(** The loop [for item in original_list: ...] of strategy B. *)
Fixpoint substitute (secret_keys : list (string * val)) (items : list val)
  (resolved_list : list val) : M (list val) :=
  match items with
  | [] => ret resolved_list
  | item :: rest =>
      if hashable item then
        match alias_lookup secret_keys item with
        | Some key =>
            print (MsgAliasReplaced item) ;;
            substitute secret_keys rest (resolved_list ++ [key])
        | None => substitute secret_keys rest (resolved_list ++ [item])
        end
      else raise TypeError
  end.

(** Strategy B: aliases replaced by the keys they name. *)
Definition alias_mode (payload : val) (secret_keys : list (string * val))
  : M unit :=
  original_list <- py_getitem payload "device_keys" ;;
  nonempty <- py_truthy original_list ;;
  resolved_list <-
    (if negb nonempty && negb (bool_decide (secret_keys = [])) then
       print MsgInjectAll ;; ret (dict_values secret_keys)
     else
       items <- py_iter original_list ;;
       substitute secret_keys items []) ;;
  fresh <- new_object (OList resolved_list) ;;
  py_setitem payload "device_keys" fresh.

(** main.py, lines 113 to 135. *)
Definition inject_keys_script (payload secret_keys : val) : M unit :=
  h <- read_heap ;;
  match as_list h secret_keys with
  | Some keys =>
      match keys with
      | [] => ret tt
      | _ :: _ => append_mode payload keys
      end
  | None =>
      match as_dict h secret_keys with
      | Some aliases => alias_mode payload aliases
      | None => ret tt
      end
  end.

(** __init__.py, lines 89 to 106. *)
Definition inject_keys_package (payload secret_keys : val) : M unit :=
  h <- read_heap ;;
  match as_list h secret_keys with
  | Some ((_ :: _) as keys) => append_mode payload keys
  | _ =>
      match as_dict h secret_keys with
      | Some aliases => alias_mode payload aliases
      | None => ret tt
      end
  end.

(** [payload = copy.deepcopy(data.get("body", {}))] and
    [if "device_keys" not in payload: payload["device_keys"] = []] *)
Definition build_payload (data : val) : M val :=
  empty <- new_object (ODict []) ;;
  body <- py_get data "body" empty ;;
  payload <- py_deepcopy body ;;
  present <- py_contains "device_keys" payload ;;
  (if present then ret tt
   else
     fresh <- new_object (OList []) ;;
     py_setitem payload "device_keys" fresh) ;;
  ret payload.
End Library.

(** ** Files *)

(** [json.load] of a configuration file ([task_io.read_config] in the
    package): raises when the file is missing or its text is no JSON. *)
Definition json_load (path : string) : M val :=
  fun s =>
    match st_fs s !! path with
    | Some f =>
        match f_doc f with
        | Some j =>
            let '(h, v) := build j (st_heap s) in (Ok v, with_heap h s)
        | None => (Raise ValueError, s)
        end
    | None => (Raise OSError, s)
    end.

(** [json.dump(data, open(path, 'w'))] ([task_io.save_config] in the
    package): raises when the file cannot be written. *)
Definition json_dump (path : string) (data : val) : M unit :=
  fun s =>
    if bool_decide (f_writable <$> st_fs s !! path = Some false) then
      (Raise OSError, s)
    else
      match dumps (st_heap s) data with
      | Some j =>
          (Ok tt,
           with_trace (st_trace s ++ [WriteFile path j])
             (with_fs (<[path := {| f_doc := Some j; f_writable := true |}]>
                         (st_fs s)) s))
      | None => (Raise ValueError, s)
      end.

(** ** Delivery *)

(** [x is True] *)
Definition is_True (v : val) : bool :=
  match v with VBool true => true | _ => false end.

(** [v.upper()]: a method of strings. *)
Definition py_upper (v : val) : M string :=
  match v with
  | VStr s => ret (upper s)
  | _ => raise AttributeError
  end.

(** [range(a, b)] *)
Definition py_range (a b : Z) : list Z := seqZ a (b - a).

(** [200 <= status_code < 300] *)
Definition is_success (code : Z) : bool := (200 <=? code) && (code <? 300).

(** The retry loop [for attempt in range(1, MAX_RETRIES + 1)], from
    [attempt] on; the result is the flag [success].  [send] is the call
    the variant makes, [on_wait] what it prints before sleeping. *)
Fixpoint attempts_loop (send : M response) (on_wait : M unit)
  (attempts : list Z) : M bool :=
  match attempts with
  | [] => ret false
  | attempt :: rest =>
      print (MsgSending attempt) ;;
      r <- send ;;
      match r with
      | Status code =>
          if is_success code then
            print (MsgSuccess code) ;; ret true
          else
            print (MsgRejected code) ;;
            (if attempt <? MAX_RETRIES then
               on_wait ;; emit (Sleep RETRY_DELAY)
             else ret tt) ;;
            attempts_loop send on_wait rest
      | TransportFault =>
          print MsgNetworkError ;;
          (if attempt <? MAX_RETRIES then
             on_wait ;; emit (Sleep RETRY_DELAY)
           else ret tt) ;;
          attempts_loop send on_wait rest
      end
  end.

Definition Qlt_bool (a b : Q) : bool := negb (Qle_bool b a).

(** The [else] branch of the window test. *)
Definition report_outside (m : Q) : M unit :=
  if Qlt_bool m (inject_Z 0) then print MsgNotYetDue else print MsgExpired.

(** ** main.py *)
Module Script.
Section Script.
Context {RT : Runtime} (w : world).

Definition get_current_time (tz_name : val) : M datetime :=
  r <- try_except any_Exception
         (z <- ZoneInfo tz_name ;; now_zoneinfo w z) ;;
  match r with
  | inl now => ret now
  | inr _ => now_local w
  end.

(** [requests.get(url, params=payload, timeout=20)] for GET,
    [requests.post(url, json=payload, timeout=20)] otherwise. *)
Definition send (method : string) (url payload : val) : M response :=
  h <- read_heap ;;
  (if String.eqb method "GET" then
     emit (RequestsGet url (dumps h payload) REQUEST_TIMEOUT)
   else
     emit (RequestsPost url (dumps h payload) REQUEST_TIMEOUT)) ;;
  exchange w.

(** Lines 101 to 135: the request to make. *)
Definition prepare (secret_keys data : val) : M (string * val * val) :=
  url <- py_get data "webhook_url" VNone ;;
  method <- (m <- py_get data "method" (VStr "POST") ;; py_upper m) ;;
  payload <- build_payload data ;;
  inject_keys_script payload secret_keys ;;
  ret (method, url, payload).

(** Lines 138 to 162: the retry loop; the result is [success]. *)
Definition deliver (method : string) (url payload : val) : M bool :=
  attempts_loop (send method url payload) (print MsgWaiting)
    (py_range 1 (MAX_RETRIES + 1)).

(** Lines 165 to 176: the record is stamped and written back. *)
Definition complete (data : val) (current_time : datetime)
  (config_file : string) (files_changed success : bool) : M bool :=
  if success then
    py_setitem data "executed" (VBool true) ;;
    py_setitem data "executed_at"
      (VStr (strftime (dt_wall current_time))) ;;
    json_dump config_file data ;;
    print MsgSaved ;;
    ret true
  else
    print MsgGaveUp ;; ret files_changed.

(** The block under [if 0 <= diff_minutes <= TOLERANCE_MINUTES]. *)
Definition dispatch (secret_keys data : val) (current_time : datetime)
  (config_file : string) (files_changed : bool) : M bool :=
  print MsgPreparing ;;
  req <- prepare secret_keys data ;;
  let '(method, url, payload) := req in
  success <- deliver method url payload ;;
  complete data current_time config_file files_changed success.

(** Lines 79 to 85: both times, or the [ValueError] that was caught. *)
Definition read_times (trigger_time_str tz_name : val)
  : M (datetime * datetime + exn) :=
  try_except only_ValueError
    (naive <- datetime_strptime trigger_time_str ;;
     z <- ZoneInfo tz_name ;;
     current_time <- get_current_time tz_name ;;
     ret (replace_tzinfo naive z, current_time)).

(** Lines 67 to 182: what is done with a record that was read;
    [continue] is the return of the flag [files_changed] as it
    stands. *)
Definition evaluate (secret_keys : val) (files_changed : bool)
  (config_file : string) (data : val) : M bool :=
  executed <- py_get data "executed" VNone ;;
  if is_True executed then
    print MsgSkipExecuted ;; ret files_changed
  else
  trigger_time_str <- py_get data "trigger_time" VNone ;;
  tz_name <- py_get data "timezone" (VStr DEFAULT_TIMEZONE) ;;
  given <- py_truthy trigger_time_str ;;
  if negb given then ret files_changed
  else
  times <- read_times trigger_time_str tz_name ;;
  match times with
  | inr _ => print MsgBadTimeFormat ;; ret files_changed
  | inl (trigger_time, current_time) =>
  diff <- lift (dt_sub current_time trigger_time) ;;
  print (MsgTimes trigger_time current_time) ;;
  print (MsgDelay diff) ;;
  if in_window (diff_minutes diff) then
    dispatch secret_keys data current_time config_file files_changed
  else
    report_outside (diff_minutes diff) ;; ret files_changed
  end.

(** The body of [for config_file in config_files]. *)
Definition process_file (secret_keys : val) (files_changed : bool)
  (config_file : string) : M bool :=
  print (MsgChecking config_file) ;;
  loaded <- try_except any_Exception (json_load config_file) ;;
  match loaded with
  | inr _ => print MsgReadFailed ;; ret files_changed
  | inl data => evaluate secret_keys files_changed config_file data
  end.

Fixpoint for_each (secret_keys : val) (files_changed : bool)
  (config_files : list string) : M bool :=
  match config_files with
  | [] => ret files_changed
  | config_file :: rest =>
      changed <- process_file secret_keys files_changed config_file ;;
      for_each secret_keys changed rest
  end.

(** [config_files] is the sorted listing of [configs/*.json]. *)
Definition process_tasks (keys : env_var) (config_files : list string)
  : M unit :=
  secret_keys <- load_secret_keys keys ;;
  match config_files with
  | [] => print MsgNoConfigs
  | _ :: _ =>
      files_changed <- for_each secret_keys false config_files ;;
      if files_changed then print MsgSummaryChanged
      else print MsgSummaryUnchanged
  end.
End Script.
End Script.

(** ** python/time_trigger_task/__init__.py *)
Module Package.
Section Package.
Context {RT : Runtime} (w : world).

Definition get_current_time (tz_name : val) : M datetime :=
  r <- try_except any_Exception
         (tz <- pytz_timezone tz_name ;; now_pytz w tz) ;;
  match r with
  | inl now => ret now
  | inr _ => print MsgTzFallback ;; now_utc w
  end.

(** [task_io.send_request(method, url, payload, 20)]: the native
    sender gets the verb as it is. *)
Definition send (method : string) (url payload : val) : M response :=
  h <- read_heap ;;
  emit (SendRequest method url (dumps h payload) REQUEST_TIMEOUT) ;;
  exchange w.

(** Lines 81 to 106: the request to make. *)
Definition prepare (secret_keys data : val) : M (string * val * val) :=
  url <- py_get data "webhook_url" VNone ;;
  method <- (m <- py_get data "method" (VStr "POST") ;; py_upper m) ;;
  payload <- build_payload data ;;
  inject_keys_package payload secret_keys ;;
  ret (method, url, payload).

(** Lines 109 to 139: the retry loop; the result is [success]. *)
Definition deliver (method : string) (url payload : val) : M bool :=
  attempts_loop (send method url payload) (ret tt)
    (py_range 1 (MAX_RETRIES + 1)).

(** Lines 141 to 152: the record is stamped and written back; a
    failure to save is caught. *)
Definition complete (data : val) (current_time : datetime)
  (config_file : string) (files_changed success : bool) : M bool :=
  if success then
    py_setitem data "executed" (VBool true) ;;
    py_setitem data "executed_at"
      (VStr (strftime (dt_wall current_time))) ;;
    saved <- try_except any_Exception (json_dump config_file data) ;;
    match saved with
    | inl _ => print MsgSaved ;; ret true
    | inr _ => print MsgSaveFailed ;; ret files_changed
    end
  else
    print MsgGaveUp ;; ret files_changed.

(** The block under [if 0 <= diff_minutes <= TOLERANCE_MINUTES]. *)
Definition dispatch (secret_keys data : val) (current_time : datetime)
  (config_file : string) (files_changed : bool) : M bool :=
  print MsgPreparing ;;
  req <- prepare secret_keys data ;;
  let '(method, url, payload) := req in
  success <- deliver method url payload ;;
  complete data current_time config_file files_changed success.

(** Lines 64 to 72: both times, or the [ValueError] that was caught. *)
Definition read_times (trigger_time_str tz_name : val)
  : M (datetime * datetime + exn) :=
  try_except only_ValueError
    (target_tz <- pytz_timezone tz_name ;;
     naive_trigger_time <- datetime_strptime trigger_time_str ;;
     current_time <- get_current_time tz_name ;;
     ret (pytz_localize target_tz naive_trigger_time, current_time)).

(** Lines 56 to 157: what is done with a record that was read;
    [continue] is the return of the flag [files_changed] as it
    stands. *)
Definition evaluate (secret_keys : val) (files_changed : bool)
  (config_file : string) (data : val) : M bool :=
  executed <- py_get data "executed" VNone ;;
  if is_True executed then
    print MsgSkipExecuted ;; ret files_changed
  else
  trigger_time_str <- py_get data "trigger_time" VNone ;;
  tz_name <- py_get data "timezone" (VStr DEFAULT_TIMEZONE) ;;
  given <- py_truthy trigger_time_str ;;
  if negb given then ret files_changed
  else
  times <- read_times trigger_time_str tz_name ;;
  match times with
  | inr _ => print MsgBadTimeFormat ;; ret files_changed
  | inl (trigger_time, current_time) =>
  diff <- lift (dt_sub current_time trigger_time) ;;
  print (MsgTimes trigger_time current_time) ;;
  print (MsgDelay diff) ;;
  if in_window (diff_minutes diff) then
    dispatch secret_keys data current_time config_file files_changed
  else
    report_outside (diff_minutes diff) ;; ret files_changed
  end.

(** The body of [for config_file in config_files]. *)
Definition process_file (secret_keys : val) (files_changed : bool)
  (config_file : string) : M bool :=
  print (MsgChecking config_file) ;;
  loaded <- try_except any_Exception (json_load config_file) ;;
  match loaded with
  | inr _ => print MsgReadFailed ;; ret files_changed
  | inl data => evaluate secret_keys files_changed config_file data
  end.

Fixpoint for_each (secret_keys : val) (files_changed : bool)
  (config_files : list string) : M bool :=
  match config_files with
  | [] => ret files_changed
  | config_file :: rest =>
      changed <- process_file secret_keys files_changed config_file ;;
      for_each secret_keys changed rest
  end.

(** [config_files] is what [task_io.list_configs(CONFIG_DIR)] returns. *)
Definition process_tasks (keys : env_var) (config_files : list string)
  : M unit :=
  secret_keys <- load_secret_keys keys ;;
  match config_files with
  | [] => print MsgNoConfigs
  | _ :: _ =>
      files_changed <- for_each secret_keys false config_files ;;
      if files_changed then print MsgSummaryChanged
      else print MsgSummaryUnchanged
  end.
End Package.
End Package.

(** A run from a configuration store: empty heap, empty trace. *)
Definition initial (fs : gmap string file) : state :=
  {| st_heap := []; st_fs := fs; st_trace := []; st_ticks := O;
     st_sent := O |}.

(** ** A concrete runtime

    An instance of [Runtime] to run the program on: the strict
    zero-padded reading of [TIME_FORMAT] over the proleptic Gregorian
    calendar, a zone table with [UTC] and [Asia/Shanghai], and the set
    order "first occurrence first". *)
Module Demo.

Definition digit (c : ascii) : option Z :=
  let n := nat_of_ascii c in
  if (48 <=? n)%nat && (n <=? 57)%nat then Some (Z.of_nat n - 48) else None.

Fixpoint number (acc : Z) (cs : list ascii) : option Z :=
  match cs with
  | [] => Some acc
  | c :: r =>
      match digit c with
      | Some d => number (10 * acc + d) r
      | None => None
      end
  end.

Definition is_leap (y : Z) : bool :=
  ((y mod 4 =? 0) && negb (y mod 100 =? 0)) || (y mod 400 =? 0).

Definition days_in_month (y m : Z) : Z :=
  if m =? 2 then (if is_leap y then 29 else 28)
  else if (m =? 4) || (m =? 6) || (m =? 9) || (m =? 11) then 30
  else 31.

(** Days from 1970-01-01 to the given civil date. *)
Definition days_from_civil (y m d : Z) : Z :=
  let y' := if m <=? 2 then y - 1 else y in
  let era := y' / 400 in
  let yoe := y' - era * 400 in
  let mp := if m <=? 2 then m + 9 else m - 3 in
  let doy := (153 * mp + 2) / 5 + d - 1 in
  let doe := yoe * 365 + yoe / 4 - yoe / 100 + doy in
  era * 146097 + doe - 719468.

Definition civil_from_days (z : Z) : Z * Z * Z :=
  let z := z + 719468 in
  let era := z / 146097 in
  let doe := z - era * 146097 in
  let yoe := (doe - doe / 1460 + doe / 36524 - doe / 146096) / 365 in
  let doy := doe - (365 * yoe + yoe / 4 - yoe / 100) in
  let mp := (5 * doy + 2) / 153 in
  let d := doy - (153 * mp + 2) / 5 + 1 in
  let m := if mp <? 10 then mp + 3 else mp - 9 in
  let y := yoe + era * 400 + (if m <=? 2 then 1 else 0) in
  (y, m, d).

Definition us_per_second : Z := 1000000.

Definition field (s : string) (start len : nat) : option Z :=
  number 0 (list_ascii_of_string (String.substring start len s)).

Definition separators_ok (s : string) : bool :=
  String.eqb (String.substring 4 1 s) "-" &&
  String.eqb (String.substring 7 1 s) "-" &&
  String.eqb (String.substring 10 1 s) " " &&
  String.eqb (String.substring 13 1 s) ":" &&
  String.eqb (String.substring 16 1 s) ":".

Definition strptime (s : string) : option Z :=
  if negb ((String.length s =? 19)%nat && separators_ok s) then None
  else
    match field s 0 4, field s 5 2, field s 8 2,
          field s 11 2, field s 14 2, field s 17 2 with
    | Some y, Some m, Some d, Some hh, Some mm, Some ss =>
        if (1 <=? y) && (1 <=? m) && (m <=? 12) && (1 <=? d)
           && (d <=? days_in_month y m)
           && (hh <? 24) && (mm <? 60) && (ss <? 60)
        then
          Some ((days_from_civil y m d * 86400 + hh * 3600 + mm * 60 + ss)
                * us_per_second)
        else None
    | _, _, _, _, _, _ => None
    end.

Definition digit_char (d : Z) : ascii := ascii_of_nat (Z.to_nat (48 + d)).

Fixpoint digits (width : nat) (n : Z) (acc : string) : string :=
  match width with
  | O => acc
  | S k => digits k (n / 10) (String (digit_char (n mod 10)) acc)
  end.

Definition strftime (wall : Z) : string :=
  let secs := wall / us_per_second in
  let days := secs / 86400 in
  let rest := secs mod 86400 in
  let '(y, m, d) := civil_from_days days in
  digits 4 y
    (String.append "-" (digits 2 m
       (String.append "-" (digits 2 d
          (String.append " " (digits 2 (rest / 3600)
             (String.append ":" (digits 2 (rest mod 3600 / 60)
                (String.append ":" (digits 2 (rest mod 60) "")))))))))).

Definition fixed_offset (key : string) (hours : Z) : tzinfo :=
  let off := hours * 3600 * us_per_second in
  {| tz_key := key;
     tz_fromutc := fun t => t + off;
     tz_toutc := fun wall => wall - off |}.

Definition tzdata (key : string) : tz_answer :=
  if String.eqb key "UTC" then TzFound (fixed_offset "UTC" 0)
  else if String.eqb key "Asia/Shanghai" then
    TzFound (fixed_offset "Asia/Shanghai" 8)
  else if String.prefix "/" key then TzBadKey
  else TzUnknown.

(** The elements in the order of their first occurrence. *)
Fixpoint list_of_set (l : list val) : list val :=
  match l with
  | [] => []
  | x :: r => x :: filter (fun y => py_eq x y = false) (list_of_set r)
  end.

End Demo.

(** ** The vocabulary of the statements *)

(** The number of lists and dicts of a document: what [build] allocates. *)
Fixpoint containers (j : json) : nat :=
  match j with
  | JArr xs =>
      S ((fix sum (xs : list json) : nat :=
            match xs with
            | [] => O
            | x :: r => (containers x + sum r)%nat
            end) xs)
  | JObj kvs =>
      S ((fix sum (kvs : list (string * json)) : nat :=
            match kvs with
            | [] => O
            | kv :: r => (containers (snd kv) + sum r)%nat
            end) kvs)
  | _ => O
  end.

Fixpoint containers_list (xs : list json) : nat :=
  match xs with
  | [] => O
  | x :: r => (containers x + containers_list r)%nat
  end.

(** [h'] keeps every object of [h] where it is. *)
Definition extends (h h' : heap) : Prop :=
  forall l o, h !! l = Some o -> h' !! l = Some o.

(** A value is fresh above [k] when it is a scalar or lives at [k] or
    beyond. *)
Definition fresh (k : nat) (v : val) : Prop :=
  match v with
  | VRef l => (k <= l)%nat
  | _ => True
  end.

(** What [build] does for a document: it appends as many objects as the
    document has containers, and the value it returns reads back as the
    document. *)
Definition built (j : json) : Prop :=
  forall h, exists ext,
    fst (build j h) = h ++ ext /\ length ext = containers j /\
    dump (containers j) (h ++ ext) (snd (build j h)) = Some j /\
    fresh (length h) (snd (build j h)).

(** From [s] to [s']: the files are the same, the heap has not shrunk
    and its objects below [k] are the same. *)
Definition frame (k : nat) (s s' : state) : Prop :=
  st_fs s' = st_fs s /\
  (length (st_heap s) <= length (st_heap s'))%nat /\
  forall l, (l < k)%nat -> st_heap s' !! l = st_heap s !! l.

(** [m] keeps the frame below [k], and what it returns satisfies [Q]. *)
Definition safe {A} (k : nat) (m : M A) (Q : A -> Prop) : Prop :=
  forall s, (k <= length (st_heap s))%nat ->
    frame k s (snd (m s)) /\ forall a, fst (m s) = Ok a -> Q a.

Definition any {A} (a : A) : Prop := True.

Definition fresh_request (k : nat) (req : string * val * val) : Prop :=
  fresh k (snd req).

(** The dict at [d] holds the members [vkvs], which read as [kvs] on the
    part of the heap below [d]. *)
Definition record_at (h : heap) (d : nat) (vkvs : list (string * val))
  (kvs : list (string * json)) : Prop :=
  h !! d = Some (ODict vkvs) /\
  dump_list (dump_member (dump d (take d h))) vkvs = Some kvs.

(** The document that is written back: the two stamps set, the rest as
    it was read. *)
Definition stamped (t : string) (kvs : list (string * json)) : json :=
  JObj (dict_set "executed_at" (JStr t)
          (dict_set "executed" (JBool true) kvs)).

Definition saved (t : string) (kvs : list (string * json)) : file :=
  {| f_doc := Some (stamped t kvs); f_writable := true |}.

Definition scalar_json (v : val) : option json :=
  match v with
  | VNone => Some JNull
  | VBool b => Some (JBool b)
  | VInt n => Some (JInt n)
  | VStr s => Some (JStr s)
  | VRef _ => None
  end.

(** Run with the record of the task at [d], [m] leaves the files as they
    are or writes the stamped record to [path]. *)
Definition writes_only {A} (path : string) (d : nat)
  (vkvs : list (string * val)) (kvs : list (string * json)) (m : M A)
  : Prop :=
  forall s, record_at (st_heap s) d vkvs kvs ->
    st_fs (snd (m s)) = st_fs s \/
    exists t, st_fs (snd (m s)) = <[path := saved t kvs]> (st_fs s).

(** All a task does to the files: nothing, or its own record written
    back stamped; and a record that reads [executed: true] is not
    written. *)
Definition file_effect (path : string) (s s' : state) : Prop :=
  st_fs s' = st_fs s \/
  exists kvs wr t,
    st_fs s !! path = Some {| f_doc := Some (JObj kvs); f_writable := wr |} /\
    dict_get "executed" kvs <> Some (JBool true) /\
    st_fs s' = <[path := saved t kvs]> (st_fs s).

(** The zone a record names: the [timezone] member when it is a string,
    the default when there is none. *)
Definition timezone_of (kvs : list (string * json)) : option string :=
  match dict_get "timezone" kvs with
  | None => Some DEFAULT_TIMEZONE
  | Some (JStr name) => Some name
  | Some _ => None
  end.


(** The state in which the window test is made: the record has been
    read to the heap [h], the clock has been read once, and the lines
    that name the file, both times and the delay have been printed. *)
Definition timed (path : string) (h : heap)
  (trigger_time current_time : datetime) (diff : Z) (s : state) : state :=
  with_trace
    (st_trace s ++
     [Print (MsgChecking path); Print (MsgTimes trigger_time current_time);
      Print (MsgDelay diff)])
    (with_ticks (S (st_ticks s)) (with_heap h s)).

(** The current time of the script and of the package in the zone [z]
    at the instant [now]. *)
Definition now_script (z : tzinfo) (now : Z) : datetime :=
  Aware (tz_fromutc z now) now (tz_key z, None).

Definition now_package (z : tzinfo) (now : Z) : datetime :=
  Aware (tz_fromutc z now) now (tz_key z, Some (tz_fromutc z now - now)).

(** The calls that leave the process: everything but the printed lines. *)
Definition wire (t : list event) : list event :=
  List.filter (fun e => match e with Print _ => false | _ => true end) t.

(** The attempt numbers announced, in order. *)
Definition attempts (t : list event) : list Z :=
  omap (fun e => match e with Print (MsgSending n) => Some n | _ => None end) t.

(** An exchange that counts as a success. *)
Definition succeeded (r : response) : bool :=
  match r with
  | Status code => is_success code
  | TransportFault => false
  end.

(** The delivery of section 4.3 in the words of the specification, for
    the three exchanges a delivery can come to: whether it is
    [Delivered], what goes over the wire ([req] being the request of
    one attempt) and the attempts made. *)
Definition delivery_spec (req : event) (r1 r2 r3 : response)
  : bool * list event * list Z :=
  if succeeded r1 then (true, [req], [1])
  else if succeeded r2 then (true, [req; Sleep 2; req], [1; 2])
  else (succeeded r3, [req; Sleep 2; req; Sleep 2; req], [1; 2; 3]).

(** What [deliver] adds to the trace of [s] on the way to [s']. *)
Definition added (s s' : state) : list event :=
  drop (length (st_trace s)) (st_trace s').

(** The request of one attempt in the script: a GET with the payload
    as query parameters for the verb GET, a POST with the payload as
    JSON body for every other verb. *)
Definition script_request (method : string) (url : val)
  (payload : option json) : event :=
  if String.eqb method "GET" then RequestsGet url payload REQUEST_TIMEOUT
  else RequestsPost url payload REQUEST_TIMEOUT.

(** The request of one attempt in the package: the call of the native
    sender. *)
Definition package_request (method : string) (url : val)
  (payload : option json) : event :=
  SendRequest method url payload REQUEST_TIMEOUT.

(** The state after one exchange whose request is [req]. *)
Definition exchanged (req : event) (s : state) : state :=
  with_sent (S (st_sent s)) (with_trace (st_trace s ++ [req]) s).

Definition logged (t : list event) (s : state) : state :=
  with_trace (st_trace s ++ t) s.

(** The state after the pause that follows a failed attempt, [note]
    being what the variant prints before it sleeps. *)
Definition paused (note : list event) (attempt : Z) (s : state) : state :=
  if attempt <? MAX_RETRIES then logged (note ++ [Sleep RETRY_DELAY]) s
  else s.

(** [payload["device_keys"]] when the payload is a dict and the member
    a list. *)
Definition device_keys (h : heap) (payload : val) : option (list val) :=
  match as_dict h payload with
  | Some members =>
      match dict_get "device_keys" members with
      | Some v => as_list h v
      | None => None
      end
  | None => None
  end.

(** What strategy B makes of one declared item. *)
Definition aliased (secret_keys : list (string * val)) (item : val) : val :=
  default item (alias_lookup secret_keys item).

(** The lines strategy B prints for a declared list. *)
Fixpoint alias_log (secret_keys : list (string * val)) (items : list val)
  : list event :=
  match items with
  | [] => []
  | item :: rest =>
      match alias_lookup secret_keys item with
      | Some _ => Print (MsgAliasReplaced item) :: alias_log secret_keys rest
      | None => alias_log secret_keys rest
      end
  end.

(** The payload after [payload["device_keys"] = keys]: the list is a new
    object, the dict of the payload names it. *)
Definition keys_set (p : nat) (members : list (string * val))
  (keys : list val) (h : heap) : heap :=
  <[p := ODict (dict_set "device_keys" (VRef (length h)) members)]>
    (h ++ [OList keys]).

(** The list strategy B assigns. *)
Definition alias_result (aliases : list (string * val)) (keys0 : list val)
  : list val :=
  match keys0, aliases with
  | [], _ :: _ => dict_values aliases
  | _, _ => map (aliased aliases) keys0
  end.

Definition alias_trace (aliases : list (string * val)) (keys0 : list val)
  : list event :=
  match keys0, aliases with
  | [], _ :: _ => [Print MsgInjectAll]
  | _, _ => alias_log aliases keys0
  end.

(** A map from aliases to credential strings, as the dict it is read to. *)
Definition alias_map (m : list (string * string)) : list (string * val) :=
  map (fun kv => (fst kv, VStr (snd kv))) m.

(** What a delivery comes to, measured against [delivery_spec]. *)
Definition delivers (w : world) (deliver : M bool) (req : event) (s : state)
  : Prop :=
  let r k := transport w (st_sent s + k)%nat in
  let spec := delivery_spec req (r 0%nat) (r 1%nat) (r 2%nat) in
  exists s',
    deliver s = (Ok (fst (fst spec)), s') /\
    st_heap s' = st_heap s /\ st_fs s' = st_fs s /\
    st_ticks s' = st_ticks s /\
    wire (added s s') = snd (fst spec) /\
    attempts (added s s') = snd spec /\
    st_sent s' = (st_sent s + length (snd spec))%nat /\
    st_trace s' = st_trace s ++ added s s'.

(** The verb a record configures: the [method] member when it is a
    string, POST when there is none. *)
Definition method_of (kvs : list (string * json)) : option string :=
  match dict_get "method" kvs with
  | None => Some "POST"
  | Some (JStr m) => Some m
  | Some _ => None
  end.







(** From [s] to [s'] only the heap has changed and [log] was added to
    the trace. *)
Definition steps (s s' : state) (log : list event) : Prop :=
  st_trace s' = st_trace s ++ log /\ st_fs s' = st_fs s /\
  st_sent s' = st_sent s /\ st_ticks s' = st_ticks s.



(** What the dispatch of a record comes to when it is started in [s0]
    with the trace of [s] as the base line: the delivery of [req] as
    [delivery_spec] has it, and then, when it was delivered, the one
    write of the record with both stamps if the file can be written;
    [on_failed_save] is what the variant returns when it cannot. *)
Definition dispatches (w : world) (run : M bool) (req : event)
  (on_failed_save : result bool) (fc wr : bool) (path stamp : string)
  (kvs : list (string * json)) (s0 s : state) : Prop :=
  let r k := transport w (st_sent s + k)%nat in
  let spec := delivery_spec req (r 0%nat) (r 1%nat) (r 2%nat) in
  let delivered := fst (fst spec) in
  let written := delivered && wr in
  exists s',
    run s0 =
      (if delivered then if wr then Ok true else on_failed_save else Ok fc,
       s') /\
    wire (added s s') =
      snd (fst spec) ++
      (if written then [WriteFile path (stamped stamp kvs)] else []) /\
    attempts (added s s') = snd spec /\
    st_fs s' =
      (if written then <[path := saved stamp kvs]> (st_fs s) else st_fs s) /\
    st_sent s' = (st_sent s + length (snd spec))%nat.

(** ** Concrete runs *)
Module Scenario.

(** 2024-05-01 12:00:00 UTC, in microseconds. *)
Definition noon : Z := 1714564800000000.

Definition minutes (n : Z) : Z := n * 60 * 1000000.

(** A task due at noon in the zone [tz], to be sent with [method]. *)
Definition task_members (tz method : string) : list (string * json) :=
  [("trigger_time", JStr "2024-05-01 12:00:00");
   ("timezone", JStr tz);
   ("webhook_url", JStr "https://example.org/hook");
   ("method", JStr method);
   ("body", JObj [("title", JStr "wake up");
                  ("device_keys", JArr [JStr "iphone"])])].

Definition task (tz method : string) : json := JObj (task_members tz method).

Definition on_disk (doc : json) (writable : bool) : file :=
  {| f_doc := Some doc; f_writable := writable |}.

(** Ten minutes past noon, every request answered with [status]. *)
Definition ten_past (status : Z) : world :=
  {| clock := fun _ => noon + minutes 10;
     local_utcoffset := 0;
     transport := fun _ => Status status |}.

Definition a_json : string := "configs/a.json".
Definition b_json : string := "configs/b.json".

(** Two tasks, the first in a zone that does not exist. *)
Definition unknown_zone_store : gmap string file :=
  {[ a_json := on_disk (task "Mars/Olympus" "POST") true;
     b_json := on_disk (task "UTC" "POST") true ]}.

(** Two tasks, the first in a file that cannot be written. *)
Definition read_only_store : gmap string file :=
  {[ a_json := on_disk (task "UTC" "POST") false;
     b_json := on_disk (task "UTC" "POST") true ]}.

(** One task configured with the verb PUT. *)
Definition put_store : gmap string file :=
  {[ a_json := on_disk (task "UTC" "PUT") true ]}.

(** One task already executed, with nonsense for its times. *)
Definition done_members : list (string * json) :=
  [("trigger_time", JStr "tomorrow-ish"); ("timezone", JInt 7);
   ("executed", JBool true)].

Definition done_store : gmap string file :=
  {[ a_json := on_disk (JObj done_members) true ]}.

Definition one_key : env_var := Text (Some (JArr [JStr "K1"])).

(** A payload declaring the alias "a", and a map in which the value of
    one alias is another alias. *)
Definition chain_heap : list obj :=
  [OList [VStr "a"];
   ODict [("device_keys", VRef 0%nat)];
   ODict [("a", VStr "b"); ("b", VStr "c")]].

Definition on_heap (h : list obj) : state :=
  {| st_heap := h; st_fs := ∅; st_trace := []; st_ticks := O;
     st_sent := O |}.

(** A payload declaring "iphone" and "raw", with a key list and with
    an alias map. *)
Definition keys_heap : list obj :=
  [OList [VStr "iphone"; VStr "raw"];
   ODict [("title", VStr "wake up"); ("device_keys", VRef 0%nat)];
   OList [VStr "K1"; VStr "raw"];
   ODict [("iphone", VStr "K1"); ("ipad", VStr "K2")]].

End Scenario.


Definition is_request (e : event) : bool :=
  match e with
  | RequestsGet _ _ _ | RequestsPost _ _ _ | SendRequest _ _ _ _ => true
  | _ => false
  end.

(** The HTTP calls of a trace. *)
Definition requests (t : list event) : list event := List.filter is_request t.

Definition is_write (e : event) : bool :=
  match e with WriteFile _ _ => true | _ => false end.

(** The files a trace writes. *)
Definition writes (t : list event) : list event := List.filter is_write t.

(** The files a trace announces, in order. *)
Definition checked (t : list event) : list string :=
  omap (fun e => match e with Print (MsgChecking p) => Some p | _ => None end)
    t.

(** What one event does to the files. *)
Definition apply_write (fs : gmap string file) (e : event)
  : gmap string file :=
  match e with
  | WriteFile path doc =>
      <[path := {| f_doc := Some doc; f_writable := true |}]> fs
  | _ => fs
  end.

(** The files after the writes of a trace. *)
Definition replay (fs : gmap string file) (t : list event)
  : gmap string file :=
  foldl apply_write fs t.

(** The lines a task prints while nothing leaves the process: every
    line but the announcement of a file and of an attempt. *)
Definition chatter (e : event) : bool :=
  match e with
  | Print (MsgChecking _) | Print (MsgSending _) => false
  | Print _ => true
  | _ => false
  end.

(** Everything but the announcement of a file. *)
Definition unchecked (e : event) : bool :=
  match e with Print (MsgChecking _) => false | _ => true end.

(** [m] adds events that satisfy [P] to the trace, and the trace it
    adds accounts for what it does: one more exchange for every request
    in it, and the files as its writes leave them. *)
Definition traced {A} (P : event -> bool) (m : M A) : Prop :=
  forall s, exists log,
    st_trace (snd (m s)) = st_trace s ++ log /\
    forallb P log = true /\
    st_sent (snd (m s)) = (st_sent s + length (requests log))%nat /\
    st_fs (snd (m s)) = replay (st_fs s) log.

(** From [s] to [s'] lines were printed, none of them the announcement
    of an attempt, and nothing else was done to the world. *)
Definition idle (s s' : state) : Prop :=
  exists log,
    st_trace s' = st_trace s ++ log /\ wire log = [] /\ attempts log = [] /\
    st_sent s' = st_sent s /\ st_fs s' = st_fs s.

(** The outcome [out] of a run over [listing] from [s]: the trace has
    grown; the files it announces are a first part of the listing, in
    order, and all of it when the run returns; every exchange made shows
    as a request in the trace; and the files are the files of [s] with
    the writes of the trace applied. *)
Definition accounted {A} (listing : list string) (s : state)
  (out : result A * state) : Prop :=
  let log := added s (snd out) in
  st_trace (snd out) = st_trace s ++ log /\
  checked log `prefix_of` listing /\
  ((exists a, fst out = Ok a) -> checked log = listing) /\
  st_sent (snd out) = (st_sent s + length (requests log))%nat /\
  st_fs (snd out) = replay (st_fs s) log.

(** One task: its file is announced once, before anything else. *)
Definition announced (path : string) (s s' : state) : Prop :=
  exists log,
    st_trace s' = st_trace s ++ Print (MsgChecking path) :: log /\
    forallb unchecked log = true /\
    st_sent s' = (st_sent s + length (requests log))%nat /\
    st_fs s' = replay (st_fs s) log.

(** What [run], started in [s0] with [s] as the base line, comes to for
    a record with the members [kvs]: it prints at most and returns the
    flag as it was or ends with an exception; or it makes one delivery
    with a request [req], as [dispatches] has it. *)
Definition task_cases (w : world) (run : M bool)
  (on_failed_save : result bool) (fc wr : bool) (path : string)
  (kvs : list (string * json)) (s0 s : state) : Prop :=
  (idle s (snd (run s0)) /\
   (fst (run s0) = Ok fc \/ exists e, fst (run s0) = Raise e)) \/
  exists req stamp,
    is_request req = true /\
    dispatches w run req on_failed_save fc wr path stamp kvs s0 s.

(** What a task comes to, for any file: as [task_cases], where a
    delivery is made only for a file that holds an object not yet
    marked as executed. *)
Definition task_outcome (w : world) (run : M bool)
  (on_failed_save : result bool) (fc : bool) (path : string) (s : state)
  : Prop :=
  (idle s (snd (run s)) /\
   (fst (run s) = Ok fc \/ exists e, fst (run s) = Raise e)) \/
  exists kvs wr req stamp,
    st_fs s !! path = Some {| f_doc := Some (JObj kvs); f_writable := wr |} /\
    dict_get "executed" kvs <> Some (JBool true) /\
    is_request req = true /\
    dispatches w run req on_failed_save fc wr path stamp kvs s s.

(** [m], run with the record at [d] after an idle start, comes to one
    of the cases. *)
Definition decides (w : world) (on_failed_save : result bool) (fc wr : bool)
  (path : string) (d : nat) (vkvs : list (string * val))
  (kvs : list (string * json)) (m : M bool) : Prop :=
  forall s0 s,
    record_at (st_heap s0) d vkvs kvs -> idle s s0 ->
    f_writable <$> st_fs s !! path = Some wr ->
    task_cases w m on_failed_save fc wr path kvs s0 s.

(** The answer to the last exchange made up to [s']. *)
Definition last_answer (w : world) (s' : state) : response :=
  transport w (Nat.pred (st_sent s')).

(** The two ends a task can come to, [out] being its outcome from [s]:
    no file is written, the files are as they were and the flag is
    returned as it was, unless the task ends with an exception; or the
    task's own file is written once, with the record as it was read plus
    the two stamps, the flag returned is [True], and the last exchange
    made was answered with a status from 200 to 299. *)
Definition task_ends (w : world) (fc : bool) (path : string) (s : state)
  (out : result bool * state) : Prop :=
  let s' := snd out in
  (writes (added s s') = [] /\ st_fs s' = st_fs s /\
   (fst out = Ok fc \/ exists e, fst out = Raise e))
  \/
  (exists kvs wr stamp,
     st_fs s !! path = Some {| f_doc := Some (JObj kvs); f_writable := wr |} /\
     dict_get "executed" kvs <> Some (JBool true) /\
     writes (added s s') = [WriteFile path (stamped stamp kvs)] /\
     st_fs s' = <[path := saved stamp kvs]> (st_fs s) /\
     fst out = Ok true /\
     (st_sent s < st_sent s')%nat /\
     succeeded (last_answer w s') = true).

(** The requests of a task: three at most, one for each exchange. *)
Definition within_budget (s : state) (out : result bool * state) : Prop :=
  let s' := snd out in
  (length (requests (added s s')) <= 3)%nat /\
  st_sent s' = (st_sent s + length (requests (added s s')))%nat.

(** Whether a trace writes a file. *)
Definition wrote (t : list event) : bool := existsb is_write t.

(** The last line of a run that returns: that there are no files, or
    whether a file was written. *)
Definition summary (listing : list string) (log : list event) : message :=
  match listing with
  | [] => MsgNoConfigs
  | _ :: _ => if wrote log then MsgSummaryChanged else MsgSummaryUnchanged
  end.

(** The line [load_secret_keys] prints. *)
Definition keys_line (e : env_var) : message :=
  match e with
  | Text None => MsgKeysMalformed
  | _ => MsgKeysLoaded
  end.


(** [bool(v)] for the value a document is read to. *)
Definition truthy_json (j : json) : bool :=
  match j with
  | JNull => false
  | JBool b => b
  | JInt n => negb (n =? 0)
  | JStr s => negb (String.eqb s "")
  | JArr xs => match xs with [] => false | _ :: _ => true end
  | JObj kvs => match kvs with [] => false | _ :: _ => true end
  end.

(** The state in which a record that was read is evaluated. *)
Definition loaded (path : string) (kvs : list (string * json)) (s : state)
  : state :=
  with_heap (fst (build (JObj kvs) (st_heap s)))
    (with_trace (st_trace s ++ [Print (MsgChecking path)]) s).

(** A document that is an object. *)
Definition is_object (j : json) : bool :=
  match j with JObj _ => true | _ => false end.

(** A document that is a string. *)
Definition is_string (j : json) : bool :=
  match j with JStr _ => true | _ => false end.

(** A document that is null, true, false or a number. *)
Definition is_plain (j : json) : bool :=
  match j with JNull | JBool _ | JInt _ => true | _ => false end.

(** The state in which the dispatch of the record at [path] is left
    when the request cannot be prepared: the line that announces the
    dispatch was printed after the test of the window in [at_test], and
    the heap is [h]. *)
Definition unprepared (h : heap) (at_test : state) : state :=
  with_heap h (with_trace (st_trace at_test ++ [Print MsgPreparing]) at_test).

(** The files a trace writes, by path, in order. *)
Definition written (t : list event) : list string :=
  omap (fun e => match e with WriteFile p _ => Some p | _ => None end) t.

Definition CONFIG_DIR : string := "configs".

(** [s] without the prefix [p], when it starts with it. *)
Fixpoint strip_prefix (p s : string) : option string :=
  match p, s with
  | EmptyString, _ => Some s
  | String a p', String b s' =>
      if Ascii.eqb a b then strip_prefix p' s' else None
  | String _ _, EmptyString => None
  end.

Fixpoint has_char (c : ascii) (s : string) : bool :=
  match s with
  | EmptyString => false
  | String a r => Ascii.eqb a c || has_char c r
  end.

Definition ends_with (suffix s : string) : bool :=
  (String.length suffix <=? String.length s)%nat &&
  String.eqb
    (substring (String.length s - String.length suffix)
       (String.length suffix) s)
    suffix.

(** A path the pattern [configs/*.json] matches: a name in the
    directory that ends in [.json]; the star matches no [/] and no dot
    at the start of a name. *)
Definition is_config (path : string) : bool :=
  match strip_prefix (CONFIG_DIR ++ "/") path with
  | Some name =>
      negb (has_char "/" name) && negb (String.prefix "." name) &&
      ends_with ".json" name
  | None => false
  end.

(** [glob.glob]: the matching paths, in no order one can rely on. *)
Definition glob_configs (fs : gmap string file) : list string :=
  List.filter is_config (map fst (map_to_list fs)).

(** [sorted] on strings: ascending by code point, which on UTF-8 text
    is ascending by byte.  Equal strings are the same string, so every
    sorting algorithm gives the list that Python's gives. *)
Fixpoint insert_sorted (x : string) (l : list string) : list string :=
  match l with
  | [] => [x]
  | y :: r => if String.leb x y then x :: l else y :: insert_sorted x r
  end.

Definition sorted (l : list string) : list string :=
  fold_right insert_sorted [] l.

(** Line 50 of main.py. *)
Definition script_listing (fs : gmap string file) : list string :=
  sorted (glob_configs fs).

(** [process_tasks()] of main.py with the listing it makes itself. *)
Definition script_main {RT : Runtime} (w : world) (keys : env_var) : M unit :=
  fun s => Script.process_tasks w keys (script_listing (st_fs s)) s.

(** [a] comes before [b]. *)
Definition before (a b : string) : Prop := String.ltb a b = true.

Definition leq (a b : string) : Prop := String.leb a b = true.

(** From [s] to [s'] the heap has not shrunk and its objects below [k]
    are the same; the files may have changed. *)
Definition kept (k : nat) (s s' : state) : Prop :=
  (length (st_heap s) <= length (st_heap s'))%nat /\
  forall l, (l < k)%nat -> st_heap s' !! l = st_heap s !! l.

(** [m] keeps the objects below [k], and what it returns satisfies [Q]. *)
Definition keeps {A} (k : nat) (m : M A) (Q : A -> Prop) : Prop :=
  forall s, (k <= length (st_heap s))%nat ->
    kept k s (snd (m s)) /\ forall a, fst (m s) = Ok a -> Q a.

(** ** More concrete runs *)
Module Cases.

(** A task due at noon in UTC with [members] besides. *)
Definition due_at_noon (members : list (string * json))
  : list (string * json) :=
  [("trigger_time", JStr "2024-05-01 12:00:00"); ("timezone", JStr "UTC");
   ("webhook_url", JStr "https://example.org/hook")] ++ members.

Definition store_of (doc : json) : gmap string file :=
  {[ Scenario.a_json := Scenario.on_disk doc true ]}.

(** A file whose text is no JSON. *)
Definition garbled_store : gmap string file :=
  {[ Scenario.a_json := {| f_doc := None; f_writable := true |} ]}.

(** A task with the empty string for its trigger time. *)
Definition untimed_members : list (string * json) :=
  [("trigger_time", JStr ""); ("webhook_url", JStr "https://example.org/hook")].

(** A task with a date the other way round, in a zone that exists. *)
Definition misdated_members : list (string * json) :=
  [("trigger_time", JStr "01/05/2024 12:00"); ("timezone", JStr "UTC")].

(** A task with null for its method, and one with null for its body. *)
Definition no_method_members : list (string * json) :=
  due_at_noon [("method", JNull)].

Definition no_body_members : list (string * json) :=
  due_at_noon [("body", JNull)].

End Cases.

Import Scenario.
Import Cases.

(** ** The concrete runtime is a runtime *)

Lemma py_eq_refl x : hashable x = true -> py_eq x x = true.
Proof.
  destruct x as [| b | n | s | l]; cbn [py_eq hashable]; intros Hh; try done.
  - by destruct b.
  - apply Z.eqb_refl.
  - apply String.eqb_refl.
Qed.

Lemma py_eq_sym x y : py_eq x y = py_eq y x.
Proof.
  destruct x as [| a | n | s | l], y as [| b | m | t | k];
    cbn [py_eq]; try done.
  - by destruct a, b.
  - apply Z.eqb_sym.
  - apply String.eqb_sym.
Qed.

Lemma py_eq_trans x y z :
  py_eq x y = true -> py_eq y z = true -> py_eq x z = true.
Proof.
  destruct x as [| a | n | s | l], y as [| b | m | t | k],
    z as [| c | p | u | q]; cbn [py_eq]; try done;
    rewrite ?Z.eqb_eq, ?String.eqb_eq, ?Bool.eqb_true_iff;
    try congruence;
    repeat match goal with b : bool |- _ => destruct b end;
    unfold int_of_bool; try done; lia.
Qed.

Lemma demo_set_sound l x : x ∈ Demo.list_of_set l -> x ∈ l.
Proof.
  revert x; induction l as [| a r IH]; simpl; intros x Hx; [done |].
  apply elem_of_cons in Hx as [-> | Hx]; [left |].
  apply list_elem_of_filter in Hx as [_ Hx]. right. by apply IH.
Qed.

Lemma demo_set_complete l x :
  x ∈ l -> hashable x = true ->
  exists y, y ∈ Demo.list_of_set l /\ py_eq x y = true.
Proof.
  induction l as [| a r IH]; simpl; intros Hx Hh; [by apply elem_of_nil in Hx |].
  apply elem_of_cons in Hx as [-> | Hx].
  - exists a. split; [left | by apply py_eq_refl].
  - destruct (IH Hx Hh) as (y & Hy & Hxy).
    destruct (py_eq a y) eqn:Hay.
    + exists a. split; [left |].
      apply (py_eq_trans _ y); [done |]. by rewrite py_eq_sym.
    + exists y. split; [| done]. right.
      apply list_elem_of_filter. by split.
Qed.

Lemma distinct_filter (P : val -> Prop) `{!forall x, Decision (P x)} l :
  distinct l -> distinct (filter P l).
Proof.
  induction 1 as [| x l Hx Hd IH]; [constructor |].
  rewrite filter_cons. destruct (decide (P x)); [| done].
  constructor; [| done].
  intros y Hy. apply list_elem_of_filter in Hy as [_ Hy]. by apply Hx.
Qed.

Lemma demo_set_distinct l : distinct (Demo.list_of_set l).
Proof.
  induction l as [| a r IH]; simpl; constructor.
  - intros y Hy. by apply list_elem_of_filter in Hy as [Hy _].
  - by apply distinct_filter.
Qed.

Definition demo_runtime : Runtime :=
  {| strptime := Demo.strptime;
     strptime_empty := eq_refl;
     strftime := Demo.strftime;
     tzdata := Demo.tzdata;
     list_of_set := Demo.list_of_set;
     list_of_set_sound := demo_set_sound;
     list_of_set_complete := demo_set_complete;
     list_of_set_distinct := demo_set_distinct |}.

(** * Documents on the heap *)

Lemma json_induction (P : json -> Prop) :
  P JNull -> (forall b, P (JBool b)) -> (forall n, P (JInt n)) ->
  (forall s, P (JStr s)) ->
  (forall xs, Forall P xs -> P (JArr xs)) ->
  (forall kvs, Forall (fun kv => P (snd kv)) kvs -> P (JObj kvs)) ->
  forall j, P j.
Proof.
  intros HN HB HI HS HA HO.
  fix IH 1.
  intros [| b | n | s | xs | kvs];
    [exact HN | apply HB | apply HI | apply HS | apply HA | apply HO].
  - induction xs as [| x r IHr]; constructor; [apply IH | exact IHr].
  - induction kvs as [| [k x] r IHr]; constructor; [apply IH | exact IHr].
Qed.

Lemma containers_arr xs : containers (JArr xs) = S (containers_list xs).
Proof. reflexivity. Qed.

Lemma containers_obj kvs :
  containers (JObj kvs) = S (containers_list (map snd kvs)).
Proof.
  simpl. f_equal. induction kvs as [| x r IH]; simpl; congruence.
Qed.

Lemma build_arr xs h :
  build (JArr xs) h =
  let '(h', vs) := build_items xs h in alloc (OList vs) h'.
Proof. reflexivity. Qed.

Lemma build_obj kvs h :
  build (JObj kvs) h =
  let '(h', vs) := build_members kvs h in alloc (ODict vs) h'.
Proof. reflexivity. Qed.

Lemma extends_refl h : extends h h.
Proof. by intros l o. Qed.


Lemma extends_app h ext : extends h (h ++ ext).
Proof. intros l o Hl. by apply lookup_app_l_Some. Qed.


Lemma dump_list_ext {A B} (f g : A -> option B) l :
  Forall (fun x => forall y, f x = Some y -> g x = Some y) l ->
  forall ys, dump_list f l = Some ys -> dump_list g l = Some ys.
Proof.
  induction 1 as [| x r Hx Hr IH]; simpl; [done |].
  intros ys. destruct (f x) as [y |] eqn:Hf; [| done].
  rewrite (Hx y eq_refl).
  destruct (dump_list f r) as [zs |]; [| done].
  intros [= <-]. by rewrite (IH zs).
Qed.

Lemma dump_mono n m h h' v j :
  (n <= m)%nat -> extends h h' ->
  dump n h v = Some j -> dump m h' v = Some j.
Proof.
  revert m v j. induction n as [| n IH]; intros m v j Hnm Hext.
  - destruct v, m; simpl; done.
  - destruct m as [| m]; [lia |].
    destruct v as [| b | z | s | l]; simpl; try done.
    destruct (h !! l) as [[xs | kvs] |] eqn:Hl; [| | done];
      rewrite (Hext _ _ Hl).
    + destruct (dump_list (dump n h) xs) as [js |] eqn:Hd; [| done].
      intros [= <-].
      erewrite dump_list_ext; [done | | exact Hd].
      apply Forall_forall. intros x _ y. apply IH; [lia | done].
    + destruct (dump_list (dump_member (dump n h)) kvs) as [js |] eqn:Hd;
        [| done].
      intros [= <-].
      erewrite dump_list_ext; [done | | exact Hd].
      apply Forall_forall. intros [k x] _ y. unfold dump_member. simpl.
      destruct (dump n h x) as [jx |] eqn:Hx; [| done].
      by rewrite (IH m x jx ltac:(lia) Hext Hx).
Qed.

Lemma build_items_built xs :
  Forall built xs ->
  forall h, exists ext vs,
    build_items xs h = (h ++ ext, vs) /\
    length ext = containers_list xs /\
    dump_list (dump (containers_list xs) (h ++ ext)) vs = Some xs.
Proof.
  induction 1 as [| x r Hx Hr IHr]; intros h.
  - exists [], []. by rewrite app_nil_r.
  - simpl. destruct (Hx h) as (e1 & H1 & L1 & D1 & _).
    destruct (build x h) as [h1 v]. simpl in *. subst h1.
    destruct (IHr (h ++ e1)) as (e2 & vs & -> & L2 & D2).
    exists (e1 ++ e2), (v :: vs). rewrite <- app_assoc in *.
    split; [done |]. split.
    { rewrite length_app. cbn [map containers_list snd]. lia. }
    cbn [dump_list snd fst map containers_list].
    erewrite dump_mono;
      [| | rewrite app_assoc; apply extends_app | exact D1]; [| lia].
    erewrite dump_list_ext; [done | | exact D2].
    apply Forall_forall. intros y _ jy.
    apply dump_mono; [lia | apply extends_refl].
Qed.

Lemma build_members_built kvs :
  Forall (fun kv => built (snd kv)) kvs ->
  forall h, exists ext vs,
    build_members kvs h = (h ++ ext, vs) /\
    length ext = containers_list (map snd kvs) /\
    dump_list (dump_member (dump (containers_list (map snd kvs)) (h ++ ext)))
      vs = Some kvs.
Proof.
  induction 1 as [| [k x] r Hx Hr IHr]; intros h.
  - exists [], []. by rewrite app_nil_r.
  - simpl in *. destruct (Hx h) as (e1 & H1 & L1 & D1 & _).
    destruct (build x h) as [h1 v]. simpl in *. subst h1.
    destruct (IHr (h ++ e1)) as (e2 & vs & -> & L2 & D2).
    exists (e1 ++ e2), ((k, v) :: vs). rewrite <- app_assoc in *.
    split; [done |]. split.
    { rewrite length_app. cbn [map containers_list snd]. lia. }
    cbn [dump_list snd fst map containers_list]. unfold dump_member at 1.
    cbn [snd fst].
    erewrite dump_mono;
      [| | rewrite app_assoc; apply extends_app | exact D1]; [| lia].
    erewrite dump_list_ext; [done | | exact D2].
    apply Forall_forall. intros [k' y] _ jy. unfold dump_member. simpl.
    destruct (dump _ _ y) as [j' |] eqn:Hy; [| done].
    erewrite dump_mono; [done | | apply extends_refl | exact Hy]. lia.
Qed.

Lemma build_spec j : built j.
Proof.
  induction j as [| b | n | s | xs IH | kvs IH] using json_induction; intros h;
    try (exists []; rewrite app_nil_r; by simpl).
  - rewrite build_arr, containers_arr.
    destruct (build_items_built xs IH h) as (ext & vs & -> & Hlen & Hd).
    exists (ext ++ [OList vs]). simpl. rewrite app_assoc. split; [done |].
    split; [rewrite length_app; simpl; lia |].
    split; [| rewrite length_app; lia].
    rewrite list_lookup_middle by done.
    erewrite dump_list_ext; [done | | exact Hd].
    apply Forall_forall. intros y _ jy.
    apply dump_mono; [lia | apply extends_app].
  - rewrite build_obj, containers_obj.
    destruct (build_members_built kvs IH h) as (ext & vs & -> & Hlen & Hd).
    exists (ext ++ [ODict vs]). simpl. rewrite app_assoc. split; [done |].
    split; [rewrite length_app; simpl; lia |].
    split; [| rewrite length_app; lia].
    rewrite list_lookup_middle by done.
    erewrite dump_list_ext; [done | | exact Hd].
    apply Forall_forall. intros [k' y] _ jy. unfold dump_member. simpl.
    destruct (dump _ _ y) as [j' |] eqn:Hy; [| done].
    erewrite dump_mono; [done | | apply extends_app | exact Hy]. lia.
Qed.

Lemma build_members_spec kvs h :
  exists ext vs,
    build_members kvs h = (h ++ ext, vs) /\
    length ext = containers_list (map snd kvs) /\
    dump_list (dump_member (dump (containers_list (map snd kvs)) (h ++ ext)))
      vs = Some kvs.
Proof.
  apply build_members_built, Forall_forall. intros kv _. apply build_spec.
Qed.


(** ** Statements that leave the objects below a location alone *)

Lemma frame_refl k s : frame k s s.
Proof. by repeat split. Qed.

Lemma frame_trans k s1 s2 s3 : frame k s1 s2 -> frame k s2 s3 -> frame k s1 s3.
Proof.
  intros (F1 & L1 & H1) (F2 & L2 & H2). repeat split.
  - congruence.
  - lia.
  - intros l Hl. rewrite H2, H1; done.
Qed.

Lemma safe_ret {A} k (a : A) (Q : A -> Prop) : Q a -> safe k (ret a) Q.
Proof.
  intros Ha s _. split; [apply frame_refl |]. simpl. by intros ? [= <-].
Qed.

Lemma safe_raise {A} k e (Q : A -> Prop) : safe k (raise e) Q.
Proof. intros s _. split; [apply frame_refl | done]. Qed.

Lemma safe_lift {A} k (r : result A) : safe k (lift r) any.
Proof. intros s _. split; [apply frame_refl | done]. Qed.

Lemma safe_bind {A B} k (m : M A) (f : A -> M B) Q Q' :
  safe k m Q -> (forall a, Q a -> safe k (f a) Q') -> safe k (bind m f) Q'.
Proof.
  intros Hm Hf s Hk. unfold bind.
  destruct (Hm s Hk) as [Fm Qm].
  destruct (m s) as [[a | e] s1]; simpl in *; [| done].
  assert (k <= length (st_heap s1))%nat as Hk1
    by (destruct Fm as (_ & ? & _); lia).
  destruct (Hf a (Qm a eq_refl) s1 Hk1) as [Ff Qf].
  split; [by eapply frame_trans | done].
Qed.

Lemma safe_weaken {A} k (m : M A) (Q Q' : A -> Prop) :
  safe k m Q -> (forall a, Q a -> Q' a) -> safe k m Q'.
Proof.
  intros Hm HQ s Hk. destruct (Hm s Hk) as [F Hq]. split; [done |].
  intros a Ha. auto.
Qed.

Lemma safe_try_except {A} k catches (m : M A) Q :
  safe k m Q ->
  safe k (try_except catches m)
    (fun r => match r with inl a => Q a | inr _ => True end).
Proof.
  intros Hm s Hk. unfold try_except.
  destruct (Hm s Hk) as [F Hq].
  destruct (m s) as [[a | e] s1]; simpl in *.
  - split; [done |]. intros r [= <-]. auto.
  - destruct (catches e); simpl; (split; [done |]); [| done].
    by intros r [= <-].
Qed.

Lemma safe_emit k e : safe k (emit e) any.
Proof. intros s _. split; [| done]. by repeat split. Qed.

Lemma safe_print k m : safe k (print m) any.
Proof. apply safe_emit. Qed.

Lemma safe_read_heap k : safe k read_heap any.
Proof. intros s _. split; [apply frame_refl | done]. Qed.

Lemma safe_read_clock k w : safe k (read_clock w) any.
Proof. intros s _. split; [| done]. by repeat split. Qed.

Lemma safe_exchange k w : safe k (exchange w) any.
Proof. intros s _. split; [| done]. by repeat split. Qed.

Lemma safe_new_object k o : safe k (new_object o) (fresh k).
Proof.
  intros s Hk. unfold new_object, alloc. simpl. split.
  - repeat split; simpl.
    + rewrite length_app. lia.
    + intros l Hl. apply lookup_app_l. lia.
  - intros a [= <-]. done.
Qed.

Lemma safe_py_get k v key dflt : safe k (py_get v key dflt) any.
Proof.
  intros s _. split; [| done]. unfold py_get, bind, read_heap. simpl.
  destruct v as [| | | | l]; try apply frame_refl.
  destruct (st_heap s !! l) as [[xs | kvs] |]; apply frame_refl.
Qed.

Lemma safe_py_truthy k v : safe k (py_truthy v) any.
Proof. intros s _. split; [apply frame_refl | done]. Qed.

Lemma safe_py_upper k v : safe k (py_upper v) any.
Proof. intros s _. split; [| done]. destruct v; apply frame_refl. Qed.

Lemma safe_py_contains k key c : safe k (py_contains key c) any.
Proof.
  intros s _. split; [| done]. unfold py_contains, bind, read_heap. simpl.
  destruct c as [| | | | l]; try apply frame_refl.
  destruct (st_heap s !! l) as [[xs | kvs] |]; apply frame_refl.
Qed.

Lemma safe_py_getitem k c key : safe k (py_getitem c key) any.
Proof.
  intros s _. split; [| done]. unfold py_getitem, bind, read_heap. simpl.
  destruct c as [| | | | l]; try apply frame_refl.
  destruct (st_heap s !! l) as [[xs | kvs] |]; try apply frame_refl.
  destruct (dict_get key kvs); apply frame_refl.
Qed.

Lemma safe_py_iter k v : safe k (py_iter v) any.
Proof.
  intros s _. split; [| done]. unfold py_iter, bind, read_heap. simpl.
  destruct v as [| | | | l]; try apply frame_refl.
  destruct (st_heap s !! l) as [[xs | kvs] |]; apply frame_refl.
Qed.

Lemma safe_py_setitem k c key v : fresh k c -> safe k (py_setitem c key v) any.
Proof.
  intros Hc s Hk. split; [| done]. unfold py_setitem.
  destruct c as [| | | | l]; try apply frame_refl.
  destruct (st_heap s !! l) as [[xs | kvs] |]; try apply frame_refl.
  simpl in *. repeat split; simpl.
  - by rewrite length_insert.
  - intros i Hi. apply list_lookup_insert_ne. lia.
Qed.

Lemma safe_py_deepcopy k v : safe k (py_deepcopy v) (fresh k).
Proof.
  intros s Hk. unfold py_deepcopy, deepcopy.
  destruct (dumps (st_heap s) v) as [j |]; simpl; [| split; [apply frame_refl | done]].
  destruct (build_spec j (st_heap s)) as (ext & Hh & _ & _ & Hf).
  destruct (build j (st_heap s)) as [h' v']. simpl in *. subst h'. split.
  - repeat split; simpl.
    + rewrite length_app. lia.
    + intros l Hl. apply lookup_app_l. lia.
  - intros a [= <-]. destruct v'; simpl in *; try done. lia.
Qed.

Lemma safe_json_loads k j : safe k (json_loads j) (fresh k).
Proof.
  intros s Hk. unfold json_loads.
  destruct (build_spec j (st_heap s)) as (ext & Hh & _ & _ & Hf).
  destruct (build j (st_heap s)) as [h' v']. simpl in *. subst h'. split.
  - repeat split; simpl.
    + rewrite length_app. lia.
    + intros l Hl. apply lookup_app_l. lia.
  - intros a [= <-]. destruct v'; simpl in *; try done. lia.
Qed.

Create HintDb safe discriminated.
#[export] Hint Resolve safe_lift safe_emit safe_print safe_read_heap
  safe_read_clock safe_exchange safe_new_object safe_py_get safe_py_truthy
  safe_py_upper safe_py_contains safe_py_getitem safe_py_iter
  safe_py_deepcopy safe_json_loads : safe.

(** One step through a statement: a [bind] whose first statement is a
    known safe one, a case distinction, or the end. *)
Ltac safe_step :=
  match goal with
  | |- safe _ (ret _) _ => apply safe_ret; try done
  | |- safe _ (raise _) _ => apply safe_raise
  | |- safe _ (bind _ _) _ =>
      eapply safe_bind; [solve [eauto with safe] | intros ? ?]
  | |- safe _ (match ?x with _ => _ end) _ => destruct x eqn:?
  | |- safe _ _ any => solve [eauto with safe]
  end.

Section Frames.
Context {RT : Runtime}.

Lemma safe_substitute k aliases items acc :
  safe k (substitute aliases items acc) any.
Proof.
  revert acc. induction items as [| item rest IH]; intros acc; simpl.
  - by apply safe_ret.
  - destruct (hashable item); [| apply safe_raise].
    destruct (alias_lookup aliases item); [| apply IH].
    eapply safe_bind; [apply safe_print | intros _ _; apply IH].
Qed.

Lemma safe_append_mode k payload keys :
  fresh k payload -> safe k (append_mode payload keys) any.
Proof.
  intros Hp. unfold append_mode. repeat safe_step.
  by apply safe_py_setitem.
Qed.

Lemma safe_alias_mode k payload aliases :
  fresh k payload -> safe k (alias_mode payload aliases) any.
Proof.
  intros Hp. unfold alias_mode. do 2 safe_step.
  eapply safe_bind with (Q := any).
  - destruct (_ && _); repeat safe_step. apply safe_substitute.
  - intros. repeat safe_step. by apply safe_py_setitem.
Qed.

Lemma safe_inject_keys_script k payload secret_keys :
  fresh k payload -> safe k (inject_keys_script payload secret_keys) any.
Proof.
  intros Hp. unfold inject_keys_script. repeat safe_step.
  - by apply safe_append_mode.
  - by apply safe_alias_mode.
Qed.

Lemma safe_inject_keys_package k payload secret_keys :
  fresh k payload -> safe k (inject_keys_package payload secret_keys) any.
Proof.
  intros Hp. unfold inject_keys_package. repeat safe_step;
    solve [by apply safe_append_mode | by apply safe_alias_mode].
Qed.

Lemma safe_build_payload k data : safe k (build_payload data) (fresh k).
Proof.
  unfold build_payload. do 4 safe_step.
  eapply safe_bind with (Q := any).
  - repeat safe_step. by apply safe_py_setitem.
  - intros. by apply safe_ret.
Qed.

Lemma safe_attempts_loop k send on_wait attempts :
  safe k send any -> safe k on_wait any ->
  safe k (attempts_loop send on_wait attempts) any.
Proof.
  intros Hs Hw. induction attempts as [| attempt rest IH]; simpl.
  - by apply safe_ret.
  - eapply safe_bind; [apply safe_print | intros _ _].
    eapply safe_bind; [apply Hs | intros r _].
    destruct r as [code |].
    + destruct (is_success code); repeat safe_step.
      eapply safe_bind with (Q := any); [| intros; apply IH].
      destruct (_ <? _); repeat safe_step.
    + repeat safe_step.
      eapply safe_bind with (Q := any); [| intros; apply IH].
      destruct (_ <? _); repeat safe_step.
Qed.

Lemma safe_script_send k w method url payload :
  safe k (Script.send w method url payload) any.
Proof.
  unfold Script.send. safe_step.
  eapply safe_bind with (Q := any); [| intros; apply safe_exchange].
  destruct (String.eqb _ _); apply safe_emit.
Qed.

Lemma safe_package_send k w method url payload :
  safe k (Package.send w method url payload) any.
Proof. unfold Package.send. repeat safe_step. Qed.

Lemma safe_script_prepare k secret_keys data :
  safe k (Script.prepare secret_keys data) (fresh_request k).
Proof.
  unfold Script.prepare. safe_step.
  eapply safe_bind with (Q := any); [repeat safe_step |]. intros method _.
  eapply safe_bind; [apply safe_build_payload | intros payload Hp].
  eapply safe_bind; [by apply safe_inject_keys_script | intros _ _].
  by apply safe_ret.
Qed.

Lemma safe_package_prepare k secret_keys data :
  safe k (Package.prepare secret_keys data) (fresh_request k).
Proof.
  unfold Package.prepare. safe_step.
  eapply safe_bind with (Q := any); [repeat safe_step |]. intros method _.
  eapply safe_bind; [apply safe_build_payload | intros payload Hp].
  eapply safe_bind; [by apply safe_inject_keys_package | intros _ _].
  by apply safe_ret.
Qed.

Lemma safe_script_deliver k w method url payload :
  safe k (Script.deliver w method url payload) any.
Proof.
  apply safe_attempts_loop; [apply safe_script_send | apply safe_print].
Qed.

Lemma safe_package_deliver k w method url payload :
  safe k (Package.deliver w method url payload) any.
Proof.
  apply safe_attempts_loop; [apply safe_package_send | by apply safe_ret].
Qed.
End Frames.

(** ** The record of a task on the heap *)

Lemma extends_take (h : heap) d : extends (take d h) h.
Proof. intros l o Hl. apply lookup_take_Some in Hl. tauto. Qed.

Lemma frame_take d s s' :
  (d < length (st_heap s))%nat -> frame (S d) s s' ->
  take d (st_heap s') = take d (st_heap s).
Proof.
  intros Hd (_ & Hlen & Hsame). apply list_eq. intros i.
  destruct (decide (i < d)%nat) as [Hi | Hi].
  - rewrite !lookup_take_lt by done. apply Hsame. lia.
  - rewrite !lookup_take_ge by lia. done.
Qed.

Lemma record_frame d s s' vkvs kvs :
  record_at (st_heap s) d vkvs kvs -> frame (S d) s s' ->
  record_at (st_heap s') d vkvs kvs.
Proof.
  intros [Hd Hm] Hf. split.
  - destruct Hf as (_ & _ & Hsame). rewrite Hsame; [done | lia].
  - rewrite (frame_take d s s'); [done | | done].
    by apply lookup_lt_Some in Hd.
Qed.

Lemma dump_list_length {A B} (f : A -> option B) l ys :
  dump_list f l = Some ys -> length ys = length l.
Proof.
  revert ys. induction l as [| x r IH]; simpl; intros ys.
  - by intros [= <-].
  - destruct (f x); [| done]. destruct (dump_list f r); [| done].
    intros [= <-]. simpl. f_equal. by apply IH.
Qed.

Lemma members_get f vkvs kvs k :
  dump_list (dump_member f) vkvs = Some kvs ->
  match dict_get k vkvs with
  | Some v => exists j, f v = Some j /\ dict_get k kvs = Some j
  | None => dict_get k kvs = None
  end.
Proof.
  revert kvs. induction vkvs as [| [k' v] r IH]; simpl; intros kvs.
  - by intros [= <-].
  - unfold dump_member at 1. simpl.
    destruct (f v) as [j |] eqn:Hv; [| done].
    destruct (dump_list (dump_member f) r) as [js |] eqn:Hr; [| done].
    intros [= <-]. simpl. destruct (String.eqb k k'); [by exists j |].
    by apply IH.
Qed.

Lemma members_set f vkvs kvs k v j :
  dump_list (dump_member f) vkvs = Some kvs -> f v = Some j ->
  dump_list (dump_member f) (dict_set k v vkvs) = Some (dict_set k j kvs).
Proof.
  intros Hm Hv. revert kvs Hm.
  induction vkvs as [| [k' v'] r IH]; simpl; intros kvs.
  - intros [= <-]. unfold dump_member. simpl. by rewrite Hv.
  - unfold dump_member at 1. simpl.
    destruct (f v') as [j' |] eqn:Hv'; [| done].
    destruct (dump_list (dump_member f) r) as [js |] eqn:Hr; [| done].
    intros [= <-]. simpl. destruct (String.eqb k k'); simpl.
    + unfold dump_member at 1. simpl. by rewrite Hv, Hr.
    + unfold dump_member at 1. simpl. by rewrite Hv', (IH js).
Qed.

Lemma dumps_record h d vkvs kvs :
  record_at h d vkvs kvs -> dumps h (VRef d) = Some (JObj kvs).
Proof.
  intros [Hd Hm]. unfold dumps.
  pose proof (lookup_lt_Some _ _ _ Hd) as Hlt.
  destruct (length h) as [| m] eqn:Hlen; [lia |]. simpl. rewrite Hd.
  erewrite dump_list_ext; [done | | exact Hm].
  apply Forall_forall. intros [k v] _ [k' j]. unfold dump_member. simpl.
  destruct (dump d (take d h) v) as [j' |] eqn:Hv; [| done].
  erewrite dump_mono; [done | | apply extends_take | exact Hv]. lia.
Qed.

Lemma dump_scalar n h v j : scalar_json v = Some j -> dump n h v = Some j.
Proof. destruct v, n; simpl; congruence. Qed.

Lemma record_set h d vkvs kvs k v j :
  record_at h d vkvs kvs -> scalar_json v = Some j ->
  record_at (<[d := ODict (dict_set k v vkvs)]> h) d
    (dict_set k v vkvs) (dict_set k j kvs).
Proof.
  intros [Hd Hm] Hv. split.
  - apply list_lookup_insert_eq. by apply lookup_lt_Some in Hd.
  - rewrite take_insert_ge by lia.
    apply members_set; [done | by apply dump_scalar].
Qed.

(** Reading a task file whose document is an object. *)
Lemma json_load_object path s kvs wr :
  st_fs s !! path = Some {| f_doc := Some (JObj kvs); f_writable := wr |} ->
  exists d h vkvs,
    build (JObj kvs) (st_heap s) = (h, VRef d) /\
    json_load path s = (Ok (VRef d), with_heap h s) /\
    (d < length h)%nat /\ record_at h d vkvs kvs.
Proof.
  intros Hf. unfold json_load. rewrite Hf. cbn [f_doc].
  rewrite build_obj.
  destruct (build_members_spec kvs (st_heap s)) as (ext & vkvs & -> & Hlen & Hm).
  simpl. exists (length (st_heap s ++ ext)), ((st_heap s ++ ext) ++ [ODict vkvs]), vkvs.
  do 2 (split; [done |]). split; [rewrite !length_app; simpl; lia |]. split.
  - by apply list_lookup_middle.
  - rewrite take_app_length.
    erewrite dump_list_ext; [done | | exact Hm].
    apply Forall_forall. intros [k v] _ [k' j]. unfold dump_member. simpl.
    destruct (dump _ _ v) as [j' |] eqn:Hv; [| done].
    erewrite dump_mono; [done | | apply extends_refl | exact Hv].
    rewrite length_app. lia.
Qed.

(** Reading anything else gives no dict, or no value at all. *)
Lemma json_load_other path s :
  (forall kvs wr,
     st_fs s !! path <> Some {| f_doc := Some (JObj kvs); f_writable := wr |}) ->
  match json_load path s with
  | (Ok (VRef d), s') =>
      st_fs s' = st_fs s /\ exists xs, st_heap s' !! d = Some (OList xs)
  | (_, s') => st_fs s' = st_fs s
  end.
Proof.
  intros Hno. unfold json_load.
  destruct (st_fs s !! path) as [[[j |] wr] |] eqn:Hf; cbn [f_doc]; try done.
  destruct j as [| b | n | t | xs | kvs]; try done.
  - rewrite build_arr.
    destruct (build_items xs (st_heap s)) as [h' vs]. simpl. split; [done |].
    exists vs. by apply list_lookup_middle.
  - by destruct (Hno kvs wr).
Qed.

(** ** What a task can do to the files *)

Lemma safe_try_except_any {A} k catches (m : M A) Q :
  safe k m Q -> safe k (try_except catches m) any.
Proof.
  intros Hm. eapply safe_weaken; [by apply safe_try_except | done].
Qed.

Section Files.
Context {RT : Runtime}.

Lemma writes_only_safe {A} path d vkvs kvs (m : M A) Q :
  safe (S d) m Q -> writes_only path d vkvs kvs m.
Proof.
  intros Hm s [Hd _]. left.
  apply lookup_lt_Some in Hd. by destruct (Hm s Hd) as [(? & _) _].
Qed.

Lemma writes_only_bind {A B} path d vkvs kvs (m : M A) (f : A -> M B) Q :
  safe (S d) m Q -> (forall a, Q a -> writes_only path d vkvs kvs (f a)) ->
  writes_only path d vkvs kvs (bind m f).
Proof.
  intros Hm Hf s Hr. unfold bind.
  pose proof (lookup_lt_Some _ _ _ (proj1 Hr)) as Hd.
  destruct (Hm s Hd) as [Fm Qm].
  destruct (m s) as [[a | e] s1]; simpl in *.
  - destruct (Hf a (Qm a eq_refl) s1) as [Hfs | [t Hfs]].
    + by eapply record_frame.
    + left. rewrite Hfs. apply Fm.
    + right. exists t. rewrite Hfs. by destruct Fm as [-> _].
  - left. apply Fm.
Qed.

Lemma safe_datetime_strptime k v : safe k (datetime_strptime v) any.
Proof. unfold datetime_strptime. repeat safe_step. Qed.

Lemma safe_ZoneInfo k v : safe k (ZoneInfo v) any.
Proof. unfold ZoneInfo. repeat safe_step. Qed.

Lemma safe_pytz_timezone k v : safe k (pytz_timezone v) any.
Proof. unfold pytz_timezone. repeat safe_step. Qed.

Lemma safe_report_outside k m : safe k (report_outside m) any.
Proof. unfold report_outside. destruct (Qlt_bool _ _); apply safe_print. Qed.

Hint Resolve safe_datetime_strptime safe_ZoneInfo safe_pytz_timezone
  safe_report_outside : safe.

Lemma safe_script_get_current_time k w v :
  safe k (Script.get_current_time w v) any.
Proof.
  unfold Script.get_current_time, now_zoneinfo, now_local.
  eapply safe_bind.
  { apply safe_try_except_any with (Q := any). repeat safe_step. }
  intros r _. destruct r; repeat safe_step.
Qed.

Lemma safe_package_get_current_time k w v :
  safe k (Package.get_current_time w v) any.
Proof.
  unfold Package.get_current_time, now_pytz, now_utc.
  eapply safe_bind.
  { apply safe_try_except_any with (Q := any). repeat safe_step. }
  intros r _. destruct r; repeat safe_step.
Qed.

Hint Resolve safe_script_get_current_time safe_package_get_current_time
  : safe.

Lemma safe_script_read_times k w ts tz :
  safe k (Script.read_times w ts tz) any.
Proof.
  unfold Script.read_times.
  apply safe_try_except_any with (Q := any). repeat safe_step.
Qed.

Lemma safe_package_read_times k w ts tz :
  safe k (Package.read_times w ts tz) any.
Proof.
  unfold Package.read_times.
  apply safe_try_except_any with (Q := any). repeat safe_step.
Qed.

(** The state after both stamps, and what [json_dump] does there. *)
Lemma stamps_then_dump path d vkvs kvs t s :
  record_at (st_heap s) d vkvs kvs ->
  exists s1,
    (py_setitem (VRef d) "executed" (VBool true) ;;
     py_setitem (VRef d) "executed_at" (VStr t)) s = (Ok tt, s1) /\
    st_fs s1 = st_fs s /\ st_trace s1 = st_trace s /\
    st_sent s1 = st_sent s /\ st_ticks s1 = st_ticks s /\
    (json_dump path (VRef d) s1 = (Raise OSError, s1) /\
     f_writable <$> st_fs s !! path = Some false
     \/
     f_writable <$> st_fs s !! path <> Some false /\
     json_dump path (VRef d) s1 =
       (Ok tt,
        with_trace (st_trace s ++ [WriteFile path (stamped t kvs)])
          (with_fs (<[path := saved t kvs]> (st_fs s)) s1))).
Proof.
  intros Hr. pose proof Hr as [Hd _].
  unfold bind, py_setitem. rewrite Hd. cbn [st_heap with_heap].
  rewrite list_lookup_insert_eq by (by apply lookup_lt_Some in Hd).
  rewrite list_insert_insert_eq.
  eexists. split; [reflexivity |]. cbn [st_fs st_trace st_sent st_ticks with_heap].
  do 4 (split; [done |]).
  unfold json_dump. cbn [st_fs st_trace st_heap with_heap].
  case_bool_decide as Hw; [by left | right]. split; [done |].
  pose proof (record_set _ _ _ _ "executed" _ _ Hr
                (eq_refl : scalar_json (VBool true) = Some (JBool true))) as H1.
  pose proof (record_set _ _ _ _ "executed_at" _ _ H1
                (eq_refl : scalar_json (VStr t) = Some (JStr t))) as H2.
  rewrite list_insert_insert_eq in H2.
  by rewrite (dumps_record _ _ _ _ H2).
Qed.

Lemma writes_only_script_complete path d vkvs kvs ct fc success :
  writes_only path d vkvs kvs (Script.complete (VRef d) ct path fc success).
Proof.
  intros s Hr. unfold Script.complete.
  destruct success; [| by left].
  destruct (stamps_then_dump path d vkvs kvs (strftime (dt_wall ct)) s Hr)
    as (s1 & Hs1 & Hfs & _ & _ & _ & Hdump).
  unfold bind in *.
  destruct (py_setitem (VRef d) "executed" (VBool true) s) as [[[] | e] s0];
    [| done].
  rewrite Hs1.
  destruct Hdump as [[-> _] | [_ ->]]; simpl; [by left |].
  right. by exists (strftime (dt_wall ct)).
Qed.

Lemma writes_only_package_complete path d vkvs kvs ct fc success :
  writes_only path d vkvs kvs (Package.complete (VRef d) ct path fc success).
Proof.
  intros s Hr. unfold Package.complete.
  destruct success; [| by left].
  destruct (stamps_then_dump path d vkvs kvs (strftime (dt_wall ct)) s Hr)
    as (s1 & Hs1 & Hfs & _ & _ & _ & Hdump).
  unfold bind, try_except in *.
  destruct (py_setitem (VRef d) "executed" (VBool true) s) as [[[] | e] s0];
    [| done].
  rewrite Hs1.
  destruct Hdump as [[-> _] | [_ ->]]; simpl; [by left |].
  right. by exists (strftime (dt_wall ct)).
Qed.
End Files.

#[export] Hint Resolve safe_datetime_strptime safe_ZoneInfo safe_pytz_timezone
  safe_report_outside safe_script_get_current_time
  safe_package_get_current_time safe_script_read_times
  safe_package_read_times : safe.

Ltac writes_only_step :=
  match goal with
  | |- writes_only _ _ _ _ (bind _ _) =>
      eapply writes_only_bind; [solve [eauto with safe] | intros ? ?]
  | |- writes_only _ _ _ _ (match ?x with _ => _ end) => destruct x eqn:?
  | |- writes_only _ _ _ _ _ =>
      eapply writes_only_safe; solve [eauto with safe | by apply safe_ret]
  end.

Section Evaluate.
Context {RT : Runtime} (w : world).

Lemma writes_only_script_dispatch path d vkvs kvs sk ct fc :
  writes_only path d vkvs kvs (Script.dispatch w sk (VRef d) ct path fc).
Proof.
  unfold Script.dispatch. writes_only_step.
  eapply writes_only_bind; [apply safe_script_prepare |].
  intros [[method url] payload] _.
  eapply writes_only_bind; [apply safe_script_deliver |].
  intros success _. apply writes_only_script_complete.
Qed.

Lemma writes_only_package_dispatch path d vkvs kvs sk ct fc :
  writes_only path d vkvs kvs (Package.dispatch w sk (VRef d) ct path fc).
Proof.
  unfold Package.dispatch. writes_only_step.
  eapply writes_only_bind; [apply safe_package_prepare |].
  intros [[method url] payload] _.
  eapply writes_only_bind; [apply safe_package_deliver |].
  intros success _. apply writes_only_package_complete.
Qed.

Lemma writes_only_script_evaluate path d vkvs kvs sk fc :
  writes_only path d vkvs kvs (Script.evaluate w sk fc path (VRef d)).
Proof.
  unfold Script.evaluate. repeat writes_only_step.
  apply writes_only_script_dispatch.
Qed.

Lemma writes_only_package_evaluate path d vkvs kvs sk fc :
  writes_only path d vkvs kvs (Package.evaluate w sk fc path (VRef d)).
Proof.
  unfold Package.evaluate. repeat writes_only_step.
  apply writes_only_package_dispatch.
Qed.
End Evaluate.

Lemma dump_bool_inv n h v b : dump n h v = Some (JBool b) -> v = VBool b.
Proof.
  destruct v as [| b' | z | s | l], n as [| n]; simpl; try congruence.
  destruct (h !! l) as [[xs | kvs] |]; [| | done].
  - by destruct (dump_list _ xs).
  - by destruct (dump_list _ kvs).
Qed.

Lemma dump_str_inv n h v t : dump n h v = Some (JStr t) -> v = VStr t.
Proof.
  destruct v as [| b' | z | s | l], n as [| n]; simpl; try congruence.
  destruct (h !! l) as [[xs | kvs] |]; [| | done].
  - by destruct (dump_list _ xs).
  - by destruct (dump_list _ kvs).
Qed.

Lemma py_get_record s d vkvs kvs k dflt :
  record_at (st_heap s) d vkvs kvs ->
  py_get (VRef d) k dflt s = (Ok (default dflt (dict_get k vkvs)), s).
Proof. intros [Hd _]. unfold py_get, bind, read_heap. simpl. by rewrite Hd. Qed.

(** The flag of a record that reads [executed: true] is [True]. *)
Lemma record_executed h d vkvs kvs :
  record_at h d vkvs kvs ->
  is_True (default VNone (dict_get "executed" vkvs)) = true <->
  dict_get "executed" kvs = Some (JBool true).
Proof.
  intros [_ Hm]. pose proof (members_get _ _ _ "executed" Hm) as Hg.
  destruct (dict_get "executed" vkvs) as [v |]; simpl.
  - destruct Hg as (j & Hv & ->). split.
    + destruct v as [| [] | | |]; simpl; try done. intros _.
      destruct d; simpl in Hv; congruence.
    + intros [= ->]. by rewrite (dump_bool_inv _ _ _ _ Hv).
  - rewrite Hg. done.
Qed.

Lemma file_cases (fs : gmap string file) path :
  (exists kvs wr,
     fs !! path = Some {| f_doc := Some (JObj kvs); f_writable := wr |}) \/
  (forall kvs wr,
     fs !! path <> Some {| f_doc := Some (JObj kvs); f_writable := wr |}).
Proof.
  destruct (fs !! path) as [[[j |] wr] |]; try (by right).
  destruct j; try (by right). left. eauto.
Qed.

Lemma executed_cases (kvs : list (string * json)) :
  dict_get "executed" kvs = Some (JBool true) \/
  dict_get "executed" kvs <> Some (JBool true).
Proof.
  destruct (dict_get "executed" kvs) as [[| [] | | | |] |];
    (by left) || (by right).
Qed.

Section ProcessFile.
Context {RT : Runtime} (w : world).

(** A record already executed is skipped: two lines are printed and
    that is all. *)
Lemma script_skip sk fc path s kvs wr :
  st_fs s !! path = Some {| f_doc := Some (JObj kvs); f_writable := wr |} ->
  dict_get "executed" kvs = Some (JBool true) ->
  Script.process_file w sk fc path s =
  (Ok fc,
   with_trace (st_trace s ++ [Print (MsgChecking path); Print MsgSkipExecuted])
     (with_heap (fst (build (JObj kvs) (st_heap s))) s)).
Proof.
  intros Hf Hx. unfold Script.process_file, bind at 1, print, emit.
  unfold bind at 1, try_except.
  set (s0 := with_trace _ s).
  destruct (json_load_object path s0 kvs wr Hf) as (d & h & vkvs & Hb & -> & Hd & Hr).
  unfold Script.evaluate, bind at 1.
  rewrite (py_get_record _ d vkvs kvs) by done.
  rewrite (proj2 (record_executed _ _ _ _ Hr) Hx).
  subst s0. cbn [st_heap with_trace] in Hb. rewrite Hb.
  unfold bind, print, emit, ret. simpl.
  unfold with_trace, with_heap. simpl. by rewrite <- app_assoc.
Qed.

Lemma package_skip sk fc path s kvs wr :
  st_fs s !! path = Some {| f_doc := Some (JObj kvs); f_writable := wr |} ->
  dict_get "executed" kvs = Some (JBool true) ->
  Package.process_file w sk fc path s =
  (Ok fc,
   with_trace (st_trace s ++ [Print (MsgChecking path); Print MsgSkipExecuted])
     (with_heap (fst (build (JObj kvs) (st_heap s))) s)).
Proof.
  intros Hf Hx. unfold Package.process_file, bind at 1, print, emit.
  unfold bind at 1, try_except.
  set (s0 := with_trace _ s).
  destruct (json_load_object path s0 kvs wr Hf) as (d & h & vkvs & Hb & -> & Hd & Hr).
  unfold Package.evaluate, bind at 1.
  rewrite (py_get_record _ d vkvs kvs) by done.
  rewrite (proj2 (record_executed _ _ _ _ Hr) Hx).
  subst s0. cbn [st_heap with_trace] in Hb. rewrite Hb.
  unfold bind, print, emit, ret. simpl.
  unfold with_trace, with_heap. simpl. by rewrite <- app_assoc.
Qed.

Lemma script_file_effect sk fc path s :
  file_effect path s (snd (Script.process_file w sk fc path s)).
Proof.
  destruct (file_cases (st_fs s) path) as [(kvs & wr & Hf) | Hno].
  - destruct (executed_cases kvs) as [Hx | Hx].
    { rewrite (script_skip sk fc path s kvs wr Hf Hx). by left. }
    unfold Script.process_file, bind at 1, print, emit.
    unfold bind at 1, try_except.
    set (s0 := with_trace _ s).
    destruct (json_load_object path s0 kvs wr Hf) as (d & h & vkvs & Hb & -> & Hd & Hr).
    destruct (writes_only_script_evaluate w path d vkvs kvs sk fc
                (with_heap h s0) Hr) as [Hfs | [t Hfs]].
    + left. by rewrite Hfs.
    + right. exists kvs, wr, t. by rewrite Hfs.
  - left. unfold Script.process_file, bind at 1, print, emit.
    unfold bind at 1, try_except.
    set (s0 := with_trace _ s).
    pose proof (json_load_other path s0 Hno) as Hl.
    destruct (json_load path s0) as [[v | e] s1]; simpl.
    + unfold Script.evaluate, bind at 1, py_get, bind, read_heap. simpl.
      destruct v as [| | | | l]; simpl; try done.
      destruct Hl as [Hfs [xs Hxs]]. by rewrite Hxs.
    + done.
Qed.

Lemma package_file_effect sk fc path s :
  file_effect path s (snd (Package.process_file w sk fc path s)).
Proof.
  destruct (file_cases (st_fs s) path) as [(kvs & wr & Hf) | Hno].
  - destruct (executed_cases kvs) as [Hx | Hx].
    { rewrite (package_skip sk fc path s kvs wr Hf Hx). by left. }
    unfold Package.process_file, bind at 1, print, emit.
    unfold bind at 1, try_except.
    set (s0 := with_trace _ s).
    destruct (json_load_object path s0 kvs wr Hf) as (d & h & vkvs & Hb & -> & Hd & Hr).
    destruct (writes_only_package_evaluate w path d vkvs kvs sk fc
                (with_heap h s0) Hr) as [Hfs | [t Hfs]].
    + left. by rewrite Hfs.
    + right. exists kvs, wr, t. by rewrite Hfs.
  - left. unfold Package.process_file, bind at 1, print, emit.
    unfold bind at 1, try_except.
    set (s0 := with_trace _ s).
    pose proof (json_load_other path s0 Hno) as Hl.
    destruct (json_load path s0) as [[v | e] s1]; simpl.
    + unfold Package.evaluate, bind at 1, py_get, bind, read_heap. simpl.
      destruct v as [| | | | l]; simpl; try done.
      destruct Hl as [Hfs [xs Hxs]]. by rewrite Hxs.
    + done.
Qed.
End ProcessFile.

Section Runs.
Context {RT : Runtime} (w : world).

Lemma safe_load_secret_keys k e : safe k (load_secret_keys e) any.
Proof.
  unfold load_secret_keys. destruct e as [| [j |]]; repeat safe_step.
  eapply safe_weaken; [apply safe_new_object | done].
Qed.

(** A file that reads [executed: true] is kept by whatever a task
    does to the files. *)
Lemma file_effect_keeps path p s s' kvs wr :
  st_fs s !! path = Some {| f_doc := Some (JObj kvs); f_writable := wr |} ->
  dict_get "executed" kvs = Some (JBool true) ->
  file_effect p s s' -> st_fs s' !! path = st_fs s !! path.
Proof.
  intros Hf Hx [-> | (kvs' & wr' & t & Hp & Hx' & ->)]; [done |].
  destruct (decide (p = path)) as [-> | Hne].
  - rewrite Hf in Hp. by injection Hp as -> ->.
  - by apply lookup_insert_ne.
Qed.

Lemma script_for_each_keeps path kvs wr sk listing : forall fc s,
  st_fs s !! path = Some {| f_doc := Some (JObj kvs); f_writable := wr |} ->
  dict_get "executed" kvs = Some (JBool true) ->
  st_fs (snd (Script.for_each w sk fc listing s)) !! path = st_fs s !! path.
Proof.
  induction listing as [| p rest IH]; intros fc s Hf Hx; [done |].
  simpl. unfold bind.
  pose proof (script_file_effect w sk fc p s) as He.
  apply (file_effect_keeps path p s _ kvs wr Hf Hx) in He.
  destruct (Script.process_file w sk fc p s) as [[c | e] s1]; simpl in *.
  - rewrite IH; [done | by rewrite He | done].
  - done.
Qed.

Lemma package_for_each_keeps path kvs wr sk listing : forall fc s,
  st_fs s !! path = Some {| f_doc := Some (JObj kvs); f_writable := wr |} ->
  dict_get "executed" kvs = Some (JBool true) ->
  st_fs (snd (Package.for_each w sk fc listing s)) !! path = st_fs s !! path.
Proof.
  induction listing as [| p rest IH]; intros fc s Hf Hx; [done |].
  simpl. unfold bind.
  pose proof (package_file_effect w sk fc p s) as He.
  apply (file_effect_keeps path p s _ kvs wr Hf Hx) in He.
  destruct (Package.process_file w sk fc p s) as [[c | e] s1]; simpl in *.
  - rewrite IH; [done | by rewrite He | done].
  - done.
Qed.

Lemma script_run_keeps path kvs wr keys listing s :
  st_fs s !! path = Some {| f_doc := Some (JObj kvs); f_writable := wr |} ->
  dict_get "executed" kvs = Some (JBool true) ->
  st_fs (snd (Script.process_tasks w keys listing s)) !! path
  = st_fs s !! path.
Proof.
  intros Hf Hx. unfold Script.process_tasks, bind at 1.
  destruct (safe_load_secret_keys 0%nat keys s ltac:(lia)) as [(Hfs & _) _].
  destruct (load_secret_keys keys s) as [[sk | e] s1]; cbn [fst snd] in *;
    [| by rewrite Hfs].
  destruct listing as [| p rest]; [cbn; by rewrite Hfs |].
  unfold bind.
  assert (st_fs s1 !! path
          = Some {| f_doc := Some (JObj kvs); f_writable := wr |}) as Hf1
    by (by rewrite Hfs).
  pose proof (script_for_each_keeps path kvs wr sk (p :: rest) false s1 Hf1 Hx)
    as Hk.
  destruct (Script.for_each w sk false (p :: rest) s1) as [[[] | e] s2];
    cbn in *; by rewrite Hk, Hfs.
Qed.

Lemma package_run_keeps path kvs wr keys listing s :
  st_fs s !! path = Some {| f_doc := Some (JObj kvs); f_writable := wr |} ->
  dict_get "executed" kvs = Some (JBool true) ->
  st_fs (snd (Package.process_tasks w keys listing s)) !! path
  = st_fs s !! path.
Proof.
  intros Hf Hx. unfold Package.process_tasks, bind at 1.
  destruct (safe_load_secret_keys 0%nat keys s ltac:(lia)) as [(Hfs & _) _].
  destruct (load_secret_keys keys s) as [[sk | e] s1]; cbn [fst snd] in *;
    [| by rewrite Hfs].
  destruct listing as [| p rest]; [cbn; by rewrite Hfs |].
  unfold bind.
  assert (st_fs s1 !! path
          = Some {| f_doc := Some (JObj kvs); f_writable := wr |}) as Hf1
    by (by rewrite Hfs).
  pose proof (package_for_each_keeps path kvs wr sk (p :: rest) false s1 Hf1 Hx)
    as Hk.
  destruct (Package.for_each w sk false (p :: rest) s1) as [[[] | e] s2];
    cbn in *; by rewrite Hk, Hfs.
Qed.
End Runs.

(** C1.  A record whose [executed] is [true] is skipped by both variants
    as soon as the flag is read: whatever its [trigger_time] and
    [timezone] are (they are never looked at: no parser of the runtime
    is involved and the clock is not read), processing it only prints
    the two lines "checking" and "skipped"; nothing is sent, the flag
    [files_changed] and the files are as before.  And whatever else a
    run processes, with whatever outcome, the file of such a record is
    the same after the run: once [executed] is [true] it stays. *)
Theorem executed_is_terminal {RT : Runtime} (w : world) (path : string)
  (kvs : list (string * json)) (wr : bool) :
  dict_get "executed" kvs = Some (JBool true) ->
  (forall sk fc s,
     st_fs s !! path
       = Some {| f_doc := Some (JObj kvs); f_writable := wr |} ->
     let skipped :=
       with_trace
         (st_trace s ++ [Print (MsgChecking path); Print MsgSkipExecuted])
         (with_heap (fst (build (JObj kvs) (st_heap s))) s) in
     Script.process_file w sk fc path s = (Ok fc, skipped) /\
     Package.process_file w sk fc path s = (Ok fc, skipped)) /\
  (forall keys listing s,
     st_fs s !! path
       = Some {| f_doc := Some (JObj kvs); f_writable := wr |} ->
     st_fs (snd (Script.process_tasks w keys listing s)) !! path
       = st_fs s !! path /\
     st_fs (snd (Package.process_tasks w keys listing s)) !! path
       = st_fs s !! path).
Proof.
  intros Hx. split.
  - intros sk fc s Hf. split.
    + by apply script_skip with wr.
    + by apply package_skip with wr.
  - intros keys listing s Hf. split.
    + by eapply script_run_keeps.
    + by eapply package_run_keeps.
Qed.

Lemma record_get_str h d vkvs kvs k t :
  record_at h d vkvs kvs -> dict_get k kvs = Some (JStr t) ->
  dict_get k vkvs = Some (VStr t).
Proof.
  intros [_ Hm] Hk. pose proof (members_get _ _ _ k Hm) as Hg.
  destruct (dict_get k vkvs) as [v |]; [| congruence].
  destruct Hg as (j & Hv & Hj). rewrite Hk in Hj. injection Hj as <-.
  by rewrite (dump_str_inv _ _ _ _ Hv).
Qed.

Lemma record_get_none h d vkvs kvs k :
  record_at h d vkvs kvs -> dict_get k kvs = None -> dict_get k vkvs = None.
Proof.
  intros [_ Hm] Hk. pose proof (members_get _ _ _ k Hm) as Hg.
  destruct (dict_get k vkvs) as [v |]; [| done].
  destruct Hg as (j & _ & Hj). congruence.
Qed.

Lemma record_timezone h d vkvs kvs name :
  record_at h d vkvs kvs -> timezone_of kvs = Some name ->
  default (VStr DEFAULT_TIMEZONE) (dict_get "timezone" vkvs) = VStr name.
Proof.
  intros Hr. unfold timezone_of.
  destruct (dict_get "timezone" kvs) as [j |] eqn:Hk.
  - destruct j; try done. intros [= ->].
    by rewrite (record_get_str _ _ _ _ _ _ Hr Hk).
  - intros [= <-]. by rewrite (record_get_none _ _ _ _ _ Hr Hk).
Qed.



Section Timed.
Context {RT : Runtime} (w : world).

(** The evaluation of a record that is not executed, has a trigger
    time in the format and names a zone that exists, in the script:
    the clock is read once, the delay printed, and the window test
    decides. *)
Lemma script_evaluate_timed sk fc path s d vkvs kvs t naive name z :
  record_at (st_heap s) d vkvs kvs ->
  dict_get "executed" kvs <> Some (JBool true) ->
  dict_get "trigger_time" kvs = Some (JStr t) -> strptime t = Some naive ->
  timezone_of kvs = Some name -> tzdata name = TzFound z ->
  let now := clock w (st_ticks s) in
  let diff := tz_fromutc z now - naive in
  let current_time := Aware (tz_fromutc z now) now (tz_key z, None) in
  let s1 :=
    with_trace
      (st_trace s ++
       [Print (MsgTimes (replace_tzinfo naive z) current_time);
        Print (MsgDelay diff)])
      (with_ticks (S (st_ticks s)) s) in
  Script.evaluate w sk fc path (VRef d) s =
  if in_window (diff_minutes diff) then
    Script.dispatch w sk (VRef d) current_time path fc s1
  else (report_outside (diff_minutes diff) ;; ret fc) s1.
Proof.
  intros Hr Hx Ht Hp Hn Hz now diff current_time s1.
  unfold Script.evaluate. unfold bind at 1.
  rewrite (py_get_record _ d vkvs kvs) by done.
  destruct (is_True _) eqn:Hi;
    [by apply (record_executed _ _ _ _ Hr) in Hi |].
  unfold bind at 1. rewrite (py_get_record _ d vkvs kvs) by done.
  unfold bind at 1. rewrite (py_get_record _ d vkvs kvs) by done.
  rewrite (record_get_str _ _ _ _ _ _ Hr Ht), (record_timezone _ _ _ _ _ Hr Hn).
  cbn [from_option id].
  assert (t <> "") as Hne by (intros ->; rewrite strptime_empty in Hp; done).
  unfold bind at 1, py_truthy, bind at 1, read_heap, ret. cbn [truthy].
  apply String.eqb_neq in Hne. rewrite Hne. cbn [negb].
  unfold bind at 1, Script.read_times, try_except, bind at 1,
    datetime_strptime. rewrite Hp. unfold ret at 1.
  unfold bind at 1, ZoneInfo. rewrite Hz. unfold ret at 1.
  unfold bind at 1, Script.get_current_time, bind at 1, try_except,
    bind at 1, ZoneInfo. rewrite Hz. unfold ret at 1.
  unfold now_zoneinfo, bind at 1, read_clock, ret at 1.
  unfold ret at 1. unfold ret at 1.
  unfold bind at 1, lift, replace_tzinfo, dt_sub, tzobj_eqb.
  cbn [fst snd]. rewrite String.eqb_refl. cbn [andb].
  unfold bind at 1, print, emit. unfold bind at 1.
  subst now diff current_time s1. cbn [st_trace with_trace].
  rewrite <- app_assoc. by destruct (in_window _).
Qed.

(** The same in the package, where the delay is the time elapsed
    since the instant the trigger time denotes in its zone. *)
Lemma package_evaluate_timed sk fc path s d vkvs kvs t naive name z :
  record_at (st_heap s) d vkvs kvs ->
  dict_get "executed" kvs <> Some (JBool true) ->
  dict_get "trigger_time" kvs = Some (JStr t) -> strptime t = Some naive ->
  timezone_of kvs = Some name -> tzdata name = TzFound z ->
  let now := clock w (st_ticks s) in
  let diff := now - tz_toutc z naive in
  let current_time :=
    Aware (tz_fromutc z now) now (tz_key z, Some (tz_fromutc z now - now)) in
  let s1 :=
    with_trace
      (st_trace s ++
       [Print (MsgTimes (pytz_localize z naive) current_time);
        Print (MsgDelay diff)])
      (with_ticks (S (st_ticks s)) s) in
  Package.evaluate w sk fc path (VRef d) s =
  if in_window (diff_minutes diff) then
    Package.dispatch w sk (VRef d) current_time path fc s1
  else (report_outside (diff_minutes diff) ;; ret fc) s1.
Proof.
  intros Hr Hx Ht Hp Hn Hz now diff current_time s1.
  unfold Package.evaluate. unfold bind at 1.
  rewrite (py_get_record _ d vkvs kvs) by done.
  destruct (is_True _) eqn:Hi;
    [by apply (record_executed _ _ _ _ Hr) in Hi |].
  unfold bind at 1. rewrite (py_get_record _ d vkvs kvs) by done.
  unfold bind at 1. rewrite (py_get_record _ d vkvs kvs) by done.
  rewrite (record_get_str _ _ _ _ _ _ Hr Ht), (record_timezone _ _ _ _ _ Hr Hn).
  cbn [from_option id].
  assert (t <> "") as Hne by (intros ->; rewrite strptime_empty in Hp; done).
  unfold bind at 1, py_truthy, bind at 1, read_heap, ret. cbn [truthy].
  apply String.eqb_neq in Hne. rewrite Hne. cbn [negb].
  unfold bind at 1, Package.read_times, try_except, bind at 1,
    pytz_timezone. rewrite Hz. unfold ret at 1.
  unfold bind at 1, datetime_strptime. rewrite Hp. unfold ret at 1.
  unfold bind at 1, Package.get_current_time, bind at 1, try_except,
    bind at 1, pytz_timezone. rewrite Hz. unfold ret at 1.
  unfold now_pytz, bind at 1, read_clock, ret at 1.
  unfold ret at 1. unfold ret at 1.
  unfold bind at 1, lift, pytz_localize, dt_sub, tzobj_eqb.
  cbn [fst snd]. rewrite String.eqb_refl. cbn [andb].
  fold now.
  assert ((if tz_fromutc z now - now =? naive - tz_toutc z naive
           then Ok (tz_fromutc z now - naive)
           else Ok (now - tz_toutc z naive)) = Ok diff) as ->.
  { destruct (Z.eqb_spec (tz_fromutc z now - now) (naive - tz_toutc z naive));
      unfold diff; f_equal; lia. }
  unfold bind at 1, print, emit. unfold bind at 1.
  subst current_time s1. cbn [st_trace with_trace].
  rewrite <- app_assoc. by destruct (in_window _).
Qed.
End Timed.


Section Timed.
Context {RT : Runtime} (w : world).
Variables (sk : val) (fc : bool) (path : string) (s : state).
Variables (kvs : list (string * json)) (wr : bool).
Variables (t : string) (naive : Z) (name : string) (z : tzinfo).
Hypothesis Hf :
  st_fs s !! path = Some {| f_doc := Some (JObj kvs); f_writable := wr |}.
Hypothesis Hx : dict_get "executed" kvs <> Some (JBool true).
Hypothesis Ht : dict_get "trigger_time" kvs = Some (JStr t).
Hypothesis Hp : strptime t = Some naive.
Hypothesis Hn : timezone_of kvs = Some name.
Hypothesis Hz : tzdata name = TzFound z.

Let now := clock w (st_ticks s).
Let h := fst (build (JObj kvs) (st_heap s)).
Let data := snd (build (JObj kvs) (st_heap s)).

(** The script up to the window test. *)
Lemma script_file_timed :
  let diff := tz_fromutc z now - naive in
  let at_test :=
    timed path h (replace_tzinfo naive z) (now_script z now) diff s in
  Script.process_file w sk fc path s
  = (if in_window (diff_minutes diff)
     then Script.dispatch w sk data (now_script z now) path fc at_test
     else (report_outside (diff_minutes diff) ;; ret fc) at_test).
Proof using All.
  intros diff at_test.
  pose (s0 := with_trace (st_trace s ++ [Print (MsgChecking path)]) s).
  destruct (json_load_object path s0 kvs wr Hf)
    as (d & h' & vkvs & Hb & Hl & Hd & Hr).
  change (build (JObj kvs) (st_heap s) = (h', VRef d)) in Hb.
  assert (h = h') as <- by (subst h; by rewrite Hb).
  assert (data = VRef d) as -> by (subst data; by rewrite Hb).
  unfold Script.process_file, bind at 1, print, emit.
  unfold bind at 1, try_except. fold s0. rewrite Hl.
  rewrite (script_evaluate_timed w sk fc path (with_heap h s0) d vkvs kvs
             t naive name z) by done.
  cbn [st_ticks st_trace with_heap with_trace s0].
  fold now. fold diff. fold (now_script z now).
  replace (with_trace _ (with_ticks _ (with_heap h s0))) with at_test;
    [done |].
  subst at_test s0. unfold timed, with_trace, with_ticks, with_heap. cbn.
  by rewrite <- app_assoc.
Qed.

(** The package up to the window test. *)
Lemma package_file_timed :
  let diff := now - tz_toutc z naive in
  let at_test :=
    timed path h (pytz_localize z naive) (now_package z now) diff s in
  Package.process_file w sk fc path s
  = (if in_window (diff_minutes diff)
     then Package.dispatch w sk data (now_package z now) path fc at_test
     else (report_outside (diff_minutes diff) ;; ret fc) at_test).
Proof using All.
  intros diff at_test.
  pose (s0 := with_trace (st_trace s ++ [Print (MsgChecking path)]) s).
  destruct (json_load_object path s0 kvs wr Hf)
    as (d & h' & vkvs & Hb & Hl & Hd & Hr).
  change (build (JObj kvs) (st_heap s) = (h', VRef d)) in Hb.
  assert (h = h') as <- by (subst h; by rewrite Hb).
  assert (data = VRef d) as -> by (subst data; by rewrite Hb).
  unfold Package.process_file, bind at 1, print, emit.
  unfold bind at 1, try_except. fold s0. rewrite Hl.
  rewrite (package_evaluate_timed w sk fc path (with_heap h s0) d vkvs kvs
             t naive name z) by done.
  cbn [st_ticks st_trace with_heap with_trace s0].
  fold now. fold diff. fold (now_package z now).
  replace (with_trace _ (with_ticks _ (with_heap h s0))) with at_test;
    [done |].
  subst at_test s0. unfold timed, with_trace, with_ticks, with_heap. cbn.
  by rewrite <- app_assoc.
Qed.
End Timed.


(** ** Observations on a trace *)

Lemma wire_app t u : wire (t ++ u) = wire t ++ wire u.
Proof. apply List.filter_app. Qed.

Lemma attempts_app t u : attempts (t ++ u) = attempts t ++ attempts u.
Proof. apply omap_app. Qed.

Lemma added_app s s' t : st_trace s' = st_trace s ++ t -> added s s' = t.
Proof. intros E. unfold added. rewrite E. apply drop_app_length. Qed.

Lemma wire_print m t : wire (Print m :: t) = wire t.
Proof. done. Qed.

Lemma wire_sleep n t : wire (Sleep n :: t) = Sleep n :: wire t.
Proof. done. Qed.

Lemma attempts_sending n t :
  attempts (Print (MsgSending n) :: t) = n :: attempts t.
Proof. done. Qed.

Lemma attempts_sleep n t : attempts (Sleep n :: t) = attempts t.
Proof. done. Qed.

Lemma attempts_success c t : attempts (Print (MsgSuccess c) :: t) = attempts t.
Proof. done. Qed.

Lemma attempts_rejected c t :
  attempts (Print (MsgRejected c) :: t) = attempts t.
Proof. done. Qed.

Lemma attempts_fault t : attempts (Print MsgNetworkError :: t) = attempts t.
Proof. done. Qed.

Section Delivery.
Context (w : world).

Lemma script_send_spec method url payload s :
  Script.send w method url payload s
  = (Ok (transport w (st_sent s)),
     exchanged (script_request method url (dumps (st_heap s) payload)) s).
Proof.
  unfold Script.send, script_request, bind, read_heap, exchange.
  by destruct (String.eqb method "GET").
Qed.

Lemma package_send_spec method url payload s :
  Package.send w method url payload s
  = (Ok (transport w (st_sent s)),
     exchanged (package_request method url (dumps (st_heap s) payload)) s).
Proof. done. Qed.

Section Loop.
Context (send : M response) (on_wait : M unit) (h : list obj)
  (req : event) (note : list event).
Hypothesis send_spec : forall s,
  st_heap s = h -> send s = (Ok (transport w (st_sent s)), exchanged req s).
Hypothesis on_wait_spec : forall s, on_wait s = (Ok tt, logged note s).

Lemma attempts_loop_cons attempt rest s :
  st_heap s = h ->
  attempts_loop send on_wait (attempt :: rest) s =
  let s1 := exchanged req (logged [Print (MsgSending attempt)] s) in
  match transport w (st_sent s) with
  | Status code =>
      if is_success code then
        (Ok true, logged [Print (MsgSuccess code)] s1)
      else
        attempts_loop send on_wait rest
          (paused note attempt (logged [Print (MsgRejected code)] s1))
  | TransportFault =>
      attempts_loop send on_wait rest
        (paused note attempt (logged [Print MsgNetworkError] s1))
  end.
Proof.
  intros Hh. cbn [attempts_loop]. unfold bind at 1, print, emit.
  unfold bind at 1. rewrite send_spec by done.
  cbn [st_sent with_trace]. cbv zeta.
  destruct (transport w (st_sent s)) as [code |].
  - destruct (is_success code); [done |].
    unfold bind at 1. cbn [emit]. unfold bind at 1. unfold paused.
    destruct (attempt <? MAX_RETRIES).
    + unfold bind at 1. rewrite on_wait_spec. unfold emit, logged.
      cbn. by rewrite <- app_assoc.
    + done.
  - unfold bind at 1. cbn [emit]. unfold bind at 1. unfold paused.
    destruct (attempt <? MAX_RETRIES).
    + unfold bind at 1. rewrite on_wait_spec. unfold emit, logged.
      cbn. by rewrite <- app_assoc.
    + done.
Qed.

Hypothesis note_wire : wire note = [].
Hypothesis note_attempts : attempts note = [].
Hypothesis req_wire : forall t, wire (req :: t) = req :: wire t.
Hypothesis req_attempts : forall t, attempts (req :: t) = attempts t.

Lemma attempts_loop_spec s :
  st_heap s = h ->
  let r k := transport w (st_sent s + k)%nat in
  let spec := delivery_spec req (r 0%nat) (r 1%nat) (r 2%nat) in
  exists s',
    attempts_loop send on_wait (py_range 1 (MAX_RETRIES + 1)) s
    = (Ok (fst (fst spec)), s') /\
    st_heap s' = st_heap s /\ st_fs s' = st_fs s /\
    st_ticks s' = st_ticks s /\
    wire (added s s') = snd (fst spec) /\
    attempts (added s s') = snd spec /\
    st_sent s' = (st_sent s + length (snd spec))%nat /\
    st_trace s' = st_trace s ++ added s s'.
Proof.
  intros Hh r spec. subst spec r. cbv beta.
  change (py_range 1 (MAX_RETRIES + 1)) with [1; 2; 3].
  unfold delivery_spec. rewrite Nat.add_0_r.
  replace (st_sent s + 1)%nat with (S (st_sent s)) by lia.
  replace (st_sent s + 2)%nat with (S (S (st_sent s))) by lia.
  assert (wire [] = []) as wire_nil by done.
  assert (attempts [] = []) as attempts_nil by done.
  rewrite attempts_loop_cons by done. cbv zeta.
  destruct (transport w (st_sent s)) as [c1 |]; cbn [succeeded];
    [destruct (is_success c1) |].
  2, 3: rewrite attempts_loop_cons by done; cbv zeta;
    unfold paused, logged, exchanged;
    change (1 <? MAX_RETRIES) with true;
    cbn [st_sent with_trace with_sent];
    (destruct (transport w (S (st_sent s))) as [c2 |]; cbn [succeeded];
     [destruct (is_success c2) |]).
  3, 4, 6, 7: rewrite attempts_loop_cons by done; cbv zeta;
    unfold paused, logged, exchanged;
    change (2 <? MAX_RETRIES) with true;
    cbn [st_sent with_trace with_sent];
    (destruct (transport w (S (S (st_sent s)))) as [c3 |];
     cbn [succeeded]; [destruct (is_success c3) |]).
  all: cbn [attempts_loop ret];
    eexists; (split; [reflexivity |]);
    unfold paused, logged, exchanged;
    try change (3 <? MAX_RETRIES) with false;
    cbn [st_heap st_fs st_ticks st_sent st_trace with_trace with_sent
         fst snd];
    rewrite <- ?app_assoc;
    (erewrite added_app; [| reflexivity]);
    repeat (rewrite ?wire_app, ?attempts_app, ?wire_print, ?wire_sleep,
              ?attempts_sending, ?attempts_sleep, ?attempts_success,
              ?attempts_rejected, ?attempts_fault, ?req_wire,
              ?req_attempts, ?note_wire, ?note_attempts, ?wire_nil,
              ?attempts_nil; cbn [app]);
    repeat split; try done; cbn [length]; lia.
Qed.
End Loop.
End Delivery.

(** ** The key list of a payload *)

Lemma dict_get_set_eq {A} k (v : A) kvs : dict_get k (dict_set k v kvs) = Some v.
Proof.
  induction kvs as [| [k' v'] r IH]; simpl.
  - by rewrite String.eqb_refl.
  - destruct (String.eqb k k') eqn:E; simpl; by rewrite E.
Qed.

Lemma dict_get_set_ne {A} k k' (v : A) kvs :
  k <> k' -> dict_get k' (dict_set k v kvs) = dict_get k' kvs.
Proof.
  intros Hne. induction kvs as [| [k0 v0] r IH]; simpl.
  - apply String.eqb_neq in Hne. by rewrite String.eqb_sym, Hne.
  - destruct (String.eqb k k0) eqn:E; simpl; [| by rewrite IH].
    apply String.eqb_eq in E as <-.
    apply String.eqb_neq in Hne. by rewrite String.eqb_sym, Hne.
Qed.

Lemma device_keys_set p members keys h :
  h !! p = Some (ODict members) ->
  device_keys (keys_set p members keys h) (VRef p) = Some keys.
Proof.
  intros Hp. pose proof (lookup_lt_Some _ _ _ Hp) as Hlt.
  unfold device_keys, keys_set, as_dict, as_list.
  rewrite list_lookup_insert_eq by (rewrite length_app; simpl; lia).
  rewrite dict_get_set_eq.
  rewrite list_lookup_insert_ne by lia.
  by rewrite list_lookup_middle.
Qed.

(** The other objects stay where they are. *)
Lemma keys_set_other p members keys h l :
  l <> p -> (l < length h)%nat -> keys_set p members keys h !! l = h !! l.
Proof.
  intros Hne Hl. unfold keys_set.
  rewrite list_lookup_insert_ne by done. by apply lookup_app_l.
Qed.

Lemma device_keys_inv h payload keys :
  device_keys h payload = Some keys ->
  exists p members l,
    payload = VRef p /\ h !! p = Some (ODict members) /\
    dict_get "device_keys" members = Some (VRef l) /\
    h !! l = Some (OList keys).
Proof.
  unfold device_keys, as_dict, as_list.
  destruct payload as [| | | | p]; try done.
  destruct (h !! p) as [[xs | members] |] eqn:Hp; try done.
  destruct (dict_get "device_keys" members) as [[| | | | l] |] eqn:Hk; try done.
  destruct (h !! l) as [[xs |] |] eqn:Hl; try done.
  intros [= <-]. by exists p, members, l.
Qed.

Lemma bind_ok {A B} (m : M A) (f : A -> M B) s a s' :
  m s = (Ok a, s') -> bind m f s = f a s'.
Proof. intros E. unfold bind. by rewrite E. Qed.

Lemma py_getitem_dict s p members k v :
  st_heap s !! p = Some (ODict members) -> dict_get k members = Some v ->
  py_getitem (VRef p) k s = (Ok v, s).
Proof.
  intros Hp Hk. unfold py_getitem, bind, read_heap. by rewrite Hp, Hk.
Qed.

Lemma py_setitem_dict s p members k v :
  st_heap s !! p = Some (ODict members) ->
  py_setitem (VRef p) k v s
  = (Ok tt, with_heap (<[p := ODict (dict_set k v members)]> (st_heap s)) s).
Proof. intros Hp. unfold py_setitem. by rewrite Hp. Qed.

Lemma new_object_spec o s :
  new_object o s
  = (Ok (VRef (length (st_heap s))), with_heap (st_heap s ++ [o]) s).
Proof. done. Qed.

(** [payload["device_keys"] = <a new list of keys>] *)
Lemma assign_keys s p members keys :
  st_heap s !! p = Some (ODict members) ->
  (fresh <- new_object (OList keys) ;;
   py_setitem (VRef p) "device_keys" fresh) s
  = (Ok tt, with_heap (keys_set p members keys (st_heap s)) s).
Proof.
  intros Hp. erewrite bind_ok; [| apply new_object_spec].
  erewrite py_setitem_dict.
  - done.
  - cbn [st_heap with_heap]. by apply lookup_app_l_Some.
Qed.

Section Injection.
Context {RT : Runtime}.

Lemma append_mode_spec payload keys0 keys s :
  device_keys (st_heap s) payload = Some keys0 ->
  forallb hashable (keys0 ++ keys) = true ->
  exists p members,
    payload = VRef p /\ st_heap s !! p = Some (ODict members) /\
    append_mode payload keys s =
    (Ok tt,
     with_heap (keys_set p members (list_of_set (keys0 ++ keys)) (st_heap s))
       (with_trace (st_trace s ++ [Print MsgAppendKeys]) s)).
Proof.
  intros Hk Hh.
  destruct (device_keys_inv _ _ _ Hk) as (p & members & l & -> & Hp & Hd & Hl).
  exists p, members. do 2 (split; [done |]).
  unfold append_mode.
  erewrite bind_ok; [| reflexivity].
  erewrite bind_ok; [| by eapply py_getitem_dict].
  erewrite bind_ok; [| reflexivity].
  erewrite bind_ok;
    [| unfold lift, merged, as_list; cbn [st_heap with_trace];
       rewrite Hl, Hh; reflexivity].
  by rewrite (assign_keys _ p members).
Qed.

Lemma substitute_spec aliases items : forall acc s,
  forallb hashable items = true ->
  substitute aliases items acc s =
  (Ok (acc ++ map (aliased aliases) items),
   with_trace (st_trace s ++ alias_log aliases items) s).
Proof.
  induction items as [| item rest IH]; intros acc s Hh.
  - simpl. unfold ret. rewrite !app_nil_r. by destruct s.
  - cbn [forallb] in Hh. apply andb_true_iff in Hh as [Hi Hr].
    cbn [substitute alias_log map]. rewrite Hi. unfold aliased at 1.
    destruct (alias_lookup aliases item) as [key |].
    + unfold bind, print, emit. rewrite IH by done.
      cbn. by rewrite <- !app_assoc.
    + rewrite IH by done. cbn. by rewrite <- !app_assoc.
Qed.

Lemma alias_mode_spec payload aliases keys0 s :
  device_keys (st_heap s) payload = Some keys0 ->
  forallb hashable keys0 = true ->
  exists p members,
    payload = VRef p /\ st_heap s !! p = Some (ODict members) /\
    alias_mode payload aliases s =
    (Ok tt,
     with_heap (keys_set p members (alias_result aliases keys0) (st_heap s))
       (with_trace (st_trace s ++ alias_trace aliases keys0) s)).
Proof.
  intros Hk Hh.
  destruct (device_keys_inv _ _ _ Hk) as (p & members & l & -> & Hp & Hd & Hl).
  exists p, members. do 2 (split; [done |]).
  unfold alias_mode.
  erewrite bind_ok; [| by eapply py_getitem_dict].
  erewrite bind_ok;
    [| unfold py_truthy, bind, read_heap, ret; cbn [truthy];
       rewrite Hl; reflexivity].
  assert (
    (items <- py_iter (VRef l) ;; substitute aliases items []) s
    = (Ok (map (aliased aliases) keys0),
       with_trace (st_trace s ++ alias_log aliases keys0) s) ) as Hloop.
  { erewrite bind_ok;
      [| unfold py_iter, bind, read_heap, ret; rewrite Hl; reflexivity].
    by rewrite substitute_spec. }
  destruct keys0 as [| k0 ks], aliases as [| a als];
    cbn [negb andb alias_result alias_trace].
  - rewrite bool_decide_eq_true_2 by done. cbn [negb andb].
    erewrite bind_ok; [| apply Hloop].
    by rewrite (assign_keys _ p members).
  - rewrite bool_decide_eq_false_2 by done. cbn [negb andb].
    erewrite bind_ok; [| reflexivity].
    by rewrite (assign_keys _ p members).
  - erewrite bind_ok; [| apply Hloop].
    by rewrite (assign_keys _ p members).
  - erewrite bind_ok; [| apply Hloop].
    by rewrite (assign_keys _ p members).
Qed.
End Injection.

Lemma hashable_strings (xs : list string) : forallb hashable (VStr <$> xs) = true.
Proof. by induction xs. Qed.

Lemma strings_inv (l : list val) :
  (forall v, v ∈ l -> exists x, v = VStr x) -> exists r, l = VStr <$> r.
Proof.
  induction l as [| v l IH]; intros H; [by exists [] |].
  destruct (H v) as [x ->]; [left |].
  destruct IH as [r ->]; [intros u Hu; apply H; by right |].
  by exists (x :: r).
Qed.

Lemma py_eq_str x v : py_eq (VStr x) v = true -> v = VStr x.
Proof.
  destruct v; try done. simpl. intros E. by apply String.eqb_eq in E as ->.
Qed.

Lemma distinct_strings (r : list string) : distinct (VStr <$> r) -> NoDup r.
Proof.
  induction r as [| x r IH]; [constructor |].
  inversion 1 as [| ? ? Hx Hd]; subst. constructor; [| by apply IH].
  intros Hin. specialize (Hx (VStr x) (list_elem_of_fmap_2 VStr _ _ Hin)).
  simpl in Hx. by rewrite String.eqb_refl in Hx.
Qed.

Lemma aliased_strings aliases (ds : list string) :
  map (aliased aliases) (VStr <$> ds)
  = map (fun alias => default (VStr alias) (dict_get alias aliases)) ds.
Proof. induction ds as [| d ds IH]; [done |]. cbn. by rewrite <- IH. Qed.

Section Resolution.
Context {RT : Runtime}.

(** [list(set(l))] of a list of strings: the strings of [l], each
    once. *)
Lemma list_of_set_strings (xs : list string) :
  exists r, list_of_set (VStr <$> xs) = VStr <$> r /\ NoDup r /\
            forall x, x ∈ r <-> x ∈ xs.
Proof.
  destruct (strings_inv (list_of_set (VStr <$> xs))) as [r Hr].
  { intros v Hv. apply list_of_set_sound in Hv.
    apply list_elem_of_fmap in Hv as (x & -> & _). by exists x. }
  exists r. split; [done |]. split.
  - apply distinct_strings. rewrite <- Hr. apply list_of_set_distinct.
  - intros x. split.
    + intros Hx. apply (list_elem_of_fmap_2 VStr) in Hx.
      rewrite <- Hr in Hx. apply list_of_set_sound in Hx.
      apply list_elem_of_fmap in Hx as (y & [= ->] & Hy). done.
    + intros Hx. apply (list_elem_of_fmap_2 VStr) in Hx.
      apply list_of_set_complete in Hx as (y & Hy & E); [| done].
      apply py_eq_str in E as ->. rewrite Hr in Hy.
      apply list_elem_of_fmap in Hy as (y & [= ->] & Hy). done.
Qed.

Lemma inject_keys_same payload sk s :
  inject_keys_package payload sk s = inject_keys_script payload sk s.
Proof.
  unfold inject_keys_package, inject_keys_script, bind, read_heap.
  unfold as_list, as_dict. destruct sk as [| | | | l]; try done.
  by destruct (st_heap s !! l) as [[[| k ks] | a] |].
Qed.

Lemma inject_list payload sk s keys :
  as_list (st_heap s) sk = Some keys ->
  inject_keys_script payload sk s =
  match keys with
  | [] => (Ok tt, s)
  | _ :: _ => append_mode payload keys s
  end.
Proof.
  intros Hk. unfold inject_keys_script, bind, read_heap. rewrite Hk.
  by destruct keys.
Qed.

Lemma inject_dict payload sk s aliases :
  as_dict (st_heap s) sk = Some aliases ->
  inject_keys_script payload sk s = alias_mode payload aliases s.
Proof.
  intros Hk. unfold inject_keys_script, bind, read_heap.
  assert (as_list (st_heap s) sk = None) as ->; [| by rewrite Hk].
  unfold as_dict, as_list in *. destruct sk as [| | | | l]; try done.
  by destruct (st_heap s !! l) as [[] |].
Qed.

Lemma keys_set_as_list p members ks (h : list obj) v xs :
  h !! p = Some (ODict members) -> as_list h v = Some xs ->
  as_list (keys_set p members ks h) v = Some xs.
Proof.
  intros Hp. unfold as_list. destruct v as [| | | | l]; try done.
  destruct (h !! l) as [[ys |] |] eqn:Hl; try done. intros [= ->].
  rewrite keys_set_other, Hl; [done | congruence |].
  by apply lookup_lt_Some in Hl.
Qed.

Lemma keys_set_as_dict p members ks (h : list obj) v a :
  h !! p = Some (ODict members) -> v <> VRef p -> as_dict h v = Some a ->
  as_dict (keys_set p members ks h) v = Some a.
Proof.
  intros Hp Hne. unfold as_dict. destruct v as [| | | | l]; try done.
  destruct (h !! l) as [[| ys] |] eqn:Hl; try done. intros [= ->].
  rewrite keys_set_other, Hl; [done | congruence |].
  by apply lookup_lt_Some in Hl.
Qed.
End Resolution.

(** C8.  With a list-form credential set, both variants leave in the
    outgoing payload a key list that is, as a set, the union of the
    declared keys and the credential list, each value once: no declared
    key is lost and a value present in both appears once.  With an
    empty list nothing is done and the declared keys stay as they are. *)
Theorem list_form_is_union {RT : Runtime} (payload secret_keys : val)
  (s : state) (declared keys : list string) :
  device_keys (st_heap s) payload = Some (VStr <$> declared) ->
  as_list (st_heap s) secret_keys = Some (VStr <$> keys) ->
  exists s1 resolved,
    inject_keys_script payload secret_keys s = (Ok tt, s1) /\
    inject_keys_package payload secret_keys s = (Ok tt, s1) /\
    device_keys (st_heap s1) payload = Some (VStr <$> resolved) /\
    (keys = [] -> s1 = s /\ resolved = declared) /\
    (keys <> [] ->
     NoDup resolved /\ forall x, x ∈ resolved <-> x ∈ declared \/ x ∈ keys).
Proof.
  intros Hd Hk. rewrite inject_keys_same, (inject_list _ _ _ _ Hk).
  destruct keys as [| k ks].
  - exists s, declared. by repeat split.
  - destruct (append_mode_spec payload (VStr <$> declared) (VStr <$> k :: ks) s Hd)
      as (p & members & -> & Hp & ->).
    { rewrite <- fmap_app. apply hashable_strings. }
    rewrite <- fmap_app.
    destruct (list_of_set_strings (declared ++ k :: ks)) as (r & -> & Hnd & Hin).
    eexists _, r. do 2 (split; [reflexivity |]). split.
    { cbn [st_heap with_heap with_trace]. by apply device_keys_set. }
    split; [done |]. intros _. split; [done |].
    intros x. rewrite Hin. apply elem_of_app.
Qed.

(** C9.  With a map-form credential set, both variants leave in the
    outgoing payload the declared list with every alias that is a key
    of the map replaced by the value the map gives it and every other
    entry kept as it is, in the declared order; when nothing is declared
    and the map is not empty, the list is all the values of the map. *)
Theorem map_form_substitutes {RT : Runtime} (payload secret_keys : val)
  (s : state) (declared : list string) (aliases : list (string * val)) :
  device_keys (st_heap s) payload = Some (VStr <$> declared) ->
  as_dict (st_heap s) secret_keys = Some aliases ->
  let resolved :=
    match declared, aliases with
    | [], _ :: _ => dict_values aliases
    | _, _ =>
        map (fun alias => default (VStr alias) (dict_get alias aliases))
          declared
    end in
  exists s1,
    inject_keys_script payload secret_keys s = (Ok tt, s1) /\
    inject_keys_package payload secret_keys s = (Ok tt, s1) /\
    device_keys (st_heap s1) payload = Some resolved.
Proof.
  intros Hd Hk resolved. rewrite inject_keys_same, (inject_dict _ _ _ _ Hk).
  destruct (alias_mode_spec payload aliases (VStr <$> declared) s Hd)
    as (p & members & -> & Hp & ->); [apply hashable_strings |].
  eexists. do 2 (split; [reflexivity |]).
  cbn [st_heap with_heap with_trace]. rewrite device_keys_set by done.
  f_equal. subst resolved. unfold alias_result.
  destruct declared as [| d ds]; [by destruct aliases |].
  apply (aliased_strings aliases (d :: ds)).
Qed.

Lemma dict_get_alias_map k (m : list (string * string)) :
  dict_get k (alias_map m) = VStr <$> dict_get k m.
Proof.
  induction m as [| [k' v] m IH]; [done |]. simpl.
  by destruct (String.eqb k k').
Qed.

Lemma dict_values_alias_map (m : list (string * string)) :
  dict_values (alias_map m) = VStr <$> m.*2.
Proof. induction m as [| [k v] m IH]; [done |]. cbn. by rewrite <- IH. Qed.

Section Twice.
Context {RT : Runtime}.

(** Every entry strategy B produces from a map whose values are no
    aliases is left alone by a second pass. *)
Lemma alias_result_settled (m : list (string * string)) (ds : list string) :
  (forall v, v ∈ m.*2 -> dict_get v m = None) ->
  Forall (fun u => hashable u = true /\ aliased (alias_map m) u = u)
    (alias_result (alias_map m) (VStr <$> ds)).
Proof.
  intros Hm.
  assert (forall v, v ∈ m.*2 ->
            hashable (VStr v) = true /\ aliased (alias_map m) (VStr v) = VStr v)
    as Hval.
  { intros v Hv. split; [done |]. unfold aliased, alias_lookup.
    by rewrite dict_get_alias_map, (Hm v Hv). }
  assert (Forall (fun u => hashable u = true /\ aliased (alias_map m) u = u)
            (map (aliased (alias_map m)) (VStr <$> ds))) as Hmap.
  { induction ds as [| d ds IH]; [constructor |].
    rewrite fmap_cons. cbn [map]. constructor; [| done].
    assert (aliased (alias_map m) (VStr d)
            = match dict_get d m with Some v => VStr v | None => VStr d end)
      as ->.
    { unfold aliased, alias_lookup. rewrite dict_get_alias_map.
      by destruct (dict_get d m). }
    destruct (dict_get d m) as [v |] eqn:Hd.
    - apply Hval. apply list_elem_of_fmap. exists (d, v). split; [done |].
      clear -Hd. induction m as [| [k' v'] m IH]; [done |]. simpl in Hd.
      destruct (String.eqb_spec d k') as [-> | _].
      + injection Hd as ->. left.
      + right. by apply IH.
    - split; [done |]. unfold aliased, alias_lookup.
      by rewrite dict_get_alias_map, Hd. }
  unfold alias_result. destruct ds as [| d ds]; [| done].
  destruct m as [| kv m]; [done |].
  rewrite dict_values_alias_map. apply Forall_forall.
  intros u Hu. apply list_elem_of_fmap in Hu as (v & -> & Hv). by apply Hval.
Qed.

Lemma alias_result_again aliases (once : list val) :
  Forall (fun u => hashable u = true /\ aliased aliases u = u) once ->
  (once = [] -> aliases = []) ->
  alias_result aliases once = once.
Proof.
  intros Hs.
  assert (map (aliased aliases) once = once) as Hmap.
  { induction Hs as [| u us [_ Hu] _ IH]; [done |].
    cbn [map]. by rewrite Hu, IH. }
  intros Hne. unfold alias_result.
  destruct once as [| u us]; [| done].
  by rewrite (Hne eq_refl).
Qed.

Lemma alias_result_nil aliases keys0 :
  alias_result aliases keys0 = [] -> aliases = [].
Proof.
  unfold alias_result. destruct keys0 as [| k ks], aliases as [| a als];
    try done.
Qed.
End Twice.

(** C10, as far as it holds.  Resolving the outcome of a resolution
    again, with the same credential set: a list-form set gives the same
    set of keys as resolving once; a map-form set whose values are
    strings none of which is itself a key of the map gives the same
    sequence as resolving once. *)
Theorem resolution_twice {RT : Runtime} (payload secret_keys : val)
  (s : state) (declared : list string)
  (inject : val -> val -> M unit) :
  inject = inject_keys_script \/ inject = inject_keys_package ->
  device_keys (st_heap s) payload = Some (VStr <$> declared) ->
  secret_keys <> payload ->
  (forall keys : list string,
     as_list (st_heap s) secret_keys = Some (VStr <$> keys) ->
     exists s1 s2 once twice,
       inject payload secret_keys s = (Ok tt, s1) /\
       inject payload secret_keys s1 = (Ok tt, s2) /\
       device_keys (st_heap s1) payload = Some (VStr <$> once) /\
       device_keys (st_heap s2) payload = Some (VStr <$> twice) /\
       forall x, x ∈ twice <-> x ∈ once) /\
  (forall aliases : list (string * string),
     as_dict (st_heap s) secret_keys = Some (alias_map aliases) ->
     (forall v, v ∈ aliases.*2 -> dict_get v aliases = None) ->
     exists s1 s2 once,
       inject payload secret_keys s = (Ok tt, s1) /\
       inject payload secret_keys s1 = (Ok tt, s2) /\
       device_keys (st_heap s1) payload = Some once /\
       device_keys (st_heap s2) payload = Some once).
Proof.
  intros Hi Hd Hne.
  assert (forall p k st, inject p k st = inject_keys_script p k st) as Hinj.
  { intros p k st. destruct Hi as [-> | ->]; [done | apply inject_keys_same]. }
  split.
  - intros keys Hk. rewrite !Hinj.
    destruct (list_form_is_union payload secret_keys s declared keys Hd Hk)
      as (s1 & once & H1 & _ & Hd1 & Hnil & Hcons).
    destruct keys as [| k ks].
    { destruct (Hnil eq_refl) as [-> ->].
      exists s, s, declared, declared. rewrite Hinj. by repeat split. }
    destruct (Hcons ltac:(done)) as [_ Hin1].
    assert (as_list (st_heap s1) secret_keys = Some (VStr <$> k :: ks)) as Hk1.
    { rewrite (inject_list _ _ _ _ Hk) in H1.
      destruct (append_mode_spec payload (VStr <$> declared) (VStr <$> k :: ks) s Hd)
        as (p & members & -> & Hp & E).
      { rewrite <- fmap_app. apply hashable_strings. }
      rewrite E in H1. injection H1 as <-. cbn [st_heap with_heap with_trace].
      by apply keys_set_as_list. }
    destruct (list_form_is_union payload secret_keys s1 once (k :: ks) Hd1 Hk1)
      as (s2 & twice & H2 & _ & Hd2 & _ & Hcons2).
    destruct (Hcons2 ltac:(done)) as [_ Hin2].
    exists s1, s2, once, twice. rewrite Hinj. do 4 (split; [done |]).
    intros x. rewrite Hin2, Hin1. tauto.
  - intros aliases Hk Hm. rewrite !Hinj.
    rewrite (inject_dict _ _ _ _ Hk).
    destruct (alias_mode_spec payload (alias_map aliases) (VStr <$> declared) s Hd)
      as (p & members & -> & Hp & ->); [apply hashable_strings |].
    set (once := alias_result (alias_map aliases) (VStr <$> declared)).
    set (s1 := with_heap _ _).
    assert (device_keys (st_heap s1) (VRef p) = Some once) as Hd1
      by (by apply device_keys_set).
    assert (as_dict (st_heap s1) secret_keys = Some (alias_map aliases)) as Hk1
      by (by apply keys_set_as_dict).
    pose proof (alias_result_settled aliases declared Hm) as Hs. fold once in Hs.
    exists s1. rewrite Hinj, (inject_dict _ _ _ _ Hk1).
    destruct (alias_mode_spec (VRef p) (alias_map aliases) once s1 Hd1)
      as (p' & members' & [= <-] & Hp' & ->).
    { apply forallb_forall. intros u Hu. rewrite Forall_forall in Hs.
      apply Hs. by apply list_elem_of_In. }
    eexists _, once. do 3 (split; [done |]).
    cbn [st_heap with_heap with_trace]. rewrite device_keys_set by done.
    f_equal. apply alias_result_again; [done |]. apply alias_result_nil.
Qed.

Lemma script_delivers (w : world) (method : string) (url payload : val)
  (s : state) :
  delivers w (Script.deliver w method url payload)
    (script_request method url (dumps (st_heap s) payload)) s.
Proof.
  apply attempts_loop_spec with (h := st_heap s) (note := [Print MsgWaiting]);
    try done.
  - intros s0 <-. apply script_send_spec.
  - intros t. unfold script_request. by destruct (String.eqb _ _).
  - intros t. unfold script_request. by destruct (String.eqb _ _).
Qed.

Lemma package_delivers (w : world) (method : string) (url payload : val)
  (s : state) :
  delivers w (Package.deliver w method url payload)
    (package_request method url (dumps (st_heap s) payload)) s.
Proof.
  apply attempts_loop_spec with (h := st_heap s) (note := []); try done.
  - intros s0 <-. apply package_send_spec.
  - intros s0. unfold logged, ret. rewrite app_nil_r. by destruct s0.
Qed.

(** C5.  The delivery loop of both variants does what section 4.3 says:
    attempts are numbered from 1, at most 3 are made, an attempt
    succeeds exactly on a status from 200 to 299 and then ends the
    delivery as delivered; a failed attempt, by status or by transport
    fault, is followed by a pause of 2 seconds when it was not the
    third, and after three failures the delivery has failed.  The
    three scenarios of the specification are instances. *)
Theorem delivery_protocol (w : world) (method : string) (url payload : val)
  (s : state) :
  delivers w (Script.deliver w method url payload)
    (script_request method url (dumps (st_heap s) payload)) s /\
  delivers w (Package.deliver w method url payload)
    (package_request method url (dumps (st_heap s) payload)) s /\
  (forall code, succeeded (Status code) = true <-> 200 <= code < 300) /\
  succeeded TransportFault = false /\
  (forall req r2 r3,
     delivery_spec req (Status 200) r2 r3 = (true, [req], [1])) /\
  (forall req,
     delivery_spec req (Status 500) (Status 500) (Status 500)
     = (false, [req; Sleep 2; req; Sleep 2; req], [1; 2; 3])) /\
  (forall req,
     delivery_spec req (Status 500) (Status 500) (Status 200)
     = (true, [req; Sleep 2; req; Sleep 2; req], [1; 2; 3])).
Proof.
  split; [| split].
  - apply script_delivers.
  - apply package_delivers.
  - split; [| by repeat split].
    intros code. unfold succeeded, is_success.
    rewrite andb_true_iff, Z.leb_le, Z.ltb_lt. done.
Qed.


Section Slips.
Context {RT : Runtime} (w : world).

(** With any runtime: a record that is not executed and has a trigger
    time in the format, in a zone the zone data does not know, ends
    the evaluation of both variants with the [KeyError] of the lookup,
    before the clock is read. *)
Lemma unknown_zone_raises sk fc path s d vkvs kvs t naive name :
  record_at (st_heap s) d vkvs kvs ->
  dict_get "executed" kvs <> Some (JBool true) ->
  dict_get "trigger_time" kvs = Some (JStr t) -> strptime t = Some naive ->
  timezone_of kvs = Some name -> tzdata name = TzUnknown ->
  Script.evaluate w sk fc path (VRef d) s = (Raise KeyError, s) /\
  Package.evaluate w sk fc path (VRef d) s = (Raise KeyError, s).
Proof.
  intros Hr Hx Ht Hp Hn Hz.
  assert (t <> "") as Hne by (intros ->; rewrite strptime_empty in Hp; done).
  apply String.eqb_neq in Hne.
  split.
  - unfold Script.evaluate. unfold bind at 1.
    rewrite (py_get_record _ d vkvs kvs) by done.
    destruct (is_True _) eqn:Hi;
      [by apply (record_executed _ _ _ _ Hr) in Hi |].
    unfold bind at 1. rewrite (py_get_record _ d vkvs kvs) by done.
    unfold bind at 1. rewrite (py_get_record _ d vkvs kvs) by done.
    rewrite (record_get_str _ _ _ _ _ _ Hr Ht),
      (record_timezone _ _ _ _ _ Hr Hn).
    cbn [from_option id].
    unfold bind at 1, py_truthy, bind at 1, read_heap, ret. cbn [truthy].
    rewrite Hne. cbn [negb].
    unfold bind at 1, Script.read_times, try_except, bind at 1,
      datetime_strptime. rewrite Hp. unfold ret at 1.
    unfold bind at 1, ZoneInfo. rewrite Hz. done.
  - unfold Package.evaluate. unfold bind at 1.
    rewrite (py_get_record _ d vkvs kvs) by done.
    destruct (is_True _) eqn:Hi;
      [by apply (record_executed _ _ _ _ Hr) in Hi |].
    unfold bind at 1. rewrite (py_get_record _ d vkvs kvs) by done.
    unfold bind at 1. rewrite (py_get_record _ d vkvs kvs) by done.
    rewrite (record_get_str _ _ _ _ _ _ Hr Ht),
      (record_timezone _ _ _ _ _ Hr Hn).
    cbn [from_option id].
    unfold bind at 1, py_truthy, bind at 1, read_heap, ret. cbn [truthy].
    rewrite Hne. cbn [negb].
    unfold bind at 1, Package.read_times, try_except, bind at 1,
      pytz_timezone. rewrite Hz. done.
Qed.

(** With any runtime: when the file of a delivered record cannot be
    written, the script is left with the [OSError]; the package
    catches it, prints that the save failed and returns the flag as it
    was.  Neither touches the files. *)
Lemma failed_save ct path fc s d vkvs kvs :
  record_at (st_heap s) d vkvs kvs ->
  f_writable <$> st_fs s !! path = Some false ->
  exists s1,
    st_fs s1 = st_fs s /\ st_trace s1 = st_trace s /\
    Script.complete (VRef d) ct path fc true s = (Raise OSError, s1) /\
    Package.complete (VRef d) ct path fc true s
    = (Ok fc, with_trace (st_trace s ++ [Print MsgSaveFailed]) s1).
Proof.
  intros Hr Hw.
  destruct (stamps_then_dump path d vkvs kvs (strftime (dt_wall ct)) s Hr)
    as (s1 & Hs1 & Hfs & Htr & _ & _ & [[Hdump _] | [Hno _]]); [| done].
  exists s1. do 2 (split; [done |]).
  unfold Script.complete, Package.complete.
  unfold bind in Hs1.
  split.
  - unfold bind at 1.
    destruct (py_setitem (VRef d) "executed" (VBool true) s) as [[[] | e] s0];
      [| done].
    unfold bind at 1. rewrite Hs1. unfold bind at 1. by rewrite Hdump.
  - unfold bind at 1.
    destruct (py_setitem (VRef d) "executed" (VBool true) s) as [[[] | e] s0];
      [| done].
    unfold bind at 1. rewrite Hs1. unfold bind at 1, try_except.
    rewrite Hdump. cbn. by rewrite Htr.
Qed.
End Slips.

(** ** A task as the data model has it *)



Lemma build_object_record kvs (h : list obj) :
  exists d h' vkvs,
    build (JObj kvs) h = (h', VRef d) /\ extends h h' /\
    (length h <= d < length h')%nat /\ record_at h' d vkvs kvs.
Proof.
  rewrite build_obj.
  destruct (build_members_spec kvs h) as (ext & vkvs & -> & Hlen & Hm).
  simpl. exists (length (h ++ ext)), ((h ++ ext) ++ [ODict vkvs]), vkvs.
  split; [done |]. split.
  { rewrite <- app_assoc. apply extends_app. }
  split; [rewrite !length_app; simpl; lia |]. split.
  - by apply list_lookup_middle.
  - rewrite take_app_length.
    erewrite dump_list_ext; [done | | exact Hm].
    apply Forall_forall. intros [k v] _ [k' j]. unfold dump_member. simpl.
    destruct (dump _ _ v) as [j' |] eqn:Hv; [| done].
    erewrite dump_mono; [done | | apply extends_refl | exact Hv].
    rewrite length_app. lia.
Qed.




Lemma as_list_extends (h h' : list obj) v xs :
  extends h h' -> as_list h v = Some xs -> as_list h' v = Some xs.
Proof.
  intros He. unfold as_list. destruct v as [| | | | l]; try done.
  destruct (h !! l) as [o |] eqn:Hl; [| done]. by rewrite (He _ _ Hl).
Qed.













Section Prepare.
Context {RT : Runtime}.




Lemma steps_trans s1 s2 s3 log1 log2 :
  steps s1 s2 log1 -> steps s2 s3 log2 -> steps s1 s3 (log1 ++ log2).
Proof.
  intros (T1 & F1 & S1 & K1) (T2 & F2 & S2 & K2). unfold steps.
  rewrite T2, T1, app_assoc. repeat split; congruence.
Qed.


Lemma bind_ext {A B} (m : M A) (f g : A -> M B) s :
  (forall a s', f a s' = g a s') -> bind m f s = bind m g s.
Proof. intros H. unfold bind. by destruct (m s) as [[a | e] s']. Qed.

Lemma prepare_same sk data s :
  Package.prepare sk data s = Script.prepare sk data s.
Proof.
  unfold Package.prepare, Script.prepare.
  apply bind_ext. intros url s1. apply bind_ext. intros method s2.
  apply bind_ext. intros payload s3. unfold bind.
  by rewrite inject_keys_same.
Qed.

Lemma record_method h d vkvs kvs m :
  record_at h d vkvs kvs -> method_of kvs = Some m ->
  default (VStr "POST") (dict_get "method" vkvs) = VStr m.
Proof.
  intros Hr. unfold method_of.
  destruct (dict_get "method" kvs) as [j |] eqn:Hk.
  - destruct j; try done. intros [= ->].
    by rewrite (record_get_str _ _ _ _ _ _ Hr Hk).
  - intros [= <-]. by rewrite (record_get_none _ _ _ _ _ Hr Hk).
Qed.

End Prepare.

Section Dispatch.
Context {RT : Runtime} (w : world).

(** The end of a dispatch in the script. *)
Lemma script_complete_spec ct path fc delivered s d vkvs kvs wr :
  record_at (st_heap s) d vkvs kvs ->
  f_writable <$> st_fs s !! path = Some wr ->
  let stamp := strftime (dt_wall ct) in
  let written := delivered && wr in
  exists s' log,
    Script.complete (VRef d) ct path fc delivered s
    = (if delivered then if wr then Ok true else Raise OSError else Ok fc,
       s') /\
    st_trace s' = st_trace s ++ log /\
    wire log =
      (if written then [WriteFile path (stamped stamp kvs)] else []) /\
    attempts log = [] /\
    st_fs s' =
      (if written then <[path := saved stamp kvs]> (st_fs s) else st_fs s) /\
    st_sent s' = st_sent s.
Proof.
  intros Hr Hw stamp written. subst written.
  destruct delivered; cbn [andb].
  2: { exists (with_trace (st_trace s ++ [Print MsgGaveUp]) s),
         [Print MsgGaveUp]. done. }
  destruct (stamps_then_dump path d vkvs kvs stamp s Hr)
    as (s1 & Hs1 & Hfs & Htr & Hsent & _ & Hdump).
  unfold Script.complete. unfold bind in Hs1. unfold bind at 1.
  destruct (py_setitem (VRef d) "executed" (VBool true) s) as [[[] | e] s0];
    [| done].
  unfold bind at 1. fold stamp. rewrite Hs1. unfold bind at 1.
  destruct Hdump as [[-> Hno] | [Hyes ->]].
  - rewrite Hw in Hno. injection Hno as ->.
    exists s1, []. rewrite app_nil_r. done.
  - destruct wr; [| done].
    eexists _, [WriteFile path (stamped stamp kvs); Print MsgSaved].
    split; [reflexivity |].
    cbn [st_trace st_fs st_sent with_trace with_fs].
    rewrite <- app_assoc. done.
Qed.

(** The end of a dispatch in the package. *)
Lemma package_complete_spec ct path fc delivered s d vkvs kvs wr :
  record_at (st_heap s) d vkvs kvs ->
  f_writable <$> st_fs s !! path = Some wr ->
  let stamp := strftime (dt_wall ct) in
  let written := delivered && wr in
  exists s' log,
    Package.complete (VRef d) ct path fc delivered s
    = (if delivered then if wr then Ok true else Ok fc else Ok fc, s') /\
    st_trace s' = st_trace s ++ log /\
    wire log =
      (if written then [WriteFile path (stamped stamp kvs)] else []) /\
    attempts log = [] /\
    st_fs s' =
      (if written then <[path := saved stamp kvs]> (st_fs s) else st_fs s) /\
    st_sent s' = st_sent s.
Proof.
  intros Hr Hw stamp written. subst written.
  destruct delivered; cbn [andb].
  2: { exists (with_trace (st_trace s ++ [Print MsgGaveUp]) s),
         [Print MsgGaveUp]. done. }
  destruct (stamps_then_dump path d vkvs kvs stamp s Hr)
    as (s1 & Hs1 & Hfs & Htr & Hsent & _ & Hdump).
  unfold Package.complete. unfold bind in Hs1. unfold bind at 1.
  destruct (py_setitem (VRef d) "executed" (VBool true) s) as [[[] | e] s0];
    [| done].
  unfold bind at 1. fold stamp. rewrite Hs1. unfold bind at 1, try_except.
  destruct Hdump as [[-> Hno] | [Hyes ->]].
  - rewrite Hw in Hno. injection Hno as ->.
    eexists _, [Print MsgSaveFailed]. split; [reflexivity |].
    cbn [st_trace st_fs st_sent with_trace]. by rewrite Htr.
  - destruct wr; [| done].
    eexists _, [WriteFile path (stamped stamp kvs); Print MsgSaved].
    split; [reflexivity |].
    cbn [st_trace st_fs st_sent with_trace with_fs].
    rewrite <- app_assoc. done.
Qed.



End Dispatch.



(** C3: the code does not do this.  A task whose zone is unknown ends
    the run of both variants with the [KeyError] of the zone lookup,
    which [except ValueError] does not catch: the fallback of
    [get_current_time] is never reached, nothing is logged about the
    zone, and the task after it is not looked at. *)
Theorem unknown_zone_ends_the_run :
  let script :=
    Script.process_tasks (RT := demo_runtime) (ten_past 200) one_key
      [a_json; b_json] (initial unknown_zone_store) in
  let package :=
    Package.process_tasks (RT := demo_runtime) (ten_past 200) one_key
      [a_json; b_json] (initial unknown_zone_store) in
  fst script = Raise KeyError /\
  st_trace (snd script) = [Print MsgKeysLoaded; Print (MsgChecking a_json)] /\
  fst package = Raise KeyError /\
  st_trace (snd package) = [Print MsgKeysLoaded; Print (MsgChecking a_json)].
Proof. vm_compute. done. Qed.

(** C6: the package does this, the script does not.  When the file of a
    delivered task cannot be written, the package prints that the save
    failed and goes on to the next task; the script is ended by the
    [OSError] of the write, and the next task is not looked at. *)
Theorem failed_save_ends_the_script :
  let script :=
    Script.process_tasks (RT := demo_runtime) (ten_past 200) one_key
      [a_json; b_json] (initial read_only_store) in
  let package :=
    Package.process_tasks (RT := demo_runtime) (ten_past 200) one_key
      [a_json; b_json] (initial read_only_store) in
  fst script = Raise OSError /\
  omap (fun e => match e with Print (MsgChecking p) => Some p | _ => None end)
    (st_trace (snd script)) = [a_json] /\
  length (wire (st_trace (snd script))) = 1%nat /\
  fst package = Ok tt /\
  omap (fun e => match e with Print (MsgChecking p) => Some p | _ => None end)
    (st_trace (snd package)) = [a_json; b_json] /\
  (Print MsgSaveFailed ∈ st_trace (snd package)) /\
  st_sent (snd package) = 2%nat /\
  st_fs (snd package) !! a_json = read_only_store !! a_json /\
  (f_doc <$> st_fs (snd package) !! b_json)
  = Some (Some (stamped "2024-05-01 12:10:00" (task_members "UTC" "POST"))).
Proof.
  vm_compute. repeat split; try done.
  apply list_elem_of_In. vm_compute. tauto.
Qed.


(** C10 as stated fails for a map in which the value of one alias is
    itself an alias: resolving once gives ["b"], resolving the outcome
    again gives ["c"]. *)
Lemma alias_chain_resolves_further :
  let s := on_heap chain_heap in
  let once := snd (inject_keys_script (RT := demo_runtime) (VRef 1) (VRef 2) s) in
  let twice :=
    snd (inject_keys_script (RT := demo_runtime) (VRef 1) (VRef 2) once) in
  device_keys (st_heap s) (VRef 1) = Some [VStr "a"] /\
  device_keys (st_heap once) (VRef 1) = Some [VStr "b"] /\
  device_keys (st_heap twice) (VRef 1) = Some [VStr "c"] /\
  device_keys (st_heap twice) (VRef 1) <> device_keys (st_heap once) (VRef 1).
Proof. vm_compute. by repeat split. Qed.

Lemma executed_is_terminal_witness :
  dict_get "executed" done_members = Some (JBool true) /\
  Script.process_file (RT := demo_runtime) (ten_past 200) VNone false a_json
    (initial done_store)
  = Package.process_file (RT := demo_runtime) (ten_past 200) VNone false a_json
      (initial done_store) /\
  st_fs (snd (Package.process_tasks (RT := demo_runtime) (ten_past 200) one_key
                [a_json] (initial done_store))) !! a_json
  = done_store !! a_json.
Proof.
  split; [reflexivity |].
  destruct (executed_is_terminal (RT := demo_runtime) (ten_past 200) a_json
              done_members true eq_refl) as [Hskip Hkeep].
  split.
  - destruct (Hskip VNone false (initial done_store) eq_refl) as [-> ->].
    reflexivity.
  - apply (Hkeep one_key [a_json] (initial done_store) eq_refl).
Defined.



Lemma list_form_is_union_witness :
  let s := on_heap keys_heap in
  device_keys (st_heap s) (VRef 1) = Some (VStr <$> ["iphone"; "raw"]) /\
  as_list (st_heap s) (VRef 2) = Some (VStr <$> ["K1"; "raw"]) /\
  exists s1 resolved,
    inject_keys_script (RT := demo_runtime) (VRef 1) (VRef 2) s = (Ok tt, s1) /\
    device_keys (st_heap s1) (VRef 1) = Some (VStr <$> resolved) /\
    NoDup resolved /\
    forall x, x ∈ resolved <-> x ∈ ["iphone"; "raw"] \/ x ∈ ["K1"; "raw"].
Proof.
  cbv zeta. do 2 (split; [reflexivity |]).
  destruct (list_form_is_union (RT := demo_runtime) (VRef 1) (VRef 2)
              (on_heap keys_heap) ["iphone"; "raw"] ["K1"; "raw"]
              eq_refl eq_refl)
    as (s1 & resolved & Hs & _ & Hd & _ & Hcons).
  exists s1, resolved. do 2 (split; [done |]). by apply Hcons.
Defined.

Lemma map_form_substitutes_witness :
  let s := on_heap keys_heap in
  device_keys (st_heap s) (VRef 1) = Some (VStr <$> ["iphone"; "raw"]) /\
  as_dict (st_heap s) (VRef 3)
  = Some [("iphone", VStr "K1"); ("ipad", VStr "K2")] /\
  exists s1,
    inject_keys_script (RT := demo_runtime) (VRef 1) (VRef 3) s = (Ok tt, s1) /\
    inject_keys_package (RT := demo_runtime) (VRef 1) (VRef 3) s = (Ok tt, s1) /\
    device_keys (st_heap s1) (VRef 1) = Some [VStr "K1"; VStr "raw"].
Proof.
  cbv zeta. do 2 (split; [reflexivity |]).
  apply (map_form_substitutes (RT := demo_runtime) (VRef 1) (VRef 3)
           (on_heap keys_heap) ["iphone"; "raw"]
           [("iphone", VStr "K1"); ("ipad", VStr "K2")] eq_refl eq_refl).
Defined.

Lemma resolution_twice_witness :
  let s := on_heap keys_heap in
  device_keys (st_heap s) (VRef 1) = Some (VStr <$> ["iphone"; "raw"]) /\
  VRef 3 <> VRef 1 /\
  as_dict (st_heap s) (VRef 3)
  = Some (alias_map [("iphone", "K1"); ("ipad", "K2")]) /\
  (forall v, v ∈ [("iphone", "K1"); ("ipad", "K2")].*2 ->
             dict_get v [("iphone", "K1"); ("ipad", "K2")] = None) /\
  exists s1 s2 once,
    inject_keys_script (RT := demo_runtime) (VRef 1) (VRef 3) s = (Ok tt, s1) /\
    inject_keys_script (RT := demo_runtime) (VRef 1) (VRef 3) s1 = (Ok tt, s2) /\
    device_keys (st_heap s1) (VRef 1) = Some once /\
    device_keys (st_heap s2) (VRef 1) = Some once.
Proof.
  cbv zeta.
  assert (forall v, v ∈ [("iphone", "K1"); ("ipad", "K2")].*2 ->
                    dict_get v [("iphone", "K1"); ("ipad", "K2")] = None) as Hm.
  { intros v Hv. cbn in Hv.
    apply elem_of_cons in Hv as [-> | Hv]; [reflexivity |].
    apply elem_of_cons in Hv as [-> | Hv]; [reflexivity |].
    by apply elem_of_nil in Hv. }
  assert (VRef 3 <> VRef 1) as Hne by discriminate.
  split; [reflexivity |]. split; [exact Hne |]. split; [reflexivity |].
  split; [exact Hm |].
  destruct (resolution_twice (RT := demo_runtime) (VRef 1) (VRef 3)
              (on_heap keys_heap) ["iphone"; "raw"] inject_keys_script
              (or_introl eq_refl) eq_refl Hne) as [_ Hmap].
  apply (Hmap [("iphone", "K1"); ("ipad", "K2")] eq_refl Hm).
Defined.


(** ** The trace as the account of a run *)

Lemma requests_app t u : requests (t ++ u) = requests t ++ requests u.
Proof. apply List.filter_app. Qed.

Lemma writes_app t u : writes (t ++ u) = writes t ++ writes u.
Proof. apply List.filter_app. Qed.

Lemma checked_app t u : checked (t ++ u) = checked t ++ checked u.
Proof. apply omap_app. Qed.

Lemma replay_app fs t u : replay fs (t ++ u) = replay (replay fs t) u.
Proof. apply foldl_app. Qed.

Lemma chatter_unchecked e : chatter e = true -> unchecked e = true.
Proof. destruct e as [m | | | | |]; try done. by destruct m. Qed.

(** Chatter is no request, no write, no pause, no attempt. *)
Lemma chatter_log log :
  forallb chatter log = true ->
  wire log = [] /\ attempts log = [] /\ checked log = [] /\
  requests log = [] /\ writes log = [] /\ forall fs, replay fs log = fs.
Proof.
  induction log as [| e log IH]; [done |].
  cbn [forallb]. rewrite andb_true_iff. intros [He Hl].
  destruct (IH Hl) as (Hw & Ha & Hc & Hr & Hwr & Hfs).
  destruct e as [m | | | | |]; try done.
  unfold wire, attempts, checked, requests, writes, replay in *.
  cbn [List.filter omap foldl apply_write is_request is_write].
  rewrite Hw, Hr, Hwr. repeat split; try done.
  - destruct m; try done; cbn [option_bind mbind]; by rewrite Ha.
  - destruct m; try done; cbn [option_bind mbind]; by rewrite Hc.
Qed.

Lemma idle_refl s : idle s s.
Proof. exists []. by rewrite app_nil_r. Qed.

Lemma idle_trans s1 s2 s3 : idle s1 s2 -> idle s2 s3 -> idle s1 s3.
Proof.
  intros (l1 & T1 & W1 & A1 & S1 & F1) (l2 & T2 & W2 & A2 & S2 & F2).
  exists (l1 ++ l2).
  rewrite T2, T1, app_assoc, wire_app, attempts_app, W1, W2, A1, A2.
  repeat split; congruence.
Qed.

Lemma idle_added s s' :
  idle s s' ->
  st_trace s' = st_trace s ++ added s s' /\ wire (added s s') = [] /\
  attempts (added s s') = [].
Proof.
  intros (log & Ht & Hw & Ha & _). by rewrite (added_app _ _ _ Ht).
Qed.

Lemma traced_idle {A} (m : M A) s : traced chatter m -> idle s (snd (m s)).
Proof.
  intros Hm. destruct (Hm s) as (log & Ht & Hc & Hs & Hf).
  destruct (chatter_log log Hc) as (Hw & Ha & _ & Hr & _ & Hfs).
  exists log. rewrite Hs, Hr, Hf, Hfs. simpl. repeat split; try done; lia.
Qed.

(** ** The rules *)

Lemma traced_weaken {A} (P P' : event -> bool) (m : M A) :
  (forall e, P e = true -> P' e = true) -> traced P m -> traced P' m.
Proof.
  intros HP Hm s. destruct (Hm s) as (log & Ht & Hl & Hs & Hf).
  exists log. repeat split; try done.
  apply forallb_forall. intros e He. apply HP.
  by apply (proj1 (forallb_forall _ _) Hl).
Qed.

(** A statement that leaves trace, files and counter as they are. *)
Lemma traced_still {A} P (m : M A) :
  (forall s, st_trace (snd (m s)) = st_trace s /\
             st_sent (snd (m s)) = st_sent s /\
             st_fs (snd (m s)) = st_fs s) ->
  traced P m.
Proof.
  intros H s. destruct (H s) as (Ht & Hs & Hf). exists [].
  rewrite app_nil_r. simpl. repeat split; try done; lia.
Qed.

Lemma traced_ret {A} P (a : A) : traced P (ret a).
Proof. by apply traced_still. Qed.

Lemma traced_raise {A} P e : traced P (raise e : M A).
Proof. by apply traced_still. Qed.

Lemma traced_lift {A} P (r : result A) : traced P (lift r).
Proof. by apply traced_still. Qed.

Lemma traced_bind {A B} P (m : M A) (f : A -> M B) :
  traced P m -> (forall a, traced P (f a)) -> traced P (bind m f).
Proof.
  intros Hm Hf s. unfold bind.
  destruct (Hm s) as (l1 & T1 & C1 & S1 & F1).
  destruct (m s) as [[a | e] s1]; simpl in *.
  - destruct (Hf a s1) as (l2 & T2 & C2 & S2 & F2).
    exists (l1 ++ l2).
    rewrite T2, T1, S2, S1, F2, F1, app_assoc, forallb_app, C1, C2,
      requests_app, length_app, replay_app.
    repeat split; try done; lia.
  - by exists l1.
Qed.

Lemma traced_try_except {A} P catches (m : M A) :
  traced P m -> traced P (try_except catches m).
Proof.
  intros Hm s. unfold try_except.
  destruct (Hm s) as (log & Ht & Hc & Hs & Hf).
  destruct (m s) as [[a | e] s1]; simpl in *; [by exists log |].
  destruct (catches e); by exists log.
Qed.

Lemma traced_print (P : event -> bool) msg :
  P (Print msg) = true -> traced P (print msg).
Proof.
  intros HP s. exists [Print msg]. simpl. rewrite HP.
  repeat split; try done; lia.
Qed.

Lemma traced_sleep (P : event -> bool) n :
  P (Sleep n) = true -> traced P (emit (Sleep n)).
Proof.
  intros HP s. exists [Sleep n]. simpl. rewrite HP.
  repeat split; try done; lia.
Qed.

Lemma traced_read_heap P : traced P read_heap.
Proof. by apply traced_still. Qed.

Lemma traced_read_clock P w : traced P (read_clock w).
Proof. by apply traced_still. Qed.

Lemma traced_new_object P o : traced P (new_object o).
Proof. by apply traced_still. Qed.

Lemma traced_py_get P v key dflt : traced P (py_get v key dflt).
Proof.
  apply traced_still. intros s. unfold py_get, bind, read_heap. simpl.
  destruct v as [| | | | l]; try done.
  by destruct (st_heap s !! l) as [[xs | kvs] |].
Qed.

Lemma traced_py_truthy P v : traced P (py_truthy v).
Proof. by apply traced_still. Qed.

Lemma traced_py_upper P v : traced P (py_upper v).
Proof. apply traced_still. intros s. by destruct v. Qed.

Lemma traced_py_contains P key c : traced P (py_contains key c).
Proof.
  apply traced_still. intros s. unfold py_contains, bind, read_heap. simpl.
  destruct c as [| | | | l]; try done.
  by destruct (st_heap s !! l) as [[xs | kvs] |].
Qed.

Lemma traced_py_getitem P c key : traced P (py_getitem c key).
Proof.
  apply traced_still. intros s. unfold py_getitem, bind, read_heap. simpl.
  destruct c as [| | | | l]; try done.
  destruct (st_heap s !! l) as [[xs | kvs] |]; try done.
  by destruct (dict_get key kvs).
Qed.

Lemma traced_py_iter P v : traced P (py_iter v).
Proof.
  apply traced_still. intros s. unfold py_iter, bind, read_heap. simpl.
  destruct v as [| | | | l]; try done.
  by destruct (st_heap s !! l) as [[xs | kvs] |].
Qed.

Lemma traced_py_setitem P c key v : traced P (py_setitem c key v).
Proof.
  apply traced_still. intros s. unfold py_setitem.
  destruct c as [| | | | l]; try done.
  by destruct (st_heap s !! l) as [[xs | kvs] |].
Qed.

Lemma traced_py_deepcopy P v : traced P (py_deepcopy v).
Proof.
  apply traced_still. intros s. unfold py_deepcopy.
  by destruct (deepcopy v (st_heap s)) as [[h v'] |].
Qed.

Lemma traced_json_loads P j : traced P (json_loads j).
Proof.
  apply traced_still. intros s. unfold json_loads.
  by destruct (build j (st_heap s)) as [h v].
Qed.

Lemma traced_json_load P path : traced P (json_load path).
Proof.
  apply traced_still. intros s. unfold json_load.
  destruct (st_fs s !! path) as [f |]; [| done].
  destruct (f_doc f) as [j |]; [| done].
  by destruct (build j (st_heap s)) as [h v].
Qed.

Lemma traced_json_dump (P : event -> bool) path data :
  (forall doc, P (WriteFile path doc) = true) ->
  traced P (json_dump path data).
Proof.
  intros HP s. unfold json_dump.
  case_bool_decide; [exists []; rewrite app_nil_r; simpl; by rewrite Nat.add_0_r |].
  destruct (dumps (st_heap s) data) as [j |].
  - exists [WriteFile path j]. simpl. rewrite HP. repeat split; try done; lia.
  - exists []. rewrite app_nil_r. simpl. by rewrite Nat.add_0_r.
Qed.

Create HintDb traced discriminated.
#[export] Hint Resolve traced_ret traced_raise traced_lift traced_read_heap
  traced_read_clock traced_new_object traced_py_get traced_py_truthy
  traced_py_upper traced_py_contains traced_py_getitem traced_py_iter
  traced_py_setitem traced_py_deepcopy traced_json_loads traced_json_load
  : traced.
#[export] Hint Extern 1 (traced _ (print _)) =>
  apply traced_print; reflexivity : traced.
#[export] Hint Extern 1 (traced _ (emit (Sleep _))) =>
  apply traced_sleep; reflexivity : traced.

(** One step through a statement. *)
Ltac traced_step :=
  match goal with
  | |- traced _ (bind _ _) =>
      apply traced_bind; [solve [eauto with traced] | intros ?]
  | |- traced _ (try_except _ _) => apply traced_try_except
  | |- traced _ (match ?x with _ => _ end) => destruct x eqn:?
  | |- traced _ (if ?x then _ else _) => destruct x eqn:?
  | |- traced _ _ => solve [eauto with traced]
  end.

Section Quiet.
Context {RT : Runtime}.

Lemma traced_datetime_strptime P v : traced P (datetime_strptime v).
Proof.
  apply traced_still. intros s. destruct v as [| | | t |]; try done.
  simpl. by destruct (strptime t).
Qed.

Lemma traced_ZoneInfo P v : traced P (ZoneInfo v).
Proof.
  apply traced_still. intros s. destruct v as [| | | t |]; try done.
  simpl. by destruct (tzdata t).
Qed.

Lemma traced_pytz_timezone P v : traced P (pytz_timezone v).
Proof.
  apply traced_still. intros s. destruct v as [| | | t |]; try done.
  simpl. by destruct (tzdata t).
Qed.

#[local] Hint Resolve traced_datetime_strptime traced_ZoneInfo
  traced_pytz_timezone : traced.

(** *** What prints at most *)

Lemma quiet_load_secret_keys e : traced chatter (load_secret_keys e).
Proof. unfold load_secret_keys. destruct e as [| [j |]]; repeat traced_step. Qed.

Lemma quiet_substitute aliases items acc :
  traced chatter (substitute aliases items acc).
Proof.
  revert acc. induction items as [| item rest IH]; intros acc; simpl.
  - apply traced_ret.
  - destruct (hashable item); [| apply traced_raise].
    destruct (alias_lookup aliases item); [| apply IH].
    apply traced_bind; [by apply traced_print | intros _; apply IH].
Qed.

Lemma quiet_append_mode payload keys :
  traced chatter (append_mode payload keys).
Proof. unfold append_mode. repeat traced_step. Qed.

Lemma quiet_alias_mode payload aliases :
  traced chatter (alias_mode payload aliases).
Proof.
  unfold alias_mode. do 2 traced_step.
  apply traced_bind.
  - destruct (_ && _); repeat traced_step. apply quiet_substitute.
  - intros. repeat traced_step.
Qed.

Lemma quiet_inject_keys_script payload secret_keys :
  traced chatter (inject_keys_script payload secret_keys).
Proof.
  unfold inject_keys_script. repeat traced_step;
    solve [apply quiet_append_mode | apply quiet_alias_mode].
Qed.

Lemma quiet_inject_keys_package payload secret_keys :
  traced chatter (inject_keys_package payload secret_keys).
Proof.
  unfold inject_keys_package. repeat traced_step;
    solve [apply quiet_append_mode | apply quiet_alias_mode].
Qed.

Lemma quiet_build_payload data : traced chatter (build_payload data).
Proof.
  unfold build_payload. do 4 traced_step.
  apply traced_bind; [| intros; apply traced_ret].
  repeat traced_step.
Qed.

Lemma quiet_script_prepare sk data : traced chatter (Script.prepare sk data).
Proof.
  unfold Script.prepare. traced_step.
  apply traced_bind; [repeat traced_step | intros method].
  apply traced_bind; [apply quiet_build_payload | intros payload].
  apply traced_bind; [apply quiet_inject_keys_script | intros _].
  apply traced_ret.
Qed.

Lemma quiet_package_prepare sk data :
  traced chatter (Package.prepare sk data).
Proof.
  unfold Package.prepare. traced_step.
  apply traced_bind; [repeat traced_step | intros method].
  apply traced_bind; [apply quiet_build_payload | intros payload].
  apply traced_bind; [apply quiet_inject_keys_package | intros _].
  apply traced_ret.
Qed.

End Quiet.

Section Accounts.
Context {RT : Runtime} (w : world).

Lemma traced_now_zoneinfo P z : traced P (now_zoneinfo w z).
Proof. by apply traced_still. Qed.

Lemma traced_now_pytz P z : traced P (now_pytz w z).
Proof. by apply traced_still. Qed.

Lemma traced_now_utc P : traced P (now_utc w).
Proof. by apply traced_still. Qed.

Lemma traced_now_local P : traced P (now_local w).
Proof. by apply traced_still. Qed.

#[local] Hint Resolve traced_datetime_strptime traced_ZoneInfo
  traced_pytz_timezone traced_now_zoneinfo traced_now_pytz traced_now_utc
  traced_now_local : traced.

Lemma quiet_script_get_current_time tz_name :
  traced chatter (Script.get_current_time w tz_name).
Proof.
  unfold Script.get_current_time.
  apply traced_bind; [| intros []; repeat traced_step].
  apply traced_try_except. repeat traced_step.
Qed.

Lemma quiet_package_get_current_time tz_name :
  traced chatter (Package.get_current_time w tz_name).
Proof.
  unfold Package.get_current_time.
  apply traced_bind; [| intros []; repeat traced_step].
  apply traced_try_except. repeat traced_step.
Qed.

Lemma quiet_script_read_times t tz :
  traced chatter (Script.read_times w t tz).
Proof.
  unfold Script.read_times. apply traced_try_except.
  do 2 traced_step.
  apply traced_bind; [apply quiet_script_get_current_time | intros].
  apply traced_ret.
Qed.

Lemma quiet_package_read_times t tz :
  traced chatter (Package.read_times w t tz).
Proof.
  unfold Package.read_times. apply traced_try_except.
  do 2 traced_step.
  apply traced_bind; [apply quiet_package_get_current_time | intros].
  apply traced_ret.
Qed.

(** *** What can send and write *)

Lemma traced_script_send method url payload :
  traced unchecked (Script.send w method url payload).
Proof.
  intros s. unfold Script.send, bind, read_heap, emit, exchange.
  destruct (String.eqb method "GET"); simpl;
    (eexists; split; [reflexivity |]); cbn; repeat split; try done; lia.
Qed.

Lemma traced_package_send method url payload :
  traced unchecked (Package.send w method url payload).
Proof.
  intros s. unfold Package.send, bind, read_heap, emit, exchange. simpl.
  (eexists; split; [reflexivity |]); cbn; repeat split; try done; lia.
Qed.

Lemma traced_attempts_loop send on_wait attempts :
  traced unchecked send -> traced unchecked on_wait ->
  traced unchecked (attempts_loop send on_wait attempts).
Proof.
  intros Hs Hw. induction attempts as [| attempt rest IH]; simpl.
  - apply traced_ret.
  - apply traced_bind; [by apply traced_print | intros _].
    apply traced_bind; [apply Hs | intros r].
    destruct r as [code |].
    + destruct (is_success code); repeat traced_step.
      apply traced_bind; [| intros; apply IH].
      destruct (_ <? _); repeat traced_step.
    + repeat traced_step.
      apply traced_bind; [| intros; apply IH].
      destruct (_ <? _); repeat traced_step.
Qed.

Lemma traced_script_deliver method url payload :
  traced unchecked (Script.deliver w method url payload).
Proof.
  apply traced_attempts_loop;
    [apply traced_script_send | by apply traced_print].
Qed.

Lemma traced_package_deliver method url payload :
  traced unchecked (Package.deliver w method url payload).
Proof.
  apply traced_attempts_loop;
    [apply traced_package_send | apply traced_ret].
Qed.

Lemma traced_script_complete data ct path fc success :
  traced unchecked (Script.complete data ct path fc success).
Proof.
  unfold Script.complete. destruct success; repeat traced_step.
  apply traced_bind; [by apply traced_json_dump | intros _].
  repeat traced_step.
Qed.

Lemma traced_package_complete data ct path fc success :
  traced unchecked (Package.complete data ct path fc success).
Proof.
  unfold Package.complete. destruct success; repeat traced_step.
  apply traced_bind.
  - apply traced_try_except. by apply traced_json_dump.
  - intros []; repeat traced_step.
Qed.

Lemma traced_script_dispatch sk data ct path fc :
  traced unchecked (Script.dispatch w sk data ct path fc).
Proof.
  unfold Script.dispatch. traced_step.
  apply traced_bind.
  { eapply traced_weaken; [apply chatter_unchecked |].
    apply quiet_script_prepare. }
  intros [[method url] payload].
  apply traced_bind; [apply traced_script_deliver | intros success].
  apply traced_script_complete.
Qed.

Lemma traced_package_dispatch sk data ct path fc :
  traced unchecked (Package.dispatch w sk data ct path fc).
Proof.
  unfold Package.dispatch. traced_step.
  apply traced_bind.
  { eapply traced_weaken; [apply chatter_unchecked |].
    apply quiet_package_prepare. }
  intros [[method url] payload].
  apply traced_bind; [apply traced_package_deliver | intros success].
  apply traced_package_complete.
Qed.

Lemma traced_report_outside m : traced unchecked (report_outside m).
Proof. unfold report_outside. destruct (Qlt_bool _ _); repeat traced_step. Qed.

Lemma traced_script_evaluate sk fc path data :
  traced unchecked (Script.evaluate w sk fc path data).
Proof.
  unfold Script.evaluate. traced_step.
  destruct (is_True _); [repeat traced_step |].
  do 3 traced_step. destruct (negb _); [apply traced_ret |].
  apply traced_bind.
  { eapply traced_weaken; [apply chatter_unchecked |].
    apply quiet_script_read_times. }
  intros [[trigger_time current_time] | e]; [| repeat traced_step].
  do 3 traced_step.
  destruct (in_window _); [apply traced_script_dispatch |].
  apply traced_bind; [apply traced_report_outside | intros; apply traced_ret].
Qed.

Lemma traced_package_evaluate sk fc path data :
  traced unchecked (Package.evaluate w sk fc path data).
Proof.
  unfold Package.evaluate. traced_step.
  destruct (is_True _); [repeat traced_step |].
  do 3 traced_step. destruct (negb _); [apply traced_ret |].
  apply traced_bind.
  { eapply traced_weaken; [apply chatter_unchecked |].
    apply quiet_package_read_times. }
  intros [[trigger_time current_time] | e]; [| repeat traced_step].
  do 3 traced_step.
  destruct (in_window _); [apply traced_package_dispatch |].
  apply traced_bind; [apply traced_report_outside | intros; apply traced_ret].
Qed.
End Accounts.

(** ** The account of a whole run *)

Lemma unchecked_log log : forallb unchecked log = true -> checked log = [].
Proof.
  induction log as [| e log IH]; [done |].
  cbn [forallb]. rewrite andb_true_iff. intros [He Hl].
  destruct e as [m | | | | |]; [destruct m | ..]; try done; exact (IH Hl).
Qed.

Lemma requests_checking path log :
  requests (Print (MsgChecking path) :: log) = requests log.
Proof. done. Qed.

Lemma replay_checking fs path log :
  replay fs (Print (MsgChecking path) :: log) = replay fs log.
Proof. done. Qed.

Section Runs.
Context {RT : Runtime} (w : world).

Lemma announced_intro path (rest : M bool) s :
  traced unchecked rest ->
  announced path s (snd ((print (MsgChecking path) ;; rest) s)).
Proof.
  intros Hrest. unfold bind, print, emit. cbn [fst snd].
  destruct (Hrest (with_trace (st_trace s ++ [Print (MsgChecking path)]) s))
    as (log & Ht & Hu & Hs & Hf).
  exists log. rewrite Ht, Hs, Hf. cbn [st_trace with_trace].
  by rewrite <- app_assoc.
Qed.

Lemma script_process_file_announced sk fc path s :
  announced path s (snd (Script.process_file w sk fc path s)).
Proof.
  apply announced_intro.
  apply traced_bind; [apply traced_try_except; eauto with traced |].
  intros [data | e]; [apply traced_script_evaluate | repeat traced_step].
Qed.

Lemma package_process_file_announced sk fc path s :
  announced path s (snd (Package.process_file w sk fc path s)).
Proof.
  apply announced_intro.
  apply traced_bind; [apply traced_try_except; eauto with traced |].
  intros [data | e]; [apply traced_package_evaluate | repeat traced_step].
Qed.

(** The loop over the listing, for a body that announces its file. *)
Lemma for_each_accounted (body : bool -> string -> M bool)
  (loop : bool -> list string -> M bool) :
  (forall fc path s, announced path s (snd (body fc path s))) ->
  (forall fc, loop fc [] = ret fc) ->
  (forall fc path rest,
     loop fc (path :: rest)
     = (changed <- body fc path ;; loop changed rest)) ->
  forall listing fc s, accounted listing s (loop fc listing s).
Proof.
  intros Hbody Hnil Hcons listing.
  induction listing as [| path rest IH]; intros fc s.
  - rewrite Hnil. unfold accounted. cbn [ret fst snd].
    rewrite (added_app s s []) by (by rewrite app_nil_r).
    rewrite app_nil_r. cbn. repeat split; try done; lia.
  - rewrite Hcons. unfold bind.
    destruct (Hbody fc path s) as (log & Ht & Hu & Hs & Hf).
    destruct (body fc path s) as [[changed | e] s1]; cbn [snd] in *.
    + destruct (IH changed s1) as (Ht2 & Hp2 & Hall2 & Hs2 & Hf2).
      unfold accounted. cbv zeta.
      set (out := loop changed rest s1) in *.
      assert (added s (snd out)
              = Print (MsgChecking path) :: log ++ added s1 (snd out)) as Ha.
      { apply added_app. rewrite Ht2, Ht, <- app_assoc. done. }
      rewrite Ha. split; [by rewrite Ht2, Ht, <- app_assoc |].
      change (Print (MsgChecking path) :: log ++ added s1 (snd out))
        with ([Print (MsgChecking path)] ++ log ++ added s1 (snd out)).
      rewrite !checked_app, !requests_app, !replay_app, !length_app.
      rewrite (unchecked_log log Hu). cbn [checked omap app].
      split; [by apply prefix_cons |].
      split; [intros Hok; by rewrite (Hall2 Hok) |].
      split; [rewrite Hs2, Hs; cbn; lia |].
      by rewrite Hf2, Hf.
    + unfold accounted. cbn [fst snd].
      rewrite (added_app s s1 _ Ht).
      change (Print (MsgChecking path) :: log)
        with ([Print (MsgChecking path)] ++ log).
      rewrite !checked_app, (unchecked_log log Hu).
      split; [done |]. cbn [checked omap app].
      split; [apply prefix_cons, prefix_nil |].
      split; [by intros [a Ha] |]. done.
Qed.

Lemma script_for_each_accounted sk listing fc s :
  accounted listing s (Script.for_each w sk fc listing s).
Proof.
  apply (for_each_accounted
           (fun fc path => Script.process_file w sk fc path)
           (Script.for_each w sk)); try done.
  intros. apply script_process_file_announced.
Qed.

Lemma package_for_each_accounted sk listing fc s :
  accounted listing s (Package.for_each w sk fc listing s).
Proof.
  apply (for_each_accounted
           (fun fc path => Package.process_file w sk fc path)
           (Package.for_each w sk)); try done.
  intros. apply package_process_file_announced.
Qed.

(** A statement that announces no file, before or after the loop. *)
Lemma accounted_before {A B} listing (m : M A) (f : A -> M B) s :
  traced unchecked m ->
  (forall a s1, accounted listing s1 (f a s1)) ->
  accounted listing s (bind m f s).
Proof.
  intros Hm Hf. unfold bind.
  destruct (Hm s) as (log & Ht & Hu & Hs & Hfs).
  destruct (m s) as [[a | e] s1]; cbn [snd] in *.
  - destruct (Hf a s1) as (Ht2 & Hp2 & Hall2 & Hs2 & Hf2).
    unfold accounted. cbv zeta. set (out := f a s1) in *.
    assert (added s (snd out) = log ++ added s1 (snd out)) as Ha.
    { apply added_app. by rewrite Ht2, Ht, <- app_assoc. }
    rewrite Ha, !checked_app, !requests_app, !replay_app, !length_app,
      (unchecked_log log Hu).
    split; [by rewrite Ht2, Ht, <- app_assoc |].
    do 2 (split; [done |]).
    split; [rewrite Hs2, Hs; lia | by rewrite Hf2, Hfs].
  - unfold accounted. cbn [fst snd]. rewrite (added_app s s1 _ Ht).
    rewrite (unchecked_log log Hu).
    split; [done |]. split; [apply prefix_nil |].
    split; [by intros [a Ha] | done].
Qed.

Lemma accounted_after {A B} listing (m : M A) (f : A -> M B) s :
  accounted listing s (m s) ->
  (forall a, traced unchecked (f a)) ->
  accounted listing s (bind m f s).
Proof.
  intros (Ht & Hp & Hall & Hs & Hf) Hk. unfold bind.
  destruct (m s) as [[a | e] s1] eqn:Hm; cbn [fst snd] in *.
  - destruct (Hk a s1) as (log & Ht2 & Hu & Hs2 & Hf2).
    unfold accounted. cbv zeta. set (out := f a s1) in *.
    assert (added s (snd out) = added s s1 ++ log) as Ha.
    { apply added_app. by rewrite Ht2, Ht, <- app_assoc. }
    rewrite Ha, !checked_app, !requests_app, !replay_app, !length_app,
      (unchecked_log log Hu), app_nil_r.
    split; [by rewrite Ht2, Ht, <- app_assoc |].
    split; [done |]. split; [intros _; apply Hall; by exists a |].
    split; [rewrite Hs2, Hs; lia | by rewrite Hf2, Hf].
  - unfold accounted. cbn [fst snd]. do 2 (split; [done |]).
    split; [by intros [a Ha] | done].
Qed.
End Runs.

Lemma run_is_accounted_both {RT : Runtime} (w : world) (keys : env_var)
  (listing : list string) (s : state) :
  accounted listing s (Script.process_tasks w keys listing s) /\
  accounted listing s (Package.process_tasks w keys listing s).
Proof.
  split.
  - unfold Script.process_tasks. apply accounted_before.
    { apply (traced_weaken chatter); [apply chatter_unchecked |].
      apply quiet_load_secret_keys. }
    intros sk s1. destruct listing as [| path rest].
    + destruct (traced_print unchecked MsgNoConfigs eq_refl s1)
        as (log & Ht & Hu & Hs & Hf).
      unfold accounted. cbn [fst snd].
      rewrite (added_app _ _ _ Ht), (unchecked_log _ Hu).
      do 2 (split; [done |]). split; [done |]. by split.
    + apply accounted_after; [apply script_for_each_accounted |].
      intros []; repeat traced_step.
  - unfold Package.process_tasks. apply accounted_before.
    { apply (traced_weaken chatter); [apply chatter_unchecked |].
      apply quiet_load_secret_keys. }
    intros sk s1. destruct listing as [| path rest].
    + destruct (traced_print unchecked MsgNoConfigs eq_refl s1)
        as (log & Ht & Hu & Hs & Hf).
      unfold accounted. rewrite (added_app _ _ _ Ht), (unchecked_log _ Hu).
      do 2 (split; [done |]). split; [done |]. by split.
    + apply accounted_after; [apply package_for_each_accounted |].
      intros []; repeat traced_step.
Qed.


(** ** Every task, whatever its file holds *)

Section Decides.
Context {RT : Runtime} (w : world).
Variables (on_failed_save : result bool) (fc wr : bool) (path : string).
Variables (d : nat) (vkvs : list (string * val)).
Variable kvs : list (string * json).

Lemma decides_ret :
  decides w on_failed_save fc wr path d vkvs kvs (ret fc).
Proof. intros s0 s _ Hi _. left. split; [done | by left]. Qed.

Lemma decides_raise e :
  decides w on_failed_save fc wr path d vkvs kvs (raise e).
Proof. intros s0 s _ Hi _. left. split; [done | right; by exists e]. Qed.

Lemma decides_bind {A} (m : M A) (f : A -> M bool) Q :
  safe (S d) m Q -> traced chatter m ->
  (forall a, decides w on_failed_save fc wr path d vkvs kvs (f a)) ->
  decides w on_failed_save fc wr path d vkvs kvs (bind m f).
Proof.
  intros Hsafe Htr Hf s0 s Hr Hi Hw.
  pose proof (lookup_lt_Some _ _ _ (proj1 Hr)) as Hd.
  destruct (Hsafe s0 Hd) as [Hframe _].
  pose proof (traced_idle m s0 Htr) as Hi1.
  unfold task_cases, dispatches, bind.
  destruct (m s0) as [[a | e] s1]; cbn [fst snd] in *.
  - apply (Hf a s1 s); [by apply (record_frame d s0 s1) |
                        by apply idle_trans with s0 | done].
  - left. split; [by apply idle_trans with s0 | right; by exists e].
Qed.

(** The delivery loop and the end of the dispatch. *)
Lemma decides_deliver (deliver : M bool) (complete : bool -> M bool)
  (request : option json -> event) (payload : val) (stamp : string) :
  (forall j, is_request (request j) = true) ->
  (forall s1, delivers w deliver (request (dumps (st_heap s1) payload)) s1) ->
  (forall (delivered : bool) s1,
     record_at (st_heap s1) d vkvs kvs ->
     f_writable <$> st_fs s1 !! path = Some wr ->
     exists s' log,
       complete delivered s1
       = (if delivered then if wr then Ok true else on_failed_save
          else Ok fc, s') /\
       st_trace s' = st_trace s1 ++ log /\
       wire log =
         (if delivered && wr then [WriteFile path (stamped stamp kvs)]
          else []) /\
       attempts log = [] /\
       st_fs s' =
         (if delivered && wr then <[path := saved stamp kvs]> (st_fs s1)
          else st_fs s1) /\
       st_sent s' = st_sent s1) ->
  decides w on_failed_save fc wr path d vkvs kvs
    (success <- deliver ;; complete success).
Proof.
  intros Hreq Hdel Hcom s0 s Hr (pre & Htr0 & Hwp & Hap & Hsent0 & Hfs0) Hw.
  right. exists (request (dumps (st_heap s0) payload)), stamp.
  split; [apply Hreq |].
  destruct (Hdel s0)
    as (s3 & Hrun3 & Hh3 & Hfs3 & _ & Hw3 & Ha3 & Hsent3 & Htr3).
  rewrite Hsent0 in Hrun3, Hw3, Ha3, Hsent3.
  unfold dispatches. cbv zeta.
  set (spec := delivery_spec _ _ _ _) in *.
  destruct (Hcom (fst (fst spec)) s3)
    as (s4 & clog & Hrun4 & Htr4 & Hw4 & Ha4 & Hfs4 & Hsent4).
  { by rewrite Hh3. }
  { by rewrite Hfs3, Hfs0. }
  exists s4. split.
  { unfold bind. rewrite Hrun3. exact Hrun4. }
  assert (added s s4 = pre ++ added s0 s3 ++ clog) as ->.
  { apply added_app. rewrite Htr4, Htr3, Htr0. by rewrite <- !app_assoc. }
  rewrite !wire_app, !attempts_app, Hwp, Hap, Hw3, Ha3, Hw4, Ha4.
  cbn [app]. rewrite app_nil_r.
  do 2 (split; [done |]).
  by rewrite Hfs4, Hsent4, Hsent3, Hfs3, Hfs0.
Qed.
End Decides.

Lemma quiet_report_outside m : traced chatter (report_outside m).
Proof. unfold report_outside. destruct (Qlt_bool _ _); repeat traced_step. Qed.

#[export] Hint Resolve quiet_script_read_times quiet_package_read_times
  quiet_script_prepare quiet_package_prepare quiet_report_outside : traced.

(** One step through a statement that ends in a task's cases. *)
Ltac decides_step :=
  match goal with
  | |- decides _ _ ?fc _ _ _ _ _ (ret ?fc) => apply decides_ret
  | |- decides _ _ _ _ _ _ _ _ (raise _) => apply decides_raise
  | |- decides _ _ _ _ _ _ _ _ (bind _ _) =>
      eapply decides_bind;
      [solve [eauto with safe] | solve [eauto with traced] | intros ?]
  | |- decides _ _ _ _ _ _ _ _ (match ?x with _ => _ end) => destruct x eqn:?
  | |- decides _ _ _ _ _ _ _ _ (if ?x then _ else _) => destruct x eqn:?
  end.

Section Tasks.
Context {RT : Runtime} (w : world).

Lemma is_request_script method url j :
  is_request (script_request method url j) = true.
Proof. unfold script_request. by destruct (String.eqb _ _). Qed.

Lemma decides_script_dispatch fc wr path d vkvs kvs sk ct :
  decides w (Raise OSError) fc wr path d vkvs kvs
    (Script.dispatch w sk (VRef d) ct path fc).
Proof.
  unfold Script.dispatch. decides_step.
  eapply decides_bind;
    [apply safe_script_prepare | apply quiet_script_prepare |].
  intros [[method url] payload].
  apply (decides_deliver w _ fc wr path d vkvs kvs
           (Script.deliver w method url payload)
           (Script.complete (VRef d) ct path fc)
           (script_request method url) payload (strftime (dt_wall ct))).
  - apply is_request_script.
  - intros s1. apply script_delivers.
  - intros delivered s1 Hr1 Hw1. by apply script_complete_spec with vkvs.
Qed.

Lemma decides_package_dispatch fc wr path d vkvs kvs sk ct :
  decides w (Ok fc) fc wr path d vkvs kvs
    (Package.dispatch w sk (VRef d) ct path fc).
Proof.
  unfold Package.dispatch. decides_step.
  eapply decides_bind;
    [apply safe_package_prepare | apply quiet_package_prepare |].
  intros [[method url] payload].
  apply (decides_deliver w _ fc wr path d vkvs kvs
           (Package.deliver w method url payload)
           (Package.complete (VRef d) ct path fc)
           (package_request method url) payload (strftime (dt_wall ct))).
  - done.
  - intros s1. apply package_delivers.
  - intros delivered s1 Hr1 Hw1. by apply package_complete_spec with vkvs.
Qed.

Lemma decides_script_evaluate fc wr path d vkvs kvs sk :
  decides w (Raise OSError) fc wr path d vkvs kvs
    (Script.evaluate w sk fc path (VRef d)).
Proof.
  unfold Script.evaluate. repeat decides_step.
  apply decides_script_dispatch.
Qed.

Lemma decides_package_evaluate fc wr path d vkvs kvs sk :
  decides w (Ok fc) fc wr path d vkvs kvs
    (Package.evaluate w sk fc path (VRef d)).
Proof.
  unfold Package.evaluate. repeat decides_step.
  apply decides_package_dispatch.
Qed.
End Tasks.

Lemma requests_wire t : requests (wire t) = requests t.
Proof.
  unfold requests, wire. induction t as [| e t IH]; [done |].
  destruct e; cbn [List.filter is_request]; by rewrite ?IH.
Qed.

Lemma writes_wire t : writes (wire t) = writes t.
Proof.
  unfold writes, wire. induction t as [| e t IH]; [done |].
  destruct e; cbn [List.filter is_write]; by rewrite ?IH.
Qed.

Lemma idle_quiet s s' :
  idle s s' ->
  requests (added s s') = [] /\ writes (added s s') = [] /\
  st_sent s' = st_sent s /\ st_fs s' = st_fs s.
Proof.
  intros Hi. destruct (idle_added s s' Hi) as (_ & Hw & _).
  destruct Hi as (_ & _ & _ & _ & Hs & Hf).
  by rewrite <- requests_wire, <- writes_wire, Hw.
Qed.

(** The table of section 4.3, read by column. *)
Lemma delivery_spec_facts req r1 r2 r3 :
  is_request req = true ->
  let spec := delivery_spec req r1 r2 r3 in
  let n := length (snd spec) in
  (1 <= n <= 3)%nat /\
  length (requests (snd (fst spec))) = n /\
  writes (snd (fst spec)) = [] /\
  fst (fst spec) = succeeded (nth (Nat.pred n) [r1; r2; r3] r3).
Proof.
  intros Hreq. unfold delivery_spec.
  destruct (succeeded r1) eqn:H1; [| destruct (succeeded r2) eqn:H2];
    cbn; rewrite ?Hreq; cbn; repeat split; try done; try lia;
    destruct req; done.
Qed.

Lemma json_load_still path s :
  st_trace (snd (json_load path s)) = st_trace s /\
  st_sent (snd (json_load path s)) = st_sent s /\
  st_fs (snd (json_load path s)) = st_fs s.
Proof.
  unfold json_load.
  destruct (st_fs s !! path) as [f |]; [| done].
  destruct (f_doc f) as [j |]; [| done].
  by destruct (build j (st_heap s)).
Qed.

Section Outcomes.
Context {RT : Runtime} (w : world).

(** A file that holds no object: the task prints at most. *)
Lemma no_object_is_idle (evaluate : val -> M bool) fc path s :
  (forall kvs wr,
     st_fs s !! path
     <> Some {| f_doc := Some (JObj kvs); f_writable := wr |}) ->
  (forall v s1,
     (forall l kvs, v = VRef l -> st_heap s1 !! l <> Some (ODict kvs)) ->
     evaluate v s1 = (Raise AttributeError, s1)) ->
  let run :=
    print (MsgChecking path) ;;
    loaded <- try_except any_Exception (json_load path) ;;
    match loaded with
    | inl data => evaluate data
    | inr _ => print MsgReadFailed ;; ret fc
    end in
  idle s (snd (run s)) /\
  (fst (run s) = Ok fc \/ exists e, fst (run s) = Raise e).
Proof.
  intros Hno Hev run.
  pose (s0 := with_trace (st_trace s ++ [Print (MsgChecking path)]) s).
  assert (run s =
          match json_load path s0 with
          | (Ok v, s1) => evaluate v s1
          | (Raise e, s1) =>
              (Ok fc, with_trace (st_trace s1 ++ [Print MsgReadFailed]) s1)
          end) as ->.
  { unfold run, bind, print, emit, try_except. cbn [fst snd]. fold s0.
    by destruct (json_load path s0) as [[v | e] s1]. }
  pose proof (json_load_other path s0 Hno) as Hl.
  destruct (json_load_still path s0) as (Ht & Hs & Hfs).
  destruct (json_load path s0) as [[v | e] s1]; cbn [snd] in Ht, Hs, Hfs.
  - rewrite Hev.
    + cbn [fst snd]. split; [| right; by exists AttributeError].
      exists [Print (MsgChecking path)]. by rewrite Ht, Hs, Hfs.
    + intros l kvs ->. destruct Hl as [_ [xs ->]]. done.
  - cbn [fst snd]. split; [| by left].
    exists [Print (MsgChecking path); Print MsgReadFailed].
    cbn [st_trace st_sent st_fs with_trace]. rewrite Ht, Hs, Hfs.
    cbn [st_trace st_sent st_fs with_trace s0]. by rewrite <- app_assoc.
Qed.

Lemma py_get_no_dict v k dflt s :
  (forall l kvs, v = VRef l -> st_heap s !! l <> Some (ODict kvs)) ->
  py_get v k dflt s = (Raise AttributeError, s).
Proof.
  intros Hno. unfold py_get, bind, read_heap. cbn.
  destruct v as [| | | | l]; try done.
  destruct (st_heap s !! l) as [[xs | kvs] |] eqn:Hl; try done.
  by destruct (Hno l kvs eq_refl).
Qed.

(** Every task of the script. *)
Lemma script_task_outcome sk fc path s :
  task_outcome w (Script.process_file w sk fc path) (Raise OSError) fc
    path s.
Proof.
  destruct (file_cases (st_fs s) path) as [(kvs & wr & Hf) | Hno].
  - destruct (executed_cases kvs) as [Hx | Hx].
    { left. rewrite (script_skip w sk fc path s kvs wr Hf Hx).
      split; [| by left].
      by exists [Print (MsgChecking path); Print MsgSkipExecuted]. }
    pose (s0 := with_trace (st_trace s ++ [Print (MsgChecking path)]) s).
    destruct (json_load_object path s0 kvs wr Hf)
      as (d & h & vkvs & Hb & Hl & Hd & Hr).
    assert (Script.process_file w sk fc path s
            = Script.evaluate w sk fc path (VRef d) (with_heap h s0))
      as Heq.
    { unfold Script.process_file, bind at 1, print, emit.
      unfold bind at 1, try_except. fold s0. by rewrite Hl. }
    destruct (decides_script_evaluate w fc wr path d vkvs kvs sk
                (with_heap h s0) s)
      as [Hidle | (req & stamp & Hreq & Hdis)].
    + done.
    + by exists [Print (MsgChecking path)].
    + by rewrite Hf.
    + left. by rewrite Heq.
    + right. exists kvs, wr, req, stamp. do 3 (split; [done |]).
      unfold dispatches in *. by rewrite Heq.
  - left. apply (no_object_is_idle (Script.evaluate w sk fc path)); [done |].
    intros v s1 Hv. unfold Script.evaluate, bind at 1.
    by rewrite py_get_no_dict.
Qed.

(** Every task of the package. *)
Lemma package_task_outcome sk fc path s :
  task_outcome w (Package.process_file w sk fc path) (Ok fc) fc path s.
Proof.
  destruct (file_cases (st_fs s) path) as [(kvs & wr & Hf) | Hno].
  - destruct (executed_cases kvs) as [Hx | Hx].
    { left. rewrite (package_skip w sk fc path s kvs wr Hf Hx).
      split; [| by left].
      by exists [Print (MsgChecking path); Print MsgSkipExecuted]. }
    pose (s0 := with_trace (st_trace s ++ [Print (MsgChecking path)]) s).
    destruct (json_load_object path s0 kvs wr Hf)
      as (d & h & vkvs & Hb & Hl & Hd & Hr).
    assert (Package.process_file w sk fc path s
            = Package.evaluate w sk fc path (VRef d) (with_heap h s0))
      as Heq.
    { unfold Package.process_file, bind at 1, print, emit.
      unfold bind at 1, try_except. fold s0. by rewrite Hl. }
    destruct (decides_package_evaluate w fc wr path d vkvs kvs sk
                (with_heap h s0) s)
      as [Hidle | (req & stamp & Hreq & Hdis)].
    + done.
    + by exists [Print (MsgChecking path)].
    + by rewrite Hf.
    + left. by rewrite Heq.
    + right. exists kvs, wr, req, stamp. do 3 (split; [done |]).
      unfold dispatches in *. by rewrite Heq.
  - left. apply (no_object_is_idle (Package.evaluate w sk fc path)); [done |].
    intros v s1 Hv. unfold Package.evaluate, bind at 1.
    by rewrite py_get_no_dict.
Qed.
End Outcomes.

(** ** What follows for every task *)

Lemma task_digest (w : world) (run : M bool) (on_failed_save : result bool)
  (fc : bool) (path : string) (s : state) :
  task_outcome w run on_failed_save fc path s ->
  (on_failed_save = Ok fc \/ exists e, on_failed_save = Raise e) ->
  task_ends w fc path s (run s) /\ within_budget s (run s).
Proof.
  intros [[Hi Hres] | (kvs & wr & req & stamp & Hf & Hx & Hreq & Hdis)] Hofs.
  - destruct (idle_quiet _ _ Hi) as (Hr & Hw & Hs & Hfs). split.
    + left. by rewrite Hw.
    + unfold within_budget. rewrite Hr, Hs. simpl. lia.
  - unfold dispatches in Hdis. cbv zeta in Hdis.
    destruct Hdis as (s' & Hrun & Hw & Ha & Hfs & Hs).
    pose proof (delivery_spec_facts req (transport w (st_sent s + 0))
                  (transport w (st_sent s + 1)) (transport w (st_sent s + 2))
                  Hreq) as Hfacts.
    cbv zeta in Hfacts. destruct Hfacts as (Hn & Hrq & Hwr & Hdel).
    set (spec := delivery_spec req _ _ _) in *.
    rewrite Hrun. cbn [fst snd].
    assert (requests (added s s') = requests (snd (fst spec))) as Hreqs.
    { rewrite <- requests_wire, Hw, requests_app.
      destruct (_ && _); cbn; by rewrite app_nil_r. }
    assert (writes (added s s')
            = if fst (fst spec) && wr
              then [WriteFile path (stamped stamp kvs)] else []) as Hwrs.
    { rewrite <- writes_wire, Hw, writes_app. rewrite Hwr. by destruct (_ && _). }
    split.
    + unfold task_ends. cbn [fst snd]. rewrite Hwrs, Hfs.
      destruct (fst (fst spec)) eqn:Hd; cbn [andb].
      * destruct wr.
        -- right. exists kvs, true, stamp. do 5 (split; [done |]).
           split; [lia |].
           unfold last_answer. rewrite Hs, Hdel.
           set (n := length (snd spec)) in *.
           replace (Nat.pred (st_sent s + n)) with (st_sent s + Nat.pred n)%nat
             by lia.
           assert (n = 1 \/ n = 2 \/ n = 3)%nat as [-> | [-> | ->]] by lia;
             done.
        -- left. do 2 (split; [done |]).
           destruct Hofs as [-> | [e ->]]; [by left | right; by exists e].
      * left. do 2 (split; [done |]). by left.
    + unfold within_budget. cbn [snd]. rewrite Hreqs, Hrq, Hs. lia.
Qed.

Lemma script_task_digest {RT : Runtime} (w : world) sk fc path s :
  task_ends w fc path s (Script.process_file w sk fc path s) /\
  within_budget s (Script.process_file w sk fc path s).
Proof.
  apply (task_digest w _ (Raise OSError));
    [apply script_task_outcome | right; by exists OSError].
Qed.

Lemma package_task_digest {RT : Runtime} (w : world) sk fc path s :
  task_ends w fc path s (Package.process_file w sk fc path s) /\
  within_budget s (Package.process_file w sk fc path s).
Proof.
  apply (task_digest w _ (Ok fc)); [apply package_task_outcome | by left].
Qed.

Lemma wrote_writes t :
  wrote t = match writes t with [] => false | _ :: _ => true end.
Proof.
  unfold wrote, writes. induction t as [| e t IH]; [done |].
  cbn [existsb List.filter]. by destruct (is_write e).
Qed.

Lemma wrote_app t u : wrote (t ++ u) = wrote t || wrote u.
Proof. apply existsb_app. Qed.

Lemma wrote_unwritten t : forallb chatter t = true -> wrote t = false.
Proof.
  intros Hc. rewrite wrote_writes.
  by destruct (chatter_log t Hc) as (_ & _ & _ & _ & -> & _).
Qed.

Section Loops.
Context {RT : Runtime} (w : world).

(** The loop over the listing, for a body whose tasks end well. *)
Lemma for_each_digest (body : bool -> string -> M bool)
  (loop : bool -> list string -> M bool) :
  (forall fc path s, announced path s (snd (body fc path s))) ->
  (forall fc path s,
     task_ends w fc path s (body fc path s) /\
     within_budget s (body fc path s)) ->
  (forall fc, loop fc [] = ret fc) ->
  (forall fc path rest,
     loop fc (path :: rest)
     = (changed <- body fc path ;; loop changed rest)) ->
  forall listing fc s,
    let out := loop fc listing s in
    let log := added s (snd out) in
    st_trace (snd out) = st_trace s ++ log /\
    (length (requests log) <= 3 * length listing)%nat /\
    (fst out = Ok (fc || wrote log) \/
     exists e, fst out = Raise e).
Proof.
  intros Hann Hbody Hnil Hcons listing.
  induction listing as [| path rest IH]; intros fc s; cbv zeta.
  - rewrite Hnil. cbn [ret fst snd].
    rewrite (added_app s s []) by (by rewrite app_nil_r).
    rewrite app_nil_r, orb_false_r. cbn. split; [done |]. split; [lia |].
    by left.
  - rewrite Hcons. unfold bind.
    destruct (Hann fc path s) as (l1 & Ht & _).
    destruct (Hbody fc path s) as [Hend [Hb _]].
    unfold task_ends in Hend. cbv zeta in Hend, Hb.
    destruct (body fc path s) as [[changed | e] s1]; cbn [fst snd] in *.
    + destruct (IH changed s1) as (Ht2 & Hb2 & Hres2).
      set (out := loop changed rest s1) in *.
      assert (added s (snd out) = added s s1 ++ added s1 (snd out)) as Ha.
      { apply added_app. rewrite Ht2. rewrite (added_app s s1 _ Ht), Ht.
        by rewrite <- app_assoc. }
      rewrite Ha, requests_app, length_app, wrote_app.
      split; [by rewrite Ht2, (added_app s s1 _ Ht), Ht, <- app_assoc |].
      split; [cbn [length]; lia |].
      destruct Hres2 as [-> | [e He]]; [left | right; by exists e].
      f_equal. rewrite orb_assoc. f_equal.
      rewrite wrote_writes.
      destruct Hend as [(-> & _ & [[= ->] | [e He]]) |
                        (kvs & wr & stamp & _ & _ & -> & _ & [= ->] & _)];
        [by rewrite orb_false_r | done | by rewrite orb_true_r].
    + split; [by rewrite (added_app s s1 _ Ht) |].
      split; [cbn [length]; lia |]. right. by exists e.
Qed.

Lemma script_for_each_digest sk listing fc s :
  let out := Script.for_each w sk fc listing s in
  let log := added s (snd out) in
  st_trace (snd out) = st_trace s ++ log /\
  (length (requests log) <= 3 * length listing)%nat /\
  (fst out = Ok (fc || wrote log) \/ exists e, fst out = Raise e).
Proof.
  apply (for_each_digest
           (fun fc path => Script.process_file w sk fc path)
           (Script.for_each w sk)); try done.
  - intros. apply script_process_file_announced.
  - intros fc' path s'. apply script_task_digest.
Qed.

Lemma package_for_each_digest sk listing fc s :
  let out := Package.for_each w sk fc listing s in
  let log := added s (snd out) in
  st_trace (snd out) = st_trace s ++ log /\
  (length (requests log) <= 3 * length listing)%nat /\
  (fst out = Ok (fc || wrote log) \/ exists e, fst out = Raise e).
Proof.
  apply (for_each_digest
           (fun fc path => Package.process_file w sk fc path)
           (Package.for_each w sk)); try done.
  - intros. apply package_process_file_announced.
  - intros fc' path s'. apply package_task_digest.
Qed.
End Loops.


(** X3.  Each task has a budget of three requests of its own, whatever the
    tasks before it used: a task of either variant makes at most three
    requests, and as many exchanges as requests. *)
Theorem each_task_within_budget {RT : Runtime} (w : world) (sk : val)
  (fc : bool) (path : string) (s : state) :
  let script := snd (Script.process_file w sk fc path s) in
  let package := snd (Package.process_file w sk fc path s) in
  (length (requests (added s script)) <= 3)%nat /\
  st_sent script = (st_sent s + length (requests (added s script)))%nat /\
  (length (requests (added s package)) <= 3)%nat /\
  st_sent package = (st_sent s + length (requests (added s package)))%nat.
Proof.
  cbv zeta.
  destruct (script_task_digest w sk fc path s) as [_ [H1 H2]].
  destruct (package_task_digest w sk fc path s) as [_ [H3 H4]].
  done.
Qed.


(** X5.  A record that was written is not sent again.  After a task that
    wrote its file, a task for the same file, in either variant, at any
    later time and with any credentials, as long as the file is as it
    was left, prints that it skips the record and does nothing else: no
    request, no write, the flag as it was. *)
Theorem written_record_is_skipped_afterwards {RT : Runtime} (w : world)
  (run : val -> bool -> string -> M bool) (sk : val) (fc : bool)
  (path : string) (s : state) :
  run = Script.process_file w \/ run = Package.process_file w ->
  let s1 := snd (run sk fc path s) in
  writes (added s s1) <> [] ->
  forall (w' : world) (sk' : val) (fc' : bool) (s2 : state),
    st_fs s2 !! path = st_fs s1 !! path ->
    let skipped (out : result bool * state) :=
      fst out = Ok fc' /\
      st_trace (snd out)
      = st_trace s2 ++ [Print (MsgChecking path); Print MsgSkipExecuted] /\
      st_fs (snd out) = st_fs s2 /\ st_sent (snd out) = st_sent s2 in
    skipped (Script.process_file w' sk' fc' path s2) /\
    skipped (Package.process_file w' sk' fc' path s2).
Proof.
  intros Hrun s1 Hw w' sk' fc' s2 Hsame. cbv zeta.
  assert (task_ends w fc path s (run sk fc path s)) as Hend.
  { destruct Hrun as [-> | ->];
      [apply script_task_digest | apply package_task_digest]. }
  destruct Hend as [(Hno & _) |
                    (kvs & wr & stamp & _ & _ & _ & Hfs & _)]; [done |].
  fold s1 in Hfs. rewrite Hfs, lookup_insert_eq in Hsame.
  assert (dict_get "executed"
            (dict_set "executed_at" (JStr stamp)
               (dict_set "executed" (JBool true) kvs))
          = Some (JBool true)) as Hx.
  { rewrite dict_get_set_ne by done. apply dict_get_set_eq. }
  rewrite (script_skip w' sk' fc' path s2 _ true Hsame Hx).
  rewrite (package_skip w' sk' fc' path s2 _ true Hsame Hx).
  done.
Qed.

Section Summary.
Context {RT : Runtime}.

(** A whole run, for a loop as in [for_each_digest]. *)
Lemma run_digest (loop : val -> bool -> list string -> M bool)
  (keys : env_var) (listing : list string) (s : state) :
  (forall sk listing fc s,
     let out := loop sk fc listing s in
     let log := added s (snd out) in
     st_trace (snd out) = st_trace s ++ log /\
     (length (requests log) <= 3 * length listing)%nat /\
     (fst out = Ok (fc || wrote log) \/ exists e, fst out = Raise e)) ->
  let out :=
    (secret_keys <- load_secret_keys keys ;;
     match listing with
     | [] => print MsgNoConfigs
     | _ :: _ =>
         files_changed <- loop secret_keys false listing ;;
         if files_changed then print MsgSummaryChanged
         else print MsgSummaryUnchanged
     end) s in
  let log := added s (snd out) in
  (length (requests log) <= 3 * length listing)%nat /\
  (fst out = Ok tt -> last log = Some (Print (summary listing log))).
Proof.
  intros Hloop. cbv zeta.
  set (rest := fun secret_keys : val =>
         match listing with
         | [] => print MsgNoConfigs
         | _ :: _ =>
             files_changed <- loop secret_keys false listing ;;
             if files_changed then print MsgSummaryChanged
             else print MsgSummaryUnchanged
         end).
  change (let out := bind (load_secret_keys keys) rest s in
          (length (requests (added s (snd out))) <= 3 * length listing)%nat /\
          (fst out = Ok tt ->
           last (added s (snd out))
           = Some (Print (summary listing (added s (snd out)))))).
  cbv zeta. unfold bind.
  destruct (quiet_load_secret_keys keys s) as (l0 & Ht0 & Hc0 & _).
  destruct (chatter_log l0 Hc0) as (_ & _ & _ & Hr0 & _ & _).
  pose proof (wrote_unwritten l0 Hc0) as Hw0.
  destruct (load_secret_keys keys s) as [[sk | e] s1]; cbn [fst snd] in *.
  2: { rewrite (added_app _ _ _ Ht0), Hr0. cbn. split; [lia | by intros [=]]. }
  subst rest. destruct listing as [| path rest].
  - unfold print, emit. cbn [fst snd st_trace with_trace].
    erewrite added_app; [| rewrite Ht0, <- app_assoc; reflexivity].
    rewrite requests_app, Hr0. cbn. split; [lia |]. intros _.
    by rewrite last_snoc.
  - destruct (Hloop sk (path :: rest) false s1) as (Ht1 & Hb1 & Hres1).
    set (tail := fun files_changed : bool =>
           if files_changed then print MsgSummaryChanged
           else print MsgSummaryUnchanged).
    change (let out := bind (loop sk false (path :: rest)) tail s1 in
            (length (requests (added s (snd out)))
             <= 3 * length (path :: rest))%nat /\
            (fst out = Ok tt ->
             last (added s (snd out))
             = Some (Print (summary (path :: rest) (added s (snd out)))))).
    cbv zeta. unfold bind.
    destruct (loop sk false (path :: rest) s1) as [[changed | e] s2];
      cbn [fst snd] in *.
    + destruct Hres1 as [[= ->] | [e He]]; [| done]. cbn [orb] in *.
      subst tail. cbv beta.
      set (l1 := added s1 s2) in *.
      assert (forall msg,
        let out := print msg s2 in
        added s (snd out) = l0 ++ l1 ++ [Print msg]) as Hadd.
      { intros msg. apply added_app. cbn. rewrite Ht1, Ht0.
        by rewrite <- !app_assoc. }
      assert (forall msg,
        (length (requests (l0 ++ l1 ++ [Print msg]))
         <= 3 * length (path :: rest))%nat) as Hreq.
      { intros msg. rewrite !requests_app, !length_app, Hr0. cbn. cbn in Hb1.
        lia. }
      assert (forall msg, wrote (l0 ++ l1 ++ [Print msg]) = wrote l1) as Hwr.
      { intros msg. rewrite !wrote_app, Hw0. cbn. by rewrite orb_false_r. }
      destruct (wrote l1) eqn:Hl1.
      * rewrite (Hadd MsgSummaryChanged). split; [apply Hreq |]. intros _.
        unfold summary. rewrite Hwr.
        by rewrite !app_assoc, last_snoc.
      * rewrite (Hadd MsgSummaryUnchanged). split; [apply Hreq |]. intros _.
        unfold summary. rewrite Hwr.
        by rewrite !app_assoc, last_snoc.
    + split; [| by intros [=]].
      erewrite added_app; [| rewrite Ht1, Ht0, <- app_assoc; reflexivity].
      rewrite requests_app, length_app, Hr0. cbn. cbn in Hb1. lia.
Qed.
End Summary.

(** X7.  A run of either variant makes at most three requests for each file
    of the listing, whatever the files hold and however the run ends. *)
Theorem run_within_budget {RT : Runtime} (w : world) (keys : env_var)
  (listing : list string) (s : state) :
  let script := snd (Script.process_tasks w keys listing s) in
  let package := snd (Package.process_tasks w keys listing s) in
  (length (requests (added s script)) <= 3 * length listing)%nat /\
  (length (requests (added s package)) <= 3 * length listing)%nat.
Proof.
  split.
  - apply (run_digest (Script.for_each w) keys listing s).
    intros. apply script_for_each_digest.
  - apply (run_digest (Package.for_each w) keys listing s).
    intros. apply package_for_each_digest.
Qed.

(** X8.  The summary tells the writes.  The last line of a run that returns
    is the summary: that no configuration file was found for an empty
    listing, otherwise that states were updated if the run wrote a file
    and that nothing changed if it wrote none. *)
Theorem summary_tells_the_writes {RT : Runtime} (w : world)
  (run : env_var -> list string -> M unit) (keys : env_var)
  (listing : list string) (s : state) :
  run = Script.process_tasks w \/ run = Package.process_tasks w ->
  fst (run keys listing s) = Ok tt ->
  let log := added s (snd (run keys listing s)) in
  last log = Some (Print (summary listing log)).
Proof.
  intros [-> | ->] Hok.
  - by apply (run_digest (Script.for_each w) keys listing s);
      [intros; apply script_for_each_digest |].
  - by apply (run_digest (Package.for_each w) keys listing s);
      [intros; apply package_for_each_digest |].
Qed.

(** ** The credentials as they are loaded *)



Section Keys.
Context {RT : Runtime}.

Lemma load_secret_keys_text j s :
  load_secret_keys (Text (Some j)) s
  = (Ok (snd (build j (st_heap s))),
     with_trace (st_trace s ++ [Print MsgKeysLoaded])
       (with_heap (fst (build j (st_heap s))) s)).
Proof.
  unfold load_secret_keys, bind, json_loads, print, emit, ret.
  by destruct (build j (st_heap s)).
Qed.

Lemma inject_nothing payload sk s :
  as_list (st_heap s) sk = Some [] ->
  inject_keys_script payload sk s = (Ok tt, s) /\
  inject_keys_package payload sk s = (Ok tt, s).
Proof.
  intros Hk. rewrite inject_keys_same.
  by rewrite (inject_list payload sk s [] Hk).
Qed.
End Keys.

(** X11.  Without credentials nothing is injected.  When [DEVICE_KEYS] is not
    set, is no JSON or is the empty list, [load_secret_keys] returns a
    new empty list (with a warning instead of the usual line when the
    text is no JSON), and with that list the injection of both variants
    leaves every payload as it is. *)
Theorem absent_keys_inject_nothing {RT : Runtime} (e : env_var) (s : state) :
  e = Unset \/ e = Text None \/ e = Text (Some (JArr [])) ->
  let sk := VRef (length (st_heap s)) in
  let s1 :=
    with_trace (st_trace s ++ [Print (keys_line e)])
      (with_heap (st_heap s ++ [OList []]) s) in
  load_secret_keys e s = (Ok sk, s1) /\
  forall payload s2,
    extends (st_heap s1) (st_heap s2) ->
    inject_keys_script payload sk s2 = (Ok tt, s2) /\
    inject_keys_package payload sk s2 = (Ok tt, s2).
Proof.
  intros He sk s1. split.
  - destruct He as [-> | [-> | ->]]; reflexivity.
  - intros payload s2 Hext. apply inject_nothing.
    apply (as_list_extends (st_heap s1)); [done |].
    subst s1 sk. cbn [as_list st_heap with_heap with_trace].
    by rewrite list_lookup_middle.
Qed.


(** X13.  The two variants inject alike.  The script tests
    [isinstance(secret_keys, list)] and then [if secret_keys], the
    package tests both at once and goes on to the dict test when the
    list is empty; for every payload, every credential value and every
    state the two injections do the same, and so do the two
    preparations of a request. *)
Theorem variants_inject_alike {RT : Runtime} (payload sk data : val)
  (s : state) :
  inject_keys_package payload sk s = inject_keys_script payload sk s /\
  Package.prepare sk data s = Script.prepare sk data s.
Proof. split; [apply inject_keys_same | apply prepare_same]. Qed.

(** ** Files and records that are not as they should be *)

Lemma dump_truthy n (h : list obj) v j :
  dump n h v = Some j -> truthy h v = truthy_json j.
Proof.
  destruct v as [| b | z | t | l]; destruct n as [| n]; cbn [dump];
    try (by intros [= <-]).
  cbn [truthy]. destruct (h !! l) as [[xs | kvs] |]; [| | done].
  - destruct (dump_list (dump n h) xs) as [js |] eqn:Hd; [| done].
    intros [= <-]. apply dump_list_length in Hd. by destruct xs, js.
  - destruct (dump_list (dump_member (dump n h)) kvs) as [js |] eqn:Hd;
      [| done].
    intros [= <-]. apply dump_list_length in Hd. by destruct kvs, js.
Qed.

Lemma truthy_extends (h h' : list obj) v :
  extends h h' -> (forall l, v = VRef l -> is_Some (h !! l)) ->
  truthy h' v = truthy h v.
Proof.
  intros He Hv. destruct v as [| | | | l]; try done. cbn [truthy].
  destruct (Hv l eq_refl) as [o Ho]. by rewrite (He l o Ho), Ho.
Qed.

(** What a member of a record is worth as a condition. *)
Lemma record_truthy h d vkvs kvs k :
  record_at h d vkvs kvs ->
  truthy h (default VNone (dict_get k vkvs))
  = from_option truthy_json false (dict_get k kvs).
Proof.
  intros [_ Hm]. pose proof (members_get _ _ _ k Hm) as Hg.
  destruct (dict_get k vkvs) as [v |]; [| by rewrite Hg].
  destruct Hg as (j & Hv & ->). cbn [default from_option id].
  rewrite <- (dump_truthy _ _ _ _ Hv).
  apply truthy_extends; [apply extends_take |].
  intros l ->. destruct d as [| d']; [done |]. cbn [dump] in Hv.
  by destruct (take (S d') h !! l).
Qed.

Section Records.
Context {RT : Runtime} (w : world).

Lemma script_process_file_loaded sk fc path s kvs wr :
  st_fs s !! path = Some {| f_doc := Some (JObj kvs); f_writable := wr |} ->
  exists d vkvs,
    record_at (st_heap (loaded path kvs s)) d vkvs kvs /\
    Script.process_file w sk fc path s
    = Script.evaluate w sk fc path (VRef d) (loaded path kvs s).
Proof.
  intros Hf.
  pose (s0 := with_trace (st_trace s ++ [Print (MsgChecking path)]) s).
  destruct (json_load_object path s0 kvs wr Hf)
    as (d & h & vkvs & Hb & Hl & Hd & Hr).
  exists d, vkvs. unfold loaded. fold s0.
  change (st_heap s) with (st_heap s0). rewrite Hb. cbn [fst]. split; [done |].
  unfold Script.process_file, bind at 1, print, emit.
  unfold bind at 1, try_except. fold s0. by rewrite Hl.
Qed.

Lemma package_process_file_loaded sk fc path s kvs wr :
  st_fs s !! path = Some {| f_doc := Some (JObj kvs); f_writable := wr |} ->
  exists d vkvs,
    record_at (st_heap (loaded path kvs s)) d vkvs kvs /\
    Package.process_file w sk fc path s
    = Package.evaluate w sk fc path (VRef d) (loaded path kvs s).
Proof.
  intros Hf.
  pose (s0 := with_trace (st_trace s ++ [Print (MsgChecking path)]) s).
  destruct (json_load_object path s0 kvs wr Hf)
    as (d & h & vkvs & Hb & Hl & Hd & Hr).
  exists d, vkvs. unfold loaded. fold s0.
  change (st_heap s) with (st_heap s0). rewrite Hb. cbn [fst]. split; [done |].
  unfold Package.process_file, bind at 1, print, emit.
  unfold bind at 1, try_except. fold s0. by rewrite Hl.
Qed.

(** The evaluation of a record that is not executed, up to the test
    of the trigger time. *)
Lemma script_evaluate_given sk fc path s d vkvs kvs :
  record_at (st_heap s) d vkvs kvs ->
  dict_get "executed" kvs <> Some (JBool true) ->
  from_option truthy_json false (dict_get "trigger_time" kvs) = false ->
  Script.evaluate w sk fc path (VRef d) s = (Ok fc, s).
Proof.
  intros Hr Hx Ht. unfold Script.evaluate. unfold bind at 1.
  rewrite (py_get_record _ d vkvs kvs) by done.
  destruct (is_True _) eqn:Hi;
    [by apply (record_executed _ _ _ _ Hr) in Hi |].
  unfold bind at 1. rewrite (py_get_record _ d vkvs kvs) by done.
  unfold bind at 1. rewrite (py_get_record _ d vkvs kvs) by done.
  unfold bind at 1, py_truthy, bind at 1, read_heap, ret.
  by rewrite (record_truthy _ _ _ _ _ Hr), Ht.
Qed.

Lemma package_evaluate_given sk fc path s d vkvs kvs :
  record_at (st_heap s) d vkvs kvs ->
  dict_get "executed" kvs <> Some (JBool true) ->
  from_option truthy_json false (dict_get "trigger_time" kvs) = false ->
  Package.evaluate w sk fc path (VRef d) s = (Ok fc, s).
Proof.
  intros Hr Hx Ht. unfold Package.evaluate. unfold bind at 1.
  rewrite (py_get_record _ d vkvs kvs) by done.
  destruct (is_True _) eqn:Hi;
    [by apply (record_executed _ _ _ _ Hr) in Hi |].
  unfold bind at 1. rewrite (py_get_record _ d vkvs kvs) by done.
  unfold bind at 1. rewrite (py_get_record _ d vkvs kvs) by done.
  unfold bind at 1, py_truthy, bind at 1, read_heap, ret.
  by rewrite (record_truthy _ _ _ _ _ Hr), Ht.
Qed.
End Records.

(** X14.  A file that cannot be read is passed over.  When the file of a
    task is missing or its text is no JSON, both variants print that the
    read failed and go on with the flag as it was: nothing is sent and
    nothing is written. *)
Theorem unreadable_file_is_passed_over {RT : Runtime} (w : world) (sk : val)
  (fc : bool) (path : string) (s : state) :
  (forall f, st_fs s !! path = Some f -> f_doc f = None) ->
  let passed :=
    (Ok fc,
     with_trace
       (st_trace s ++ [Print (MsgChecking path); Print MsgReadFailed]) s) in
  Script.process_file w sk fc path s = passed /\
  Package.process_file w sk fc path s = passed.
Proof.
  intros Hno passed.
  assert (forall s0, st_fs s0 = st_fs s ->
            exists e, json_load path s0 = (Raise e, s0)) as Hload.
  { intros s0 Hfs. unfold json_load. rewrite Hfs.
    destruct (st_fs s !! path) as [f |] eqn:Hf; [| by exists OSError].
    rewrite (Hno f eq_refl). by exists ValueError. }
  split.
  - unfold Script.process_file, bind at 1, print, emit.
    unfold bind at 1, try_except.
    destruct (Hload (with_trace (st_trace s ++ [Print (MsgChecking path)]) s)
                eq_refl) as [e ->].
    subst passed. cbn. by rewrite <- app_assoc.
  - unfold Package.process_file, bind at 1, print, emit.
    unfold bind at 1, try_except.
    destruct (Hload (with_trace (st_trace s ++ [Print (MsgChecking path)]) s)
                eq_refl) as [e ->].
    subst passed. cbn. by rewrite <- app_assoc.
Qed.

(** X16.  A task without a trigger time is passed over in silence.  For a
    record that is not marked as executed and whose [trigger_time] is
    missing, null, the empty string, zero, false or an empty list or
    object, both variants print the name of the file and nothing else,
    and go on with the flag as it was; the time zone and everything else
    in the record are not looked at. *)
Theorem task_without_trigger_time_is_passed_over {RT : Runtime} (w : world)
  (sk : val) (fc : bool) (path : string) (s : state)
  (kvs : list (string * json)) (wr : bool) :
  st_fs s !! path = Some {| f_doc := Some (JObj kvs); f_writable := wr |} ->
  dict_get "executed" kvs <> Some (JBool true) ->
  from_option truthy_json false (dict_get "trigger_time" kvs) = false ->
  Script.process_file w sk fc path s = (Ok fc, loaded path kvs s) /\
  Package.process_file w sk fc path s = (Ok fc, loaded path kvs s).
Proof.
  intros Hf Hx Ht. split.
  - destruct (script_process_file_loaded w sk fc path s kvs wr Hf)
      as (d & vkvs & Hr & ->).
    by apply script_evaluate_given with vkvs kvs.
  - destruct (package_process_file_loaded w sk fc path s kvs wr Hf)
      as (d & vkvs & Hr & ->).
    by apply package_evaluate_given with vkvs kvs.
Qed.

Section Times.
Context {RT : Runtime} (w : world).

(** The evaluation of a record that is not executed and has a
    trigger time that counts as given: the times are read. *)
Lemma script_evaluate_reads sk fc path s d vkvs kvs :
  record_at (st_heap s) d vkvs kvs ->
  dict_get "executed" kvs <> Some (JBool true) ->
  from_option truthy_json false (dict_get "trigger_time" kvs) = true ->
  Script.evaluate w sk fc path (VRef d) s =
  (times <- Script.read_times w
              (default VNone (dict_get "trigger_time" vkvs))
              (default (VStr DEFAULT_TIMEZONE) (dict_get "timezone" vkvs)) ;;
   match times with
   | inr _ => print MsgBadTimeFormat ;; ret fc
   | inl (trigger_time, current_time) =>
       diff <- lift (dt_sub current_time trigger_time) ;;
       print (MsgTimes trigger_time current_time) ;;
       print (MsgDelay diff) ;;
       if in_window (diff_minutes diff) then
         Script.dispatch w sk (VRef d) current_time path fc
       else
         report_outside (diff_minutes diff) ;; ret fc
   end) s.
Proof.
  intros Hr Hx Ht. unfold Script.evaluate. unfold bind at 1.
  rewrite (py_get_record _ d vkvs kvs) by done.
  destruct (is_True _) eqn:Hi;
    [by apply (record_executed _ _ _ _ Hr) in Hi |].
  unfold bind at 1. rewrite (py_get_record _ d vkvs kvs) by done.
  unfold bind at 1. rewrite (py_get_record _ d vkvs kvs) by done.
  unfold bind at 1, py_truthy, bind at 1, read_heap, ret.
  by rewrite (record_truthy _ _ _ _ _ Hr), Ht.
Qed.

Lemma package_evaluate_reads sk fc path s d vkvs kvs :
  record_at (st_heap s) d vkvs kvs ->
  dict_get "executed" kvs <> Some (JBool true) ->
  from_option truthy_json false (dict_get "trigger_time" kvs) = true ->
  Package.evaluate w sk fc path (VRef d) s =
  (times <- Package.read_times w
              (default VNone (dict_get "trigger_time" vkvs))
              (default (VStr DEFAULT_TIMEZONE) (dict_get "timezone" vkvs)) ;;
   match times with
   | inr _ => print MsgBadTimeFormat ;; ret fc
   | inl (trigger_time, current_time) =>
       diff <- lift (dt_sub current_time trigger_time) ;;
       print (MsgTimes trigger_time current_time) ;;
       print (MsgDelay diff) ;;
       if in_window (diff_minutes diff) then
         Package.dispatch w sk (VRef d) current_time path fc
       else
         report_outside (diff_minutes diff) ;; ret fc
   end) s.
Proof.
  intros Hr Hx Ht. unfold Package.evaluate. unfold bind at 1.
  rewrite (py_get_record _ d vkvs kvs) by done.
  destruct (is_True _) eqn:Hi;
    [by apply (record_executed _ _ _ _ Hr) in Hi |].
  unfold bind at 1. rewrite (py_get_record _ d vkvs kvs) by done.
  unfold bind at 1. rewrite (py_get_record _ d vkvs kvs) by done.
  unfold bind at 1, py_truthy, bind at 1, read_heap, ret.
  by rewrite (record_truthy _ _ _ _ _ Hr), Ht.
Qed.

(** The script parses the time before it looks the zone up. *)
Lemma script_read_times_malformed t tz s :
  strptime t = None ->
  Script.read_times w (VStr t) tz s = (Ok (inr ValueError), s).
Proof.
  intros Hp. unfold Script.read_times, try_except, bind, datetime_strptime.
  by rewrite Hp.
Qed.

(** The package looks the zone up before it parses the time. *)
Lemma package_read_times_malformed t name s :
  strptime t = None ->
  Package.read_times w (VStr t) (VStr name) s =
  match tzdata name with
  | TzFound _ => (Ok (inr ValueError), s)
  | _ => (Raise KeyError, s)
  end.
Proof.
  intros Hp.
  unfold Package.read_times, try_except, bind, pytz_timezone,
    datetime_strptime.
  destruct (tzdata name); [| done | done]. cbn. by rewrite Hp.
Qed.
End Times.

(** X17.  A trigger time that is not in the format.  For a record whose
    [trigger_time] is a string that [strptime] refuses, the script
    prints the format error and goes on with the flag as it was,
    whatever the record has for a time zone, because it parses the time
    first.  The package looks the zone up first: it does the same when
    the zone exists, and ends with the [KeyError] of the lookup when it
    does not. *)
Theorem malformed_time_is_reported {RT : Runtime} (w : world) (sk : val)
  (fc : bool) (path : string) (s : state) (kvs : list (string * json))
  (wr : bool) (t : string) :
  st_fs s !! path = Some {| f_doc := Some (JObj kvs); f_writable := wr |} ->
  dict_get "executed" kvs <> Some (JBool true) ->
  dict_get "trigger_time" kvs = Some (JStr t) -> t <> "" ->
  strptime t = None ->
  let at_load := loaded path kvs s in
  let reported :=
    (Ok fc, with_trace (st_trace at_load ++ [Print MsgBadTimeFormat]) at_load)
  in
  Script.process_file w sk fc path s = reported /\
  (forall name,
     timezone_of kvs = Some name ->
     Package.process_file w sk fc path s
     = match tzdata name with
       | TzFound _ => reported
       | _ => (Raise KeyError, at_load)
       end).
Proof.
  intros Hf Hx Ht Hne Hp at_load reported.
  assert (from_option truthy_json false (dict_get "trigger_time" kvs) = true)
    as Htr.
  { rewrite Ht. cbn. apply String.eqb_neq in Hne. by rewrite Hne. }
  split.
  - destruct (script_process_file_loaded w sk fc path s kvs wr Hf)
      as (d & vkvs & Hr & ->).
    rewrite (script_evaluate_reads w sk fc path _ d vkvs kvs) by done.
    rewrite (record_get_str _ _ _ _ _ _ Hr Ht). cbn [default from_option id].
    unfold bind at 1. by rewrite script_read_times_malformed.
  - intros name Hn.
    destruct (package_process_file_loaded w sk fc path s kvs wr Hf)
      as (d & vkvs & Hr & ->).
    rewrite (package_evaluate_reads w sk fc path _ d vkvs kvs) by done.
    rewrite (record_get_str _ _ _ _ _ _ Hr Ht), (record_timezone _ _ _ _ _ Hr Hn).
    cbn [default from_option id].
    unfold bind at 1. rewrite package_read_times_malformed by done.
    by destruct (tzdata name).
Qed.

(** X18.  The times of a task are in one zone.  Whenever the reading of the
    times returns both, in either variant, the zone named was found, the
    current time is the clock's in that zone, and the two can be
    subtracted: the fallback of [get_current_time] to a time without a
    zone (the script) or to UTC with a warning (the package) is never
    taken from [process_tasks], where the zone has been looked up just
    before.  The clock is read once then, and not at all when the
    reading fails. *)
Theorem times_are_in_one_zone {RT : Runtime} (w : world)
  (trigger_time_str tz_name : val) (s : state) :
  let now := clock w (st_ticks s) in
  (forall times s',
     Script.read_times w trigger_time_str tz_name s = (Ok times, s') ->
     match times with
     | inl (trigger_time, current_time) =>
         exists t naive name z,
           trigger_time_str = VStr t /\ strptime t = Some naive /\
           tz_name = VStr name /\ tzdata name = TzFound z /\
           trigger_time = replace_tzinfo naive z /\
           current_time = now_script z now /\
           dt_sub current_time trigger_time = Ok (tz_fromutc z now - naive) /\
           s' = with_ticks (S (st_ticks s)) s
     | inr _ => s' = s
     end) /\
  (forall times s',
     Package.read_times w trigger_time_str tz_name s = (Ok times, s') ->
     match times with
     | inl (trigger_time, current_time) =>
         exists t naive name z,
           trigger_time_str = VStr t /\ strptime t = Some naive /\
           tz_name = VStr name /\ tzdata name = TzFound z /\
           trigger_time = pytz_localize z naive /\
           current_time = now_package z now /\
           dt_sub current_time trigger_time = Ok (now - tz_toutc z naive) /\
           s' = with_ticks (S (st_ticks s)) s
     | inr _ => s' = s
     end).
Proof.
  intros now. split; intros times s'.
  - unfold Script.read_times, try_except, bind at 1, datetime_strptime.
    destruct trigger_time_str as [| | | t |]; try done.
    destruct (strptime t) as [naive |] eqn:Hp; [| by intros [= <- <-]].
    unfold ret at 1, bind at 1, ZoneInfo.
    destruct tz_name as [| | | name |]; try done.
    destruct (tzdata name) as [z | |] eqn:Hz;
      [| done | by intros [= <- <-]].
    unfold ret at 1, bind at 1, Script.get_current_time, bind at 1,
      try_except, bind at 1, ZoneInfo. rewrite Hz.
    unfold ret at 1, now_zoneinfo, bind, read_clock, ret. cbn.
    intros [= <- <-]. exists t, naive, name, z. do 6 (split; [done |]).
    split; [| done].
    unfold dt_sub, now_script, replace_tzinfo, tzobj_eqb. cbn [fst snd].
    by rewrite String.eqb_refl.
  - unfold Package.read_times, try_except, bind at 1, pytz_timezone.
    destruct tz_name as [| | | name |]; try done.
    destruct (tzdata name) as [z | |] eqn:Hz; [| done | done].
    unfold ret at 1, bind at 1, datetime_strptime.
    destruct trigger_time_str as [| | | t |]; try done.
    destruct (strptime t) as [naive |] eqn:Hp; [| by intros [= <- <-]].
    unfold ret at 1, bind at 1, Package.get_current_time, bind at 1,
      try_except, bind at 1, pytz_timezone. rewrite Hz.
    unfold ret at 1, now_pytz, bind, read_clock, ret. cbn.
    intros [= <- <-]. exists t, naive, name, z. do 6 (split; [done |]).
    split; [| done].
    unfold dt_sub, now_package, pytz_localize, tzobj_eqb. cbn [fst snd].
    rewrite String.eqb_refl. cbn [andb]. fold now.
    destruct (Z.eqb_spec (tz_fromutc z now - now) (naive - tz_toutc z naive));
      f_equal; lia.
Qed.

(** X19.  What [get_current_time] does when it is called by itself: it never
    ends with an exception and reads the clock once.  For a zone that is
    found it returns the time of the clock in that zone; for any other
    argument (an unknown name, a name that is no key, no string at all)
    the script returns the local time without a zone and prints nothing,
    and the package prints a warning and returns the time in UTC. *)
Theorem current_time_falls_back {RT : Runtime} (w : world) (tz_name : val)
  (s : state) :
  let now := clock w (st_ticks s) in
  let read := with_ticks (S (st_ticks s)) s in
  let zone :=
    match tz_name with
    | VStr name =>
        match tzdata name with TzFound z => Some z | _ => None end
    | _ => None
    end in
  Script.get_current_time w tz_name s
  = (Ok (match zone with
         | Some z => now_script z now
         | None => Naive (now + local_utcoffset w)
         end), read) /\
  Package.get_current_time w tz_name s
  = match zone with
    | Some z => (Ok (now_package z now), read)
    | None =>
        (Ok (Aware now now ("UTC", Some 0)),
         with_ticks (S (st_ticks s))
           (with_trace (st_trace s ++ [Print MsgTzFallback]) s))
    end.
Proof.
  cbv zeta. split.
  - unfold Script.get_current_time, bind at 1, try_except, bind at 1, ZoneInfo.
    destruct tz_name as [| | | name |]; try done.
    by destruct (tzdata name).
  - unfold Package.get_current_time, bind at 1, try_except, bind at 1,
      pytz_timezone.
    destruct tz_name as [| | | name |]; try done.
    by destruct (tzdata name).
Qed.

Section Documents.
Context {RT : Runtime} (w : world).

Lemma load_secret_keys_returns e s :
  exists sk s1,
    load_secret_keys e s = (Ok sk, s1) /\ st_fs s1 = st_fs s /\
    st_trace s1 = st_trace s ++ [Print (keys_line e)] /\
    st_sent s1 = st_sent s.
Proof.
  destruct e as [| [j |]].
  - by eexists _, _.
  - rewrite load_secret_keys_text. by eexists _, _.
  - by eexists _, _.
Qed.

(** The script's task for a document that is no object. *)
Lemma script_no_object sk fc path s j wr :
  st_fs s !! path = Some {| f_doc := Some j; f_writable := wr |} ->
  is_object j = false ->
  Script.process_file w sk fc path s
  = (Raise AttributeError,
     with_heap (fst (build j (st_heap s)))
       (with_trace (st_trace s ++ [Print (MsgChecking path)]) s)).
Proof.
  intros Hf Hj. unfold Script.process_file, bind at 1, print, emit.
  unfold bind at 1, try_except, json_load.
  cbn [st_fs with_trace]. rewrite Hf. cbn [f_doc st_heap with_trace].
  destruct (build j (st_heap s)) as [h v] eqn:Hb. cbn [fst].
  unfold Script.evaluate, bind at 1. rewrite py_get_no_dict; [done |].
  intros l kvs ->. cbn [st_heap with_heap].
  destruct j as [| b | n | t | xs | members]; try done;
    try (by cbn in Hb).
  rewrite build_arr in Hb. destruct (build_items xs (st_heap s)) as [h' vs].
  injection Hb as <- <-. by rewrite list_lookup_middle.
Qed.
End Documents.

(** X15.  A document that is no object ends the script.  When the file of a
    task holds JSON that is not an object (a list, a string, a number,
    true, false or null), [data.get] has nothing to call: the script
    ends with the [AttributeError], which no handler catches, after the
    name of that file was printed; the files after it in the listing are
    not looked at, nothing is sent and no file is changed. *)
Theorem document_without_members_ends_the_script {RT : Runtime} (w : world)
  (keys : env_var) (path : string) (rest : list string) (s : state)
  (j : json) (wr : bool) :
  st_fs s !! path = Some {| f_doc := Some j; f_writable := wr |} ->
  is_object j = false ->
  let out := Script.process_tasks w keys (path :: rest) s in
  fst out = Raise AttributeError /\
  added s (snd out) = [Print (keys_line keys); Print (MsgChecking path)] /\
  st_fs (snd out) = st_fs s /\ st_sent (snd out) = st_sent s.
Proof.
  intros Hf Hj out.
  destruct (load_secret_keys_returns keys s) as (sk & s1 & Hl & Hfs & Ht & Hs).
  assert (out = (Raise AttributeError,
                 with_heap (fst (build j (st_heap s1)))
                   (with_trace (st_trace s1 ++ [Print (MsgChecking path)]) s1)))
    as ->.
  { subst out. unfold Script.process_tasks, bind at 1. rewrite Hl.
    unfold bind at 1. cbn [Script.for_each]. unfold bind at 1.
    by rewrite (script_no_object w sk false path s1 j wr) by congruence. }
  cbn [fst snd st_fs st_sent with_heap with_trace].
  split; [done |]. split; [| by rewrite Hfs, Hs].
  apply added_app. cbn [st_trace with_heap with_trace].
  by rewrite Ht, <- app_assoc.
Qed.

(** ** Requests that cannot be prepared *)

Lemma record_member h d vkvs kvs k j :
  record_at h d vkvs kvs -> dict_get k kvs = Some j ->
  exists v, dict_get k vkvs = Some v /\ dump d (take d h) v = Some j.
Proof.
  intros [_ Hm] Hk. pose proof (members_get _ _ _ k Hm) as Hg.
  destruct (dict_get k vkvs) as [v |]; [| congruence].
  destruct Hg as (j' & Hv & Hj). exists v. split; [done | congruence].
Qed.

Lemma dump_plain n h v j :
  dump n h v = Some j -> is_plain j = true -> scalar_json v = Some j.
Proof.
  destruct v as [| b | z | t | l], n as [| n]; cbn [dump scalar_json];
    try done; try (by intros [= <-]).
  destruct (h !! l) as [[xs | kvs] |]; [| | done].
  - destruct (dump_list _ xs); [by intros [= <-] | done].
  - destruct (dump_list _ kvs); [by intros [= <-] | done].
Qed.

Section Unprepared.
Context {RT : Runtime}.

(** A method that is no string has no [upper]. *)
Lemma prepare_without_method prepare s sk d vkvs kvs j :
  prepare = Script.prepare \/ prepare = Package.prepare ->
  record_at (st_heap s) d vkvs kvs ->
  dict_get "method" kvs = Some j -> is_string j = false ->
  prepare sk (VRef d) s = (Raise AttributeError, s).
Proof.
  intros Hp Hr Hm Hj.
  assert (Script.prepare sk (VRef d) s = (Raise AttributeError, s)) as Hs.
  { destruct (record_member _ _ _ _ _ _ Hr Hm) as (v & Hv & Hd).
    unfold Script.prepare. unfold bind at 1.
    rewrite (py_get_record _ d vkvs kvs) by done.
    unfold bind at 1. unfold bind at 1.
    rewrite (py_get_record _ d vkvs kvs) by done. rewrite Hv.
    cbn [default from_option id].
    destruct v as [| | | t |]; try done.
    destruct d; cbn in Hd; injection Hd as <-; done. }
  destruct Hp as [-> | ->]; [done | by rewrite prepare_same].
Qed.

(** A body that is null, true, false or a number holds nothing. *)
Lemma prepare_without_body prepare s sk d vkvs kvs m j :
  prepare = Script.prepare \/ prepare = Package.prepare ->
  record_at (st_heap s) d vkvs kvs ->
  method_of kvs = Some m ->
  dict_get "body" kvs = Some j -> is_plain j = true ->
  prepare sk (VRef d) s
  = (Raise TypeError, with_heap (st_heap s ++ [ODict []]) s).
Proof.
  intros Hp Hr Hm Hb Hj.
  assert (Script.prepare sk (VRef d) s
          = (Raise TypeError, with_heap (st_heap s ++ [ODict []]) s)) as Hs.
  { destruct (record_member _ _ _ _ _ _ Hr Hb) as (v & Hv & Hd).
    pose proof (dump_plain _ _ _ _ Hd Hj) as Hsc.
    unfold Script.prepare. unfold bind at 1.
    rewrite (py_get_record _ d vkvs kvs) by done.
    unfold bind at 1. unfold bind at 1.
    rewrite (py_get_record _ d vkvs kvs) by done.
    rewrite (record_method _ _ _ _ _ Hr Hm). cbn [py_upper ret].
    unfold bind at 1, build_payload, bind at 1, new_object, alloc.
    cbn [fst snd].
    set (s1 := with_heap (st_heap s ++ [ODict []]) s).
    assert (record_at (st_heap s1) d vkvs kvs) as Hr1.
    { destruct Hr as [Hl Hdm]. split.
      - by apply lookup_app_l_Some.
      - cbn [st_heap s1 with_heap].
        rewrite take_app_le by (apply lookup_lt_Some in Hl; lia). done. }
    unfold bind at 1. rewrite (py_get_record _ d vkvs kvs) by done.
    rewrite Hv. cbn [default from_option id].
    unfold bind at 1, py_deepcopy, deepcopy, dumps.
    rewrite (dump_scalar _ _ _ _ Hsc).
    assert (build j (st_heap s1) = (st_heap s1, v)) as ->.
    { destruct v, j; try done; cbn in Hsc; by injection Hsc as <-. }
    assert (with_heap (st_heap s1) s1 = s1) as -> by (by destruct s).
    unfold bind at 1, py_contains, bind at 1, read_heap, ret.
    destruct v; cbn in Hsc; try done. by injection Hsc as <-. }
  destruct Hp as [-> | ->]; [done | by rewrite prepare_same].
Qed.
End Unprepared.

(** X20.  A method that is no string ends the run.  For a record inside its
    window whose [method] is there but is no string (null, a number, a
    list ...), [.upper()] has nothing to call: both variants end with
    the [AttributeError] right after the line that announces the
    dispatch; nothing is sent and no file is changed. *)
Theorem method_must_be_a_string {RT : Runtime} (w : world) (sk : val)
  (fc : bool) (path : string) (s : state) (kvs : list (string * json))
  (wr : bool) (t : string) (naive : Z) (name : string) (z : tzinfo)
  (j : json) :
  st_fs s !! path = Some {| f_doc := Some (JObj kvs); f_writable := wr |} ->
  dict_get "executed" kvs <> Some (JBool true) ->
  dict_get "trigger_time" kvs = Some (JStr t) -> strptime t = Some naive ->
  timezone_of kvs = Some name -> tzdata name = TzFound z ->
  dict_get "method" kvs = Some j -> is_string j = false ->
  let now := clock w (st_ticks s) in
  let h := fst (build (JObj kvs) (st_heap s)) in
  (in_window (diff_minutes (tz_fromutc z now - naive)) = true ->
   Script.process_file w sk fc path s
   = (Raise AttributeError,
      unprepared h
        (timed path h (replace_tzinfo naive z) (now_script z now)
           (tz_fromutc z now - naive) s))) /\
  (in_window (diff_minutes (now - tz_toutc z naive)) = true ->
   Package.process_file w sk fc path s
   = (Raise AttributeError,
      unprepared h
        (timed path h (pytz_localize z naive) (now_package z now)
           (now - tz_toutc z naive) s))).
Proof.
  intros Hf Hx Ht Hp Hn Hz Hm Hj now h.
  destruct (build_object_record kvs (st_heap s))
    as (d & h' & vkvs & Hbuild & _ & _ & Hr).
  assert (h = h') as <- by (subst h; by rewrite Hbuild).
  split; intros Hin.
  - rewrite (script_file_timed w sk fc path s kvs wr t naive name z) by done.
    fold now. rewrite Hin, Hbuild. cbn [fst snd]. fold h.
    set (at_test := timed _ _ _ _ _ _).
    unfold Script.dispatch, bind at 1, print, emit. unfold bind at 1.
    by rewrite (prepare_without_method Script.prepare _ sk d vkvs kvs j)
      by (done || by left).
  - rewrite (package_file_timed w sk fc path s kvs wr t naive name z) by done.
    fold now. rewrite Hin, Hbuild. cbn [fst snd]. fold h.
    set (at_test := timed _ _ _ _ _ _).
    unfold Package.dispatch, bind at 1, print, emit. unfold bind at 1.
    by rewrite (prepare_without_method Package.prepare _ sk d vkvs kvs j)
      by (done || by right).
Qed.

(** X21.  A body that is null, true, false or a number ends the run.  For a
    record inside its window with such a [body], the test
    ["device_keys" not in payload] has nothing to search: both variants
    end with the [TypeError] right after the line that announces the
    dispatch; nothing is sent and no file is changed. *)
Theorem body_must_hold_members {RT : Runtime} (w : world) (sk : val)
  (fc : bool) (path : string) (s : state) (kvs : list (string * json))
  (wr : bool) (t : string) (naive : Z) (name : string) (z : tzinfo)
  (m : string) (j : json) :
  st_fs s !! path = Some {| f_doc := Some (JObj kvs); f_writable := wr |} ->
  dict_get "executed" kvs <> Some (JBool true) ->
  dict_get "trigger_time" kvs = Some (JStr t) -> strptime t = Some naive ->
  timezone_of kvs = Some name -> tzdata name = TzFound z ->
  method_of kvs = Some m ->
  dict_get "body" kvs = Some j -> is_plain j = true ->
  let now := clock w (st_ticks s) in
  let h := fst (build (JObj kvs) (st_heap s)) in
  (in_window (diff_minutes (tz_fromutc z now - naive)) = true ->
   Script.process_file w sk fc path s
   = (Raise TypeError,
      unprepared (h ++ [ODict []])
        (timed path h (replace_tzinfo naive z) (now_script z now)
           (tz_fromutc z now - naive) s))) /\
  (in_window (diff_minutes (now - tz_toutc z naive)) = true ->
   Package.process_file w sk fc path s
   = (Raise TypeError,
      unprepared (h ++ [ODict []])
        (timed path h (pytz_localize z naive) (now_package z now)
           (now - tz_toutc z naive) s))).
Proof.
  intros Hf Hx Ht Hp Hn Hz Hm Hb Hj now h.
  destruct (build_object_record kvs (st_heap s))
    as (d & h' & vkvs & Hbuild & _ & _ & Hr).
  assert (h = h') as <- by (subst h; by rewrite Hbuild).
  split; intros Hin.
  - rewrite (script_file_timed w sk fc path s kvs wr t naive name z) by done.
    fold now. rewrite Hin, Hbuild. cbn [fst snd]. fold h.
    set (at_test := timed _ _ _ _ _ _).
    unfold Script.dispatch, bind at 1, print, emit. unfold bind at 1.
    by rewrite (prepare_without_body Script.prepare _ sk d vkvs kvs m j)
      by (done || by left).
  - rewrite (package_file_timed w sk fc path s kvs wr t naive name z) by done.
    fold now. rewrite Hin, Hbuild. cbn [fst snd]. fold h.
    set (at_test := timed _ _ _ _ _ _).
    unfold Package.dispatch, bind at 1, print, emit. unfold bind at 1.
    by rewrite (prepare_without_body Package.prepare _ sk d vkvs kvs m j)
      by (done || by right).
Qed.

Lemma written_app t u : written (t ++ u) = written t ++ written u.
Proof. apply omap_app. Qed.

Lemma written_writes t : written (writes t) = written t.
Proof.
  unfold written, writes. induction t as [| e t IH]; [done |].
  destruct e; cbn [List.filter is_write]; try exact IH.
  change (omap ?f (?x :: ?l)) with
    (match f x with Some y => y :: omap f l | None => omap f l end).
  cbn beta iota. by rewrite IH.
Qed.

Lemma chatter_written t : forallb chatter t = true -> written t = [].
Proof.
  intros Hc. rewrite <- written_writes.
  by destruct (chatter_log t Hc) as (_ & _ & _ & _ & -> & _).
Qed.

Section Order.
Context {RT : Runtime} (w : world).

(** The loop: what is written follows what is announced. *)
Lemma for_each_written (body : bool -> string -> M bool)
  (loop : bool -> list string -> M bool) :
  (forall fc path s, announced path s (snd (body fc path s))) ->
  (forall fc path s, task_ends w fc path s (body fc path s)) ->
  (forall fc, loop fc [] = ret fc) ->
  (forall fc path rest,
     loop fc (path :: rest)
     = (changed <- body fc path ;; loop changed rest)) ->
  forall listing fc s,
    let log := added s (snd (loop fc listing s)) in
    st_trace (snd (loop fc listing s)) = st_trace s ++ log /\
    written log `sublist_of` checked log.
Proof.
  intros Hann Hbody Hnil Hcons listing.
  induction listing as [| path rest IH]; intros fc s; cbv zeta.
  - rewrite Hnil. cbn [ret snd].
    rewrite (added_app s s []) by (by rewrite app_nil_r).
    by rewrite app_nil_r.
  - rewrite Hcons. unfold bind.
    destruct (Hann fc path s) as (l1 & Ht & Hu & _).
    pose proof (Hbody fc path s) as Hend.
    unfold task_ends in Hend. cbv zeta in Hend.
    assert (written (added s (snd (body fc path s)))
              `sublist_of` checked (added s (snd (body fc path s))))
      as Hsub.
    { assert (checked (added s (snd (body fc path s))) = [path]) as ->.
      { rewrite (added_app _ _ _ Ht).
        change (Print (MsgChecking path) :: l1)
          with ([Print (MsgChecking path)] ++ l1).
        by rewrite checked_app, (unchecked_log l1 Hu). }
      rewrite <- written_writes.
      destruct Hend as [(-> & _) | (kvs & wr & stamp & _ & _ & -> & _)].
      - apply sublist_nil_l.
      - done. }
    destruct (body fc path s) as [[changed | e] s1]; cbn [fst snd] in *;
      [| split; [by rewrite (added_app _ _ _ Ht) | done]].
    destruct (IH changed s1) as (Ht2 & Hsub2).
    set (out := loop changed rest s1) in *.
    assert (added s (snd out) = added s s1 ++ added s1 (snd out)) as Ha.
    { apply added_app. rewrite Ht2, (added_app s s1 _ Ht), Ht.
      by rewrite <- app_assoc. }
    rewrite Ha, written_app, checked_app.
    split; [by rewrite Ht2, (added_app s s1 _ Ht), Ht, <- app_assoc |].
    by apply sublist_app.
Qed.

(** A whole run, for a loop as above. *)
Lemma run_written (loop : val -> bool -> list string -> M bool)
  (keys : env_var) (listing : list string) (s : state) :
  (forall sk listing fc s,
     let log := added s (snd (loop sk fc listing s)) in
     st_trace (snd (loop sk fc listing s)) = st_trace s ++ log /\
     written log `sublist_of` checked log) ->
  let out :=
    (secret_keys <- load_secret_keys keys ;;
     match listing with
     | [] => print MsgNoConfigs
     | _ :: _ =>
         files_changed <- loop secret_keys false listing ;;
         if files_changed then print MsgSummaryChanged
         else print MsgSummaryUnchanged
     end) s in
  written (added s (snd out)) `sublist_of` checked (added s (snd out)).
Proof.
  intros Hloop.
  set (rest := fun secret_keys : val =>
         match listing with
         | [] => print MsgNoConfigs
         | _ :: _ =>
             files_changed <- loop secret_keys false listing ;;
             if files_changed then print MsgSummaryChanged
             else print MsgSummaryUnchanged
         end).
  change (let out := bind (load_secret_keys keys) rest s in
          written (added s (snd out))
            `sublist_of` checked (added s (snd out))).
  cbv zeta. unfold bind.
  destruct (quiet_load_secret_keys keys s) as (l0 & Ht0 & Hc0 & _).
  pose proof (chatter_written l0 Hc0) as Hw0.
  destruct (load_secret_keys keys s) as [[sk | e] s1]; cbn [fst snd] in *.
  2: { rewrite (added_app _ _ _ Ht0), Hw0. apply sublist_nil_l. }
  subst rest. destruct listing as [| path rest].
  - unfold print, emit. cbn [fst snd st_trace with_trace].
    erewrite added_app; [| rewrite Ht0, <- app_assoc; reflexivity].
    rewrite written_app, Hw0. apply sublist_nil_l.
  - destruct (Hloop sk (path :: rest) false s1) as (Ht1 & Hsub1).
    set (tail := fun files_changed : bool =>
           if files_changed then print MsgSummaryChanged
           else print MsgSummaryUnchanged).
    change (let out := bind (loop sk false (path :: rest)) tail s1 in
            written (added s (snd out))
              `sublist_of` checked (added s (snd out))).
    cbv zeta. unfold bind.
    destruct (loop sk false (path :: rest) s1) as [[changed | e] s2];
      cbn [fst snd] in *.
    + assert (exists msg, tail changed s2
                = (Ok tt, with_trace (st_trace s2 ++ [Print msg]) s2)
                /\ chatter (Print msg) = true) as (msg & -> & Hmsg).
      { subst tail. destruct changed; by eexists. }
      cbn [snd].
      erewrite added_app;
        [| cbn; rewrite Ht1, Ht0, <- !app_assoc; reflexivity].
      rewrite !written_app, !checked_app, Hw0.
      cbn [app]. apply sublist_inserts_l.
      destruct msg; try done;
        cbn; rewrite !app_nil_r; exact Hsub1.
    + erewrite added_app; [| rewrite Ht1, Ht0, <- !app_assoc; reflexivity].
      rewrite !written_app, !checked_app, Hw0.
      cbn [app]. by apply sublist_inserts_l.
Qed.
End Order.

(** X9.  The writes follow the listing.  In a run of either variant the files
    are written in the order in which they are announced, each at most
    once, and no file is written that was not announced: the paths
    written are a sublist of the paths checked, which are a first part
    of the listing. *)
Theorem writes_follow_the_listing {RT : Runtime} (w : world) (keys : env_var)
  (listing : list string) (s : state) :
  let script := added s (snd (Script.process_tasks w keys listing s)) in
  let package := added s (snd (Package.process_tasks w keys listing s)) in
  written script `sublist_of` checked script /\
  checked script `prefix_of` listing /\
  written package `sublist_of` checked package /\
  checked package `prefix_of` listing.
Proof.
  cbv zeta.
  destruct (run_is_accounted_both w keys listing s)
    as [(_ & Hp1 & _) (_ & Hp2 & _)].
  split; [| split; [done | split; [| done]]].
  - apply (run_written (Script.for_each w) keys listing s).
    intros sk l fc s0.
    apply (for_each_written w
             (fun fc path => Script.process_file w sk fc path)
             (Script.for_each w sk)); try done.
    + intros. apply script_process_file_announced.
    + intros. apply script_task_digest.
  - apply (run_written (Package.for_each w) keys listing s).
    intros sk l fc s0.
    apply (for_each_written w
             (fun fc path => Package.process_file w sk fc path)
             (Package.for_each w sk)); try done.
    + intros. apply package_process_file_announced.
    + intros. apply package_task_digest.
Qed.

(** ** The listing of main.py

    [config_files = sorted(glob.glob(os.path.join(CONFIG_DIR, "*.json")))]
    over a store whose keys are the paths of its files, relative to the
    working directory, with [/] between the components. *)

Lemma ascii_compare_eq a b : Ascii.compare a b = Eq -> a = b.
Proof.
  unfold Ascii.compare. intros H. apply N.compare_eq in H.
  rewrite <- (ascii_N_embedding a), <- (ascii_N_embedding b). by rewrite H.
Qed.

Lemma string_leb_trans s1 : forall s2 s3,
  String.leb s1 s2 = true -> String.leb s2 s3 = true ->
  String.leb s1 s3 = true.
Proof.
  unfold String.leb.
  induction s1 as [| a s1 IH]; intros [| b s2] [| c s3]; cbn; try done.
  destruct (Ascii.compare a b) eqn:Hab; [| | done].
  - apply ascii_compare_eq in Hab as ->.
    destruct (Ascii.compare b c) eqn:Hbc; [| done | done]. apply IH.
  - destruct (Ascii.compare b c) eqn:Hbc; [| | done]; intros _ _.
    + apply ascii_compare_eq in Hbc as ->. by rewrite Hab.
    + unfold Ascii.compare in *.
      rewrite N.compare_lt_iff in Hab, Hbc.
      assert (N_of_ascii a < N_of_ascii c)%N as Hac by lia.
      apply N.compare_lt_iff in Hac. by rewrite Hac.
Qed.

Lemma string_leb_ltb a b : String.leb a b = true -> a <> b -> before a b.
Proof.
  unfold before, String.leb, String.ltb. intros Hle Hne.
  destruct (String.compare a b) eqn:Hc; [| done | done].
  by apply String.compare_eq_iff in Hc.
Qed.

Lemma before_leb a b : before a b -> String.leb a b = true.
Proof.
  unfold before, String.leb, String.ltb. by destruct (String.compare a b).
Qed.

Lemma before_irrefl a : ~ before a a.
Proof.
  unfold before, String.ltb. intros H.
  assert (String.compare a a = Eq) as Heq; [| by rewrite Heq in H].
  pose proof (String.compare_antisym a a) as Hs.
  by destruct (String.compare a a).
Qed.

Lemma insert_sorted_perm x l : insert_sorted x l ≡ₚ x :: l.
Proof.
  induction l as [| y r IH]; [done |]. cbn.
  destruct (String.leb x y); [done |]. rewrite IH. apply Permutation_swap.
Qed.

Lemma sorted_perm l : sorted l ≡ₚ l.
Proof.
  induction l as [| x l IH]; [done |]. cbn.
  by rewrite insert_sorted_perm, IH.
Qed.

Lemma insert_sorted_sorted x l :
  StronglySorted leq l -> StronglySorted leq (insert_sorted x l).
Proof.
  induction 1 as [| y r Hr IH Hy]; cbn; [by repeat constructor |].
  destruct (String.leb x y) eqn:Hxy.
  - constructor; [by constructor |]. constructor; [done |].
    eapply Forall_impl; [exact Hy |]. intros z Hz.
    by apply string_leb_trans with y.
  - constructor; [done |].
    rewrite insert_sorted_perm. constructor; [| done].
    destruct (String.leb_total x y) as [H | H]; [congruence | done].
Qed.

Lemma sorted_sorted l : StronglySorted leq (sorted l).
Proof.
  induction l as [| x l IH]; cbn; [constructor |].
  by apply insert_sorted_sorted.
Qed.

Lemma strictly_sorted l :
  StronglySorted leq l -> NoDup l -> StronglySorted before l.
Proof.
  induction 1 as [| y r Hr IH Hy]; intros Hnd; [constructor |].
  apply NoDup_cons in Hnd as [Hin Hnd]. constructor; [by apply IH |].
  apply Forall_forall. intros z Hz. apply string_leb_ltb.
  - by apply (proj1 (Forall_forall _ _) Hy).
  - by intros ->.
Qed.

Lemma StronglySorted_prefix {A} (R : A -> A -> Prop) (l k : list A) :
  l `prefix_of` k -> StronglySorted R k -> StronglySorted R l.
Proof.
  intros [t ->]. induction l as [| x l IH]; [constructor |].
  cbn. intros Hs. apply StronglySorted_inv in Hs as [Hs Hx].
  constructor; [by apply IH |].
  by apply Forall_app in Hx as [Hx _].
Qed.

Lemma glob_configs_spec fs p :
  p ∈ glob_configs fs <-> is_config p = true /\ is_Some (fs !! p).
Proof.
  unfold glob_configs. rewrite list_elem_of_In, filter_In, <- list_elem_of_In.
  rewrite list_elem_of_fmap. split.
  - intros [([k f] & -> & Hk) Hc]. apply elem_of_map_to_list in Hk.
    split; [done | by exists f].
  - intros [Hc [f Hf]]. split; [| done]. exists (p, f).
    split; [done | by apply elem_of_map_to_list].
Qed.

Lemma glob_configs_NoDup fs : NoDup (glob_configs fs).
Proof.
  unfold glob_configs.
  assert (NoDup (map fst (map_to_list fs))) as Hnd
    by apply NoDup_fst_map_to_list.
  induction Hnd as [| x l Hx Hl IH]; [constructor |].
  cbn. destruct (is_config x); [| done].
  constructor; [| done]. rewrite list_elem_of_In, filter_In, <- list_elem_of_In.
  tauto.
Qed.

(** The listing: the matching paths of the store, each once, in
    strictly ascending order. *)
Lemma script_listing_spec fs :
  StronglySorted before (script_listing fs) /\
  forall p, p ∈ script_listing fs <-> is_config p = true /\ is_Some (fs !! p).
Proof.
  unfold script_listing. split.
  - apply strictly_sorted; [apply sorted_sorted |].
    rewrite sorted_perm. apply glob_configs_NoDup.
  - intros p. rewrite sorted_perm. apply glob_configs_spec.
Qed.

(** X22.  The script goes through [configs/*.json] in ascending order.  Run
    with the listing it makes itself, main.py announces files in
    strictly ascending order of their paths, so each at most once; a
    file it announces is a file of the store that the pattern matches,
    and a run that returns has announced every such file; and it writes
    no file that it has not announced, so none outside the pattern. *)
Theorem script_goes_through_configs_in_order {RT : Runtime} (w : world)
  (keys : env_var) (s : state) :
  let out := script_main w keys s in
  let log := added s (snd out) in
  StronglySorted before (checked log) /\
  (forall p, p ∈ checked log -> is_config p = true /\ is_Some (st_fs s !! p)) /\
  (fst out = Ok tt ->
   forall p, is_config p = true -> is_Some (st_fs s !! p) -> p ∈ checked log) /\
  (forall p, p ∈ written log -> p ∈ checked log).
Proof.
  cbv zeta. unfold script_main.
  destruct (script_listing_spec (st_fs s)) as [Hsorted Hin].
  destruct (run_is_accounted_both w keys (script_listing (st_fs s)) s)
    as [(_ & Hpre & Hall & _) _].
  split; [by apply (StronglySorted_prefix _ _ _ Hpre) |].
  split; [| split].
  - intros p Hp. apply Hin. destruct Hpre as [t ->].
    apply elem_of_app. by left.
  - intros Hok p Hc Hf. rewrite Hall by (by exists tt). by apply Hin.
  - intros p Hp.
    assert (written (added s
              (snd (Script.process_tasks w keys (script_listing (st_fs s)) s)))
            `sublist_of`
            checked (added s
              (snd (Script.process_tasks w keys (script_listing (st_fs s)) s))))
      as Hsub.
    { apply (run_written (Script.for_each w) keys _ s).
      intros sk l fc s0.
      apply (for_each_written w
               (fun fc path => Script.process_file w sk fc path)
               (Script.for_each w sk)); try done.
      - intros. apply script_process_file_announced.
      - intros. apply script_task_digest. }
    eapply elem_of_submseteq; [exact Hp | by apply sublist_submseteq].
Qed.

(** ** The objects a task finds on the heap *)

Lemma kept_trans k s1 s2 s3 : kept k s1 s2 -> kept k s2 s3 -> kept k s1 s3.
Proof.
  intros (L1 & H1) (L2 & H2). split; [lia |].
  intros l Hl. rewrite H2, H1; done.
Qed.

Lemma safe_keeps {A} k (m : M A) Q : safe k m Q -> keeps k m Q.
Proof.
  intros Hm s Hk. destruct (Hm s Hk) as [(_ & Hl & Hsame) HQ]. by repeat split.
Qed.

Lemma keeps_bind {A B} k (m : M A) (f : A -> M B) Q Q' :
  keeps k m Q -> (forall a, Q a -> keeps k (f a) Q') -> keeps k (bind m f) Q'.
Proof.
  intros Hm Hf s Hk. unfold bind.
  destruct (Hm s Hk) as [Fm Qm].
  destruct (m s) as [[a | e] s1]; simpl in *; [| done].
  assert (k <= length (st_heap s1))%nat as Hk1 by (destruct Fm; lia).
  destruct (Hf a (Qm a eq_refl) s1 Hk1) as [Ff Qf].
  split; [by eapply kept_trans | done].
Qed.

Lemma keeps_weaken {A} k (m : M A) (Q Q' : A -> Prop) :
  keeps k m Q -> (forall a, Q a -> Q' a) -> keeps k m Q'.
Proof.
  intros Hm HQ s Hk. destruct (Hm s Hk) as [F Hq]. split; [done |].
  intros a Ha. auto.
Qed.

Lemma keeps_try_except {A} k catches (m : M A) Q :
  keeps k m Q ->
  keeps k (try_except catches m)
    (fun r => match r with inl a => Q a | inr _ => True end).
Proof.
  intros Hm s Hk. unfold try_except.
  destruct (Hm s Hk) as [F Hq].
  destruct (m s) as [[a | e] s1]; simpl in *.
  - split; [done |]. intros r [= <-]. auto.
  - destruct (catches e); simpl; (split; [done |]); [| done].
    by intros r [= <-].
Qed.

Lemma keeps_json_dump k path data : keeps k (json_dump path data) any.
Proof.
  intros s _. split; [| done]. unfold json_dump.
  case_bool_decide; [done |]. by destruct (dumps (st_heap s) data).
Qed.

Lemma keeps_json_load k path : keeps k (json_load path) (fresh k).
Proof.
  intros s Hk. unfold json_load.
  destruct (st_fs s !! path) as [f |]; [| done].
  destruct (f_doc f) as [j |]; [| done].
  destruct (build_spec j (st_heap s)) as (ext & Hh & _ & _ & Hf).
  destruct (build j (st_heap s)) as [h' v']. simpl in *. subst h'. split.
  - split; simpl.
    + rewrite length_app. lia.
    + intros l Hl. apply lookup_app_l. lia.
  - intros a [= <-]. destruct v'; simpl in *; try done. lia.
Qed.

Section Kept.
Context {RT : Runtime} (w : world).

Lemma keeps_script_complete k data ct path fc success :
  fresh k data -> keeps k (Script.complete data ct path fc success) any.
Proof.
  intros Hd. unfold Script.complete. destruct success.
  - eapply keeps_bind;
      [apply safe_keeps; by apply safe_py_setitem | intros _ _].
    eapply keeps_bind;
      [apply safe_keeps; by apply safe_py_setitem | intros _ _].
    eapply keeps_bind; [apply keeps_json_dump | intros _ _].
    apply safe_keeps. repeat safe_step.
  - apply safe_keeps. repeat safe_step.
Qed.

Lemma keeps_package_complete k data ct path fc success :
  fresh k data -> keeps k (Package.complete data ct path fc success) any.
Proof.
  intros Hd. unfold Package.complete. destruct success.
  - eapply keeps_bind;
      [apply safe_keeps; by apply safe_py_setitem | intros _ _].
    eapply keeps_bind;
      [apply safe_keeps; by apply safe_py_setitem | intros _ _].
    eapply keeps_bind;
      [apply keeps_try_except, keeps_json_dump | intros saved _].
    apply safe_keeps. destruct saved; repeat safe_step.
  - apply safe_keeps. repeat safe_step.
Qed.

Lemma keeps_script_dispatch k sk data ct path fc :
  fresh k data -> keeps k (Script.dispatch w sk data ct path fc) any.
Proof.
  intros Hd. unfold Script.dispatch.
  eapply keeps_bind; [apply safe_keeps, safe_print | intros _ _].
  eapply keeps_bind; [apply safe_keeps, safe_script_prepare |].
  intros [[method url] payload] _.
  eapply keeps_bind; [apply safe_keeps, safe_script_deliver | intros b _].
  by apply keeps_script_complete.
Qed.

Lemma keeps_package_dispatch k sk data ct path fc :
  fresh k data -> keeps k (Package.dispatch w sk data ct path fc) any.
Proof.
  intros Hd. unfold Package.dispatch.
  eapply keeps_bind; [apply safe_keeps, safe_print | intros _ _].
  eapply keeps_bind; [apply safe_keeps, safe_package_prepare |].
  intros [[method url] payload] _.
  eapply keeps_bind; [apply safe_keeps, safe_package_deliver | intros b _].
  by apply keeps_package_complete.
Qed.

Lemma keeps_script_evaluate k sk fc path data :
  fresh k data -> keeps k (Script.evaluate w sk fc path data) any.
Proof.
  intros Hd. unfold Script.evaluate.
  eapply keeps_bind; [apply safe_keeps, safe_py_get | intros executed _].
  destruct (is_True executed); [apply safe_keeps; repeat safe_step |].
  eapply keeps_bind; [apply safe_keeps, safe_py_get | intros t _].
  eapply keeps_bind; [apply safe_keeps, safe_py_get | intros tz _].
  eapply keeps_bind; [apply safe_keeps, safe_py_truthy | intros given _].
  destruct (negb given); [apply safe_keeps; by apply safe_ret |].
  eapply keeps_bind;
    [apply safe_keeps, safe_script_read_times | intros times _].
  destruct times as [[trigger_time current_time] | e];
    [| apply safe_keeps; repeat safe_step].
  eapply keeps_bind; [apply safe_keeps, safe_lift | intros diff _].
  eapply keeps_bind; [apply safe_keeps, safe_print | intros _ _].
  eapply keeps_bind; [apply safe_keeps, safe_print | intros _ _].
  destruct (in_window _); [by apply keeps_script_dispatch |].
  apply safe_keeps. repeat safe_step.
Qed.

Lemma keeps_package_evaluate k sk fc path data :
  fresh k data -> keeps k (Package.evaluate w sk fc path data) any.
Proof.
  intros Hd. unfold Package.evaluate.
  eapply keeps_bind; [apply safe_keeps, safe_py_get | intros executed _].
  destruct (is_True executed); [apply safe_keeps; repeat safe_step |].
  eapply keeps_bind; [apply safe_keeps, safe_py_get | intros t _].
  eapply keeps_bind; [apply safe_keeps, safe_py_get | intros tz _].
  eapply keeps_bind; [apply safe_keeps, safe_py_truthy | intros given _].
  destruct (negb given); [apply safe_keeps; by apply safe_ret |].
  eapply keeps_bind;
    [apply safe_keeps, safe_package_read_times | intros times _].
  destruct times as [[trigger_time current_time] | e];
    [| apply safe_keeps; repeat safe_step].
  eapply keeps_bind; [apply safe_keeps, safe_lift | intros diff _].
  eapply keeps_bind; [apply safe_keeps, safe_print | intros _ _].
  eapply keeps_bind; [apply safe_keeps, safe_print | intros _ _].
  destruct (in_window _); [by apply keeps_package_dispatch |].
  apply safe_keeps. repeat safe_step.
Qed.

Lemma keeps_script_process_file k sk fc path :
  keeps k (Script.process_file w sk fc path) any.
Proof.
  unfold Script.process_file.
  eapply keeps_bind; [apply safe_keeps, safe_print | intros _ _].
  eapply keeps_bind; [apply keeps_try_except, keeps_json_load |].
  intros [data | e] Hd; [by apply keeps_script_evaluate |].
  apply safe_keeps. repeat safe_step.
Qed.

Lemma keeps_package_process_file k sk fc path :
  keeps k (Package.process_file w sk fc path) any.
Proof.
  unfold Package.process_file.
  eapply keeps_bind; [apply safe_keeps, safe_print | intros _ _].
  eapply keeps_bind; [apply keeps_try_except, keeps_json_load |].
  intros [data | e] Hd; [by apply keeps_package_evaluate |].
  apply safe_keeps. repeat safe_step.
Qed.

Lemma keeps_script_for_each k sk listing :
  forall fc, keeps k (Script.for_each w sk fc listing) any.
Proof.
  induction listing as [| path rest IH]; intros fc; cbn.
  - apply safe_keeps. by apply safe_ret.
  - eapply keeps_bind; [apply keeps_script_process_file | intros b _].
    apply IH.
Qed.

Lemma keeps_package_for_each k sk listing :
  forall fc, keeps k (Package.for_each w sk fc listing) any.
Proof.
  induction listing as [| path rest IH]; intros fc; cbn.
  - apply safe_keeps. by apply safe_ret.
  - eapply keeps_bind; [apply keeps_package_process_file | intros b _].
    apply IH.
Qed.
End Kept.

Lemma kept_extends s s' : kept (length (st_heap s)) s s' ->
  extends (st_heap s) (st_heap s').
Proof.
  intros [_ Hsame] l o Hl. rewrite Hsame; [done |]. by apply lookup_lt_Some in Hl.
Qed.

(** X10.  The objects a task finds are left alone.  Whatever a task of either
    variant does, and however it ends, every object that was on the heap
    when it started is the same afterwards: the credentials and the
    records of earlier tasks are not written to; what a task changes is
    the record it has read itself and the payload it has copied from it.
    So the credentials read back the same after every task of the loop. *)
Theorem objects_found_are_left_alone {RT : Runtime} (w : world) (sk : val)
  (fc : bool) (listing : list string) (s : state) :
  let script := snd (Script.for_each w sk fc listing s) in
  let package := snd (Package.for_each w sk fc listing s) in
  extends (st_heap s) (st_heap script) /\
  extends (st_heap s) (st_heap package) /\
  (forall j, dumps (st_heap s) sk = Some j ->
             dumps (st_heap script) sk = Some j /\
             dumps (st_heap package) sk = Some j).
Proof.
  cbv zeta.
  destruct (keeps_script_for_each w (length (st_heap s)) sk listing fc s
              ltac:(done)) as [Hs _].
  destruct (keeps_package_for_each w (length (st_heap s)) sk listing fc s
              ltac:(done)) as [Hp _].
  pose proof (kept_extends _ _ Hs) as Es.
  pose proof (kept_extends _ _ Hp) as Ep.
  do 2 (split; [done |]). intros j Hj. unfold dumps in *.
  destruct Hs as [Ls _], Hp as [Lp _].
  split; (eapply dump_mono; [| | exact Hj]; done).
Qed.


Lemma written_record_is_skipped_afterwards_witness :
  let s := initial put_store in
  let s1 :=
    snd (Script.process_file (RT := demo_runtime) (ten_past 200) VNone false
           a_json s) in
  writes (added s s1) <> [] /\
  fst (Package.process_file (RT := demo_runtime) (ten_past 500) VNone true
         a_json s1) = Ok true /\
  st_sent (snd (Package.process_file (RT := demo_runtime) (ten_past 500) VNone
                  true a_json s1)) = st_sent s1.
Proof.
  cbv zeta.
  assert (writes
            (added (initial put_store)
               (snd (Script.process_file (RT := demo_runtime) (ten_past 200)
                       VNone false a_json (initial put_store)))) <> [])
    as Hw by (by vm_compute).
  split; [exact Hw |].
  destruct (written_record_is_skipped_afterwards (RT := demo_runtime)
              (ten_past 200) (Script.process_file (ten_past 200)) VNone false
              a_json (initial put_store) (or_introl eq_refl) Hw
              (ten_past 500) VNone true
              (snd (Script.process_file (RT := demo_runtime) (ten_past 200)
                      VNone false a_json (initial put_store))) eq_refl)
    as [_ (Hres & _ & _ & Hsent)].
  by split.
Defined.

Lemma summary_tells_the_writes_witness :
  let s := initial put_store in
  let out :=
    Script.process_tasks (RT := demo_runtime) (ten_past 200) one_key [a_json]
      s in
  fst out = Ok tt /\
  last (added s (snd out))
  = Some (Print (summary [a_json] (added s (snd out)))).
Proof.
  cbv zeta.
  assert (fst (Script.process_tasks (RT := demo_runtime) (ten_past 200)
                 one_key [a_json] (initial put_store)) = Ok tt)
    as Hok by (by vm_compute).
  split; [exact Hok |].
  exact (summary_tells_the_writes (RT := demo_runtime) (ten_past 200)
           (Script.process_tasks (ten_past 200)) one_key [a_json]
           (initial put_store) (or_introl eq_refl) Hok).
Defined.

Lemma absent_keys_inject_nothing_witness :
  let s := on_heap keys_heap in
  load_secret_keys (Text None) s
  = (Ok (VRef 4),
     with_trace [Print MsgKeysMalformed]
       (with_heap (keys_heap ++ [OList []]) s)).
Proof.
  cbv zeta.
  exact (proj1 (absent_keys_inject_nothing (RT := demo_runtime) (Text None)
                  (on_heap keys_heap) (or_intror (or_introl eq_refl)))).
Defined.

Lemma unreadable_file_is_passed_over_witness :
  let s := initial garbled_store in
  (forall f, st_fs s !! a_json = Some f -> f_doc f = None) /\
  Script.process_file (RT := demo_runtime) (ten_past 200) VNone false a_json s
  = (Ok false,
     with_trace [Print (MsgChecking a_json); Print MsgReadFailed] s).
Proof.
  cbv zeta.
  assert (forall f, st_fs (initial garbled_store) !! a_json = Some f ->
                    f_doc f = None) as Hno.
  { intros f Hf. vm_compute in Hf. by injection Hf as <-. }
  split; [exact Hno |].
  exact (proj1 (unreadable_file_is_passed_over (RT := demo_runtime)
                  (ten_past 200) VNone false a_json (initial garbled_store)
                  Hno)).
Defined.

Lemma task_without_trigger_time_is_passed_over_witness :
  let s := initial (store_of (JObj untimed_members)) in
  Script.process_file (RT := demo_runtime) (ten_past 200) VNone false a_json s
  = (Ok false, loaded a_json untimed_members s).
Proof.
  cbv zeta.
  assert (dict_get "executed" untimed_members <> Some (JBool true)) as Hx
    by done.
  exact (proj1 (task_without_trigger_time_is_passed_over (RT := demo_runtime)
                  (ten_past 200) VNone false a_json
                  (initial (store_of (JObj untimed_members)))
                  untimed_members true eq_refl Hx eq_refl)).
Defined.

Lemma malformed_time_is_reported_witness :
  let s := initial (store_of (JObj misdated_members)) in
  strptime (Runtime := demo_runtime) "01/05/2024 12:00" = None /\
  Script.process_file (RT := demo_runtime) (ten_past 200) VNone false a_json s
  = (Ok false,
     with_trace
       (st_trace (loaded a_json misdated_members s)
        ++ [Print MsgBadTimeFormat])
       (loaded a_json misdated_members s)).
Proof.
  cbv zeta. split; [reflexivity |].
  assert (dict_get "executed" misdated_members <> Some (JBool true)) as Hx
    by done.
  assert ("01/05/2024 12:00" <> "") as Hne by done.
  exact (proj1 (malformed_time_is_reported (RT := demo_runtime)
                  (ten_past 200) VNone false a_json
                  (initial (store_of (JObj misdated_members)))
                  misdated_members true "01/05/2024 12:00"
                  eq_refl Hx eq_refl Hne eq_refl)).
Defined.

Lemma document_without_members_ends_the_script_witness :
  let s := initial (store_of (JArr [JInt 1])) in
  let out :=
    Script.process_tasks (RT := demo_runtime) (ten_past 200) Unset
      [a_json; b_json] s in
  fst out = Raise AttributeError /\
  added s (snd out) = [Print MsgKeysLoaded; Print (MsgChecking a_json)] /\
  st_fs (snd out) = st_fs s /\ st_sent (snd out) = st_sent s.
Proof.
  cbv zeta.
  exact (document_without_members_ends_the_script (RT := demo_runtime)
           (ten_past 200) Unset a_json [b_json]
           (initial (store_of (JArr [JInt 1]))) (JArr [JInt 1]) true
           eq_refl eq_refl).
Defined.

Lemma method_must_be_a_string_witness :
  let s := initial (store_of (JObj no_method_members)) in
  fst (Script.process_file (RT := demo_runtime) (ten_past 200) VNone false
         a_json s) = Raise AttributeError.
Proof.
  cbv zeta.
  assert (dict_get "executed" no_method_members <> Some (JBool true)) as Hx
    by done.
  destruct (method_must_be_a_string (RT := demo_runtime) (ten_past 200) VNone
              false a_json (initial (store_of (JObj no_method_members)))
              no_method_members true "2024-05-01 12:00:00" noon "UTC"
              (Demo.fixed_offset "UTC" 0) JNull
              eq_refl Hx eq_refl eq_refl eq_refl eq_refl eq_refl eq_refl)
    as [Hscript _].
  by rewrite Hscript by (by vm_compute).
Defined.

Lemma body_must_hold_members_witness :
  let s := initial (store_of (JObj no_body_members)) in
  fst (Package.process_file (RT := demo_runtime) (ten_past 200) VNone false
         a_json s) = Raise TypeError.
Proof.
  cbv zeta.
  assert (dict_get "executed" no_body_members <> Some (JBool true)) as Hx
    by done.
  destruct (body_must_hold_members (RT := demo_runtime) (ten_past 200) VNone
              false a_json (initial (store_of (JObj no_body_members)))
              no_body_members true "2024-05-01 12:00:00" noon "UTC"
              (Demo.fixed_offset "UTC" 0) "POST" JNull
              eq_refl Hx eq_refl eq_refl eq_refl eq_refl eq_refl eq_refl
              eq_refl)
    as [_ Hpackage].
  by rewrite Hpackage by (by vm_compute).
Defined.
